(** * Disaster-preparedness RAG pipeline: chunking, point identity, ingestion
      and query flow

    A shallow embedding of [process_embeddings.py], [app.py],
    [scraper.py] and [setup.py].

    - Python [str] values are sequences of Unicode code points: [pystr] is
      [list Z], so that [len], slicing and [rfind] count code points the
      way Python does.
    - Python [int] is [Z]; the one [float] of the chunker
      ([chunk_size * 0.7]) is an IEEE-754 binary64 ([PrimFloat.float]).
    - Python [dict]s (point payloads, the attribute dictionary of the
      application object, the files on disk) are [gmap]s.
    - Loops that Python can run forever ([while] in [chunk_text]) take a
      fuel argument and return [None] when it runs out. *)

From Stdlib Require Import ZArith List Lia Bool String Ascii.
From Stdlib Require Import Floats.PrimFloat Floats.SpecFloat Floats.FloatOps.
From Stdlib Require Import Floats.FloatAxioms.
From Stdlib Require Numbers.Cyclic.Int63.Uint63.
From stdpp Require Import base option list gmap strings.

Local Open Scope Z_scope.

(** ** Python strings *)

Module Py.

(** A Python string: its code points. *)
Abbreviation pystr := (list Z).

(** A literal of ASCII characters as a Python string. *)
Definition lit (s : string) : pystr :=
  map (fun a => Z.of_N (N_of_ascii a)) (list_ascii_of_string s).

(** [len(s)] *)
Definition len {A} (s : list A) : Z := Z.of_nat (length s).

(** [s[lo:hi]] for arbitrary integers: a negative bound counts from the
    end, and both bounds are clipped to [0 .. len(s)]. *)
Definition clip (n i : Z) : Z :=
  if i <? 0 then Z.max 0 (i + n) else Z.min i n.

Definition slice {A} (s : list A) (lo hi : Z) : list A :=
  let lo' := clip (len s) lo in
  let hi' := clip (len s) hi in
  take (Z.to_nat (hi' - lo')) (drop (Z.to_nat lo') s).

(** [str.isspace] for one code point (CPython's [_PyUnicode_IsWhitespace]). *)
Definition isspace (c : Z) : bool :=
  ((9 <=? c) && (c <=? 13)) || ((28 <=? c) && (c <=? 32))
  || (c =? 133) || (c =? 160) || (c =? 5760)
  || ((8192 <=? c) && (c <=? 8202))
  || (c =? 8232) || (c =? 8233) || (c =? 8239) || (c =? 8287)
  || (c =? 12288).

Fixpoint lstrip (s : pystr) : pystr :=
  match s with
  | c :: s' => if isspace c then lstrip s' else s
  | [] => []
  end.

Definition rstrip (s : pystr) : pystr := rev (lstrip (rev s)).

(** [s.strip()] *)
Definition strip (s : pystr) : pystr := rstrip (lstrip s).

(** [s.rfind(c)] for a one-character needle: the highest index holding
    [c], or [-1]. *)
Fixpoint rfind_from (c : Z) (s : pystr) (i : Z) (found : Z) : Z :=
  match s with
  | [] => found
  | x :: s' => rfind_from c s' (i + 1) (if x =? c then i else found)
  end.

Definition rfind (s : pystr) (c : Z) : Z := rfind_from c s 0 (-1).

(** [float(n)] for an [int]: round to nearest, ties to even. Python raises
    [OverflowError] above the largest double; the chunker converts
    [chunk_size] only when [chunk_size < len(text)], and a Python string
    is shorter than [2^63], so that case cannot arise there. *)
Definition float_of_int (n : Z) : float :=
  SF2Prim (binary_normalize prec emax n 0 false).

(** The literal [0.7]: the binary64 value nearest to 7/10. *)
Definition f0_7 : float := 0x1.6666666666666p-1%float.

(** [n > f] for an [int] [n] and a [float] [f]; Python compares the two
    exactly, without rounding [n]. *)
Definition int_gt_float (n : Z) (f : float) : bool :=
  match Prim2SF f with
  | S754_zero _ => 0 <? n
  | S754_infinity s => s
  | S754_nan => false
  | S754_finite s m e =>
      let v := if s then Z.neg m else Z.pos m in
      if 0 <=? e then v * 2 ^ e <? n else v <? n * 2 ^ (- e)
  end.

(** [str(n)] for an [int]. *)
Fixpoint digits (fuel : nat) (n : Z) (acc : pystr) : pystr :=
  match fuel with
  | O => acc
  | S fuel' =>
      let acc' := (48 + n mod 10) :: acc in
      if n <? 10 then acc' else digits fuel' (n / 10) acc'
  end.

Definition str_of_int (n : Z) : pystr :=
  if n <? 0 then 45 :: digits (S (Z.to_nat (Z.log2 (- n)))) (- n) []
  else digits (S (Z.to_nat (Z.log2 n))) n [].

End Py.

Import Py.

(** ** [DocumentProcessor.chunk_text] *)

Module Chunker.

(** The fields [__init__] sets that the chunker reads. *)
Record DocumentProcessor := {
  chunk_size : Z;
  overlap : Z
}.

Definition DocumentProcessor_init : DocumentProcessor :=
  {| chunk_size := 500; overlap := 50 |}.

Definition period : Z := 46.
Definition exclaim : Z := 33.
Definition question : Z := 63.

(** The body of [if end < len(text): ...]: cut the window after its last
    sentence terminator when that lies beyond [chunk_size * 0.7]. *)
Definition break_at_sentence (chunk : pystr) (chunk_size : Z) : pystr :=
  let last_period := rfind chunk period in
  let last_exclaim := rfind chunk exclaim in
  let last_question := rfind chunk question in
  let last_sentence_end := Z.max (Z.max last_period last_exclaim) last_question in
  if int_gt_float last_sentence_end (float_of_int chunk_size * f0_7)%float
  then slice chunk 0 (last_sentence_end + 1)
  else chunk.

(** The text one iteration appends, before [strip]. *)
Definition raw_chunk (text : pystr) (chunk_size start : Z) : pystr :=
  let end_ := start + chunk_size in
  let chunk := slice text start end_ in
  if end_ <? len text then break_at_sentence chunk chunk_size else chunk.

(** The [while start < len(text)] loop. [None]: out of fuel. *)
Fixpoint chunk_loop (fuel : nat) (text : pystr) (chunk_size overlap : Z)
    (start : Z) (chunks : list pystr) : option (list pystr) :=
  match fuel with
  | O => None
  | S fuel' =>
      if start <? len text then
        let end_ := start + chunk_size in
        let chunk := raw_chunk text chunk_size start in
        let chunks := chunks ++ [strip chunk] in
        let start := end_ - overlap in
        if len text <=? start then Some chunks
        else chunk_loop fuel' text chunk_size overlap start chunks
      else Some chunks
  end.

(** The final comprehension: keep [chunk] when [len(chunk.strip()) > 50]. *)
Definition long_enough (chunk : pystr) : bool := 50 <? len (strip chunk).

Definition keep_long (chunks : list pystr) : list pystr :=
  List.filter long_enough chunks.

Definition chunk_text (self : DocumentProcessor) (fuel : nat) (text : pystr)
    (chunk_size overlap : option Z) : option (list pystr) :=
  let chunk_size := default self.(Chunker.chunk_size) chunk_size in
  let overlap := default self.(Chunker.overlap) overlap in
  keep_long <$> chunk_loop fuel text chunk_size overlap 0 [].

End Chunker.

(** ** [uuid.uuid5] (Python standard library)

    [uuid5(namespace, name)] is the SHA-1 digest of the namespace's 16
    bytes followed by the UTF-8 encoding of [name], cut to 128 bits, with
    the version and variant bits overwritten. Bytes and 32-bit words are
    [Z]s, reduced modulo their width after each operation. *)

Module Uuid.

Definition w32 (x : Z) : Z := x mod 2 ^ 32.

Definition rotl (n x : Z) : Z :=
  w32 (Z.lor (Z.shiftl x n) (Z.shiftr x (32 - n))).

(** [x.to_bytes(n, 'big')] *)
Fixpoint to_bytes (n : nat) (x : Z) : list Z :=
  match n with
  | O => []
  | S n' => to_bytes n' (Z.shiftr x 8) ++ [Z.land x 255]
  end.

(** [int.from_bytes(bs, 'big')] *)
Definition from_bytes (bs : list Z) : Z :=
  fold_left (fun acc b => Z.lor (Z.shiftl acc 8) b) bs 0.

Definition pad (msg : list Z) : list Z :=
  msg ++ [128] ++ repeat 0 (Z.to_nat ((55 - len msg) mod 64))
      ++ to_bytes 8 (8 * len msg).

(** Cut a list into consecutive pieces of [k] elements. *)
Fixpoint pieces {A} (fuel : nat) (k : nat) (l : list A) : list (list A) :=
  match fuel, l with
  | S fuel', _ :: _ => take k l :: pieces fuel' k (drop k l)
  | _, _ => []
  end.

Definition words (block : list Z) : list Z :=
  map from_bytes (pieces (length block) 4 block).

(** The message schedule: 16 words extended to 80. *)
Fixpoint schedule (n : nat) (w : list Z) : list Z :=
  match n with
  | O => w
  | S n' =>
      let i := length w in
      let at_ k := nth (i - k) w 0 in
      schedule n'
        (w ++ [rotl 1 (Z.lxor (Z.lxor (Z.lxor (at_ 3%nat) (at_ 8%nat))
                                      (at_ 14%nat)) (at_ 16%nat))])
  end.

Definition state : Type := Z * Z * Z * Z * Z.

Definition round (st : state) (iw : nat * Z) : state :=
  let '(a, b, c, d, e) := st in
  let '(i, w) := iw in
  let '(f, k) :=
    if (i <? 20)%nat then
      (Z.lor (Z.land b c) (Z.land (Z.lxor b 4294967295) d), 1518500249)
    else if (i <? 40)%nat then (Z.lxor (Z.lxor b c) d, 1859775393)
    else if (i <? 60)%nat then
      (Z.lor (Z.lor (Z.land b c) (Z.land b d)) (Z.land c d), 2400959708)
    else (Z.lxor (Z.lxor b c) d, 3395469782) in
  (w32 (rotl 5 a + f + e + k + w), a, rotl 30 b, c, d).

Definition compress (h : state) (block : list Z) : state :=
  let w := schedule 64 (words block) in
  let '(a, b, c, d, e) := fold_left round (combine (seq 0 80) w) h in
  let '(h0, h1, h2, h3, h4) := h in
  (w32 (h0 + a), w32 (h1 + b), w32 (h2 + c), w32 (h3 + d), w32 (h4 + e)).

Definition sha1 (msg : list Z) : list Z :=
  let padded := pad msg in
  let '(h0, h1, h2, h3, h4) :=
    fold_left compress (pieces (length padded) 64 padded)
      (1732584193, 4023233417, 2562383102, 271733878, 3285377520) in
  to_bytes 4 h0 ++ to_bytes 4 h1 ++ to_bytes 4 h2 ++ to_bytes 4 h3
    ++ to_bytes 4 h4.

(** [name.encode('utf-8')]: [None] stands for [UnicodeEncodeError], which
    Python raises on a lone surrogate. *)
Definition utf8_char (c : Z) : option (list Z) :=
  if (c <? 0) || (1114111 <? c) then None
  else if c <? 128 then Some [c]
  else if c <? 2048 then
    Some [Z.lor 192 (Z.shiftr c 6); Z.lor 128 (Z.land c 63)]
  else if (55296 <=? c) && (c <=? 57343) then None
  else if c <? 65536 then
    Some [Z.lor 224 (Z.shiftr c 12); Z.lor 128 (Z.land (Z.shiftr c 6) 63);
          Z.lor 128 (Z.land c 63)]
  else
    Some [Z.lor 240 (Z.shiftr c 18); Z.lor 128 (Z.land (Z.shiftr c 12) 63);
          Z.lor 128 (Z.land (Z.shiftr c 6) 63); Z.lor 128 (Z.land c 63)].

Definition utf8 (s : pystr) : option (list Z) :=
  (fun bss => List.concat bss) <$> mapM utf8_char s.

(** A [UUID] object is its 128-bit integer. *)
Definition UUID : Type := Z.

Definition NAMESPACE_URL : UUID := 0x6ba7b8119dad11d180b400c04fd430c8.
Definition NAMESPACE_DNS : UUID := 0x6ba7b8109dad11d180b400c04fd430c8.

(** [UUID(bytes=..., version=...)] *)
Definition UUID_of_bytes (bs : list Z) (version : Z) : UUID :=
  let i := from_bytes bs in
  let i := Z.land i (Z.lnot (Z.shiftl 0xc000 48)) in
  let i := Z.lor i (Z.shiftl 0x8000 48) in
  let i := Z.land i (Z.lnot (Z.shiftl 0xf000 64)) in
  Z.lor i (Z.shiftl version 76).

Definition uuid5 (namespace : UUID) (name : pystr) : option UUID :=
  name_bytes ← utf8 name;
  Some (UUID_of_bytes (take 16 (sha1 (to_bytes 16 namespace ++ name_bytes))) 5).

Definition hex_digit (d : Z) : Z := if d <? 10 then 48 + d else 87 + d.

(** ['%0nx' % x] *)
Fixpoint hex (n : nat) (x : Z) : pystr :=
  match n with
  | O => []
  | S n' => hex n' (Z.shiftr x 4) ++ [hex_digit (Z.land x 15)]
  end.

(** [str(u)] *)
Definition str_of_UUID (u : UUID) : pystr :=
  let h := hex 32 u in
  slice h 0 8 ++ lit "-" ++ slice h 8 12 ++ lit "-" ++ slice h 12 16
    ++ lit "-" ++ slice h 16 20 ++ lit "-" ++ slice h 20 32.

End Uuid.

(** ** Effects shared by the two programs *)

Module Eff.

(** A raised exception: its class name and [str(e)]. *)
Inductive exn := Exception (cls : string) (msg : pystr).

Definition str_of_exn (e : exn) : pystr :=
  let 'Exception _ msg := e in msg.

(** How a computation ends. [Diverge]: a loop ran out of fuel. *)
Inductive outcome (A : Type) :=
| Ok (a : A)
| Raise (e : exn)
| Diverge.
Arguments Ok {A} a.
Arguments Raise {A} e.
Arguments Diverge {A}.

(** State-and-exception monad. A raise keeps the state reached so far, as
    the mutations Python made before the exception stay made. *)
Definition M (S A : Type) : Type := S -> outcome A * S.

Definition ret {S A} (a : A) : M S A := fun st => (Ok a, st).

Definition bind {S A B} (m : M S A) (k : A -> M S B) : M S B :=
  fun st =>
    match m st with
    | (Ok a, st') => k a st'
    | (Raise e, st') => (Raise e, st')
    | (Diverge, st') => (Diverge, st')
    end.

Definition raise {S A} (e : exn) : M S A := fun st => (Raise e, st).

Definition get {S} : M S S := fun st => (Ok st, st).
Definition modify {S} (f : S -> S) : M S unit := fun st => (Ok tt, f st).

(** The built-in classes that are not subclasses of [Exception]. *)
Definition outside_Exception : list string :=
  ["BaseException"; "BaseExceptionGroup"; "GeneratorExit";
   "KeyboardInterrupt"; "SystemExit"]%string.

(** [isinstance(e, Exception)], read off the class name: every other
    class, built in or defined by a library this program calls, derives
    from [Exception]. *)
Definition is_Exception (e : exn) : bool :=
  let 'Exception cls _ := e in
  negb (existsb (String.eqb cls) outside_Exception).

(** [try: m  except Exception as e: handler e]: an exception outside
    [Exception], such as [KeyboardInterrupt] or [SystemExit], passes
    through. *)
Definition try_except {S A} (m : M S A) (handler : exn -> M S A) : M S A :=
  fun st =>
    match m st with
    | (Raise e, st') =>
        if is_Exception e then handler e st' else (Raise e, st')
    | r => r
    end.

(** [try: m  except: handler]: a bare [except] catches every exception. *)
Definition try_except_all {S A} (m : M S A) (handler : M S A) : M S A :=
  fun st =>
    match m st with
    | (Raise e, st') => handler st'
    | r => r
    end.

(** [for x in l: body x] *)
Fixpoint for_each {S A} (l : list A) (body : A -> M S unit) : M S unit :=
  match l with
  | [] => ret tt
  | x :: l' => bind (body x) (fun _ => for_each l' body)
  end.

(** [enumerate(l, start)] *)
Fixpoint enumerate {A} (start : Z) (l : list A) : list (Z * A) :=
  match l with
  | [] => []
  | x :: l' => (start, x) :: enumerate (start + 1) l'
  end.

(** [zip(l, k)] stops at the shorter argument. *)
Definition zip {A B} (l : list A) (k : list B) : list (A * B) := combine l k.

End Eff.

Import Eff.

#[global] Instance M_ret {S} : MRet (M S) := fun A a => ret a.
#[global] Instance M_bind {S} : MBind (M S) := fun A B k m => bind m k.

(** ** [process_embeddings.py]: the vector store and the ingestion run

    [logger] calls write to the log stream only and are left out. *)

Module Ingest.

Import Uuid.

Definition EMBEDDING_MODEL_NAME : pystr :=
  lit "sentence-transformers/all-MiniLM-L6-v2".
Definition VECTOR_COLLECTION_NAME : pystr := lit "disaster_prep".

(** A payload value: the payload holds strings and two integers. *)
Inductive pyval := PStr (s : pystr) | PInt (n : Z).

(** [not l] for a list. *)
Definition is_empty {A} (l : list A) : bool :=
  match l with [] => true | _ => false end.

(** One record of the scraper's JSON array. *)
Record Document := {
  url : pystr;
  title : pystr;
  content : pystr;
  source : pystr;
  scraped_date : pystr;
  type_ : pystr
}.

(** A point: the [point_data] dictionary of the local path and the
    [PointStruct] of the remote path have the same three entries. *)
Record Point := {
  id : pystr;
  vector : list float;
  payload : gmap string pyval
}.

(** The collaborators outside the repository: the embedding model and the
    Qdrant service, whose state has type [R]. Each call may raise. *)
Class External (R : Type) := {
  SentenceTransformer : pystr -> R -> outcome unit * R;
  model_encode : list pystr -> R -> outcome (list (list float)) * R;
  QdrantClient : pystr -> option pystr -> R -> outcome unit * R;
  client_get_collections : R -> outcome (list pystr) * R;
  client_delete_collection : pystr -> R -> outcome unit * R;
  client_create_collection : pystr -> Z -> R -> outcome unit * R;
  client_upsert : pystr -> list Point -> R -> outcome unit * R
}.

(** The fields of a [QdrantManager]. [__init__] sets [collection_name]
    only when the connection succeeds and [local_storage_file] and
    [embeddings_data] only when it fails; every method reads each of them
    behind the matching test of [use_local_storage]. *)
Record QdrantManager := {
  collection_name : pystr;
  use_local_storage : bool;
  local_storage_file : pystr;
  embeddings_data : list Point
}.

Section Pipeline.

Context {R : Type} `{External R}.

(** The process: the manager object [main] creates, the outside services,
    the files written and the lines printed. *)
Record State := {
  qdrant_manager : QdrantManager;
  services : R;
  files : gmap pystr (list Point);
  stdout : list pystr
}.

Definition set_manager (f : QdrantManager -> QdrantManager) : M State unit :=
  modify (fun st => {| qdrant_manager := f st.(qdrant_manager);
                       services := st.(services);
                       files := st.(files);
                       stdout := st.(stdout) |}).

Definition self : M State QdrantManager :=
  st ← get; mret st.(qdrant_manager).

(** Run a call of an outside service on the [services] component. *)
Definition call {A} (f : R -> outcome A * R) : M State A :=
  fun st =>
    let '(r, s') := f st.(services) in
    (r, {| qdrant_manager := st.(qdrant_manager);
           services := s';
           files := st.(files);
           stdout := st.(stdout) |}).

Definition write_file (path : pystr) (data : list Point) : M State unit :=
  modify (fun st => {| qdrant_manager := st.(qdrant_manager);
                       services := st.(services);
                       files := <[path := data]> st.(files);
                       stdout := st.(stdout) |}).

Definition print (line : pystr) : M State unit :=
  modify (fun st => {| qdrant_manager := st.(qdrant_manager);
                       services := st.(services);
                       files := st.(files);
                       stdout := st.(stdout) ++ [line] |}).

(** [DocumentProcessor.__init__] *)
Definition DocumentProcessor_init (model_name : pystr)
  : M State Chunker.DocumentProcessor :=
  call (SentenceTransformer model_name) ;;
  ret Chunker.DocumentProcessor_init.

(** [DocumentProcessor.create_embeddings] *)
Definition create_embeddings (texts : list pystr)
  : M State (list (list float)) :=
  match texts with
  | [] => ret []
  | _ => call (model_encode texts)
  end.

(** [QdrantManager.__init__]; [getenv] gives [QDRANT_URL] (with its
    default) and [QDRANT_API_KEY]. *)
Definition QdrantManager_init (env : gmap string pystr) : M State unit :=
  let qdrant_url := default (lit "http://localhost:6333") (env !! "QDRANT_URL"%string) in
  let qdrant_api_key := env !! "QDRANT_API_KEY"%string in
  try_except
    (match qdrant_api_key with
     | Some ((_ :: _) as key) => call (QdrantClient qdrant_url (Some key))
     | _ => call (QdrantClient qdrant_url None)
     end ;;
     call client_get_collections ;;
     set_manager (fun m =>
       {| collection_name := VECTOR_COLLECTION_NAME;
          use_local_storage := false;
          local_storage_file := m.(local_storage_file);
          embeddings_data := m.(embeddings_data) |}))
    (fun e =>
     set_manager (fun m =>
       {| collection_name := m.(collection_name);
          use_local_storage := true;
          local_storage_file := lit "data/embeddings_storage.json";
          embeddings_data := [] |})).

Definition set_embeddings_data (d : list Point) : M State unit :=
  set_manager (fun m =>
    {| collection_name := m.(collection_name);
       use_local_storage := m.(use_local_storage);
       local_storage_file := m.(local_storage_file);
       embeddings_data := d |}).

(** [QdrantManager.create_collection] *)
Definition create_collection : M State unit :=
  m ← self;
  if m.(use_local_storage) then set_embeddings_data []
  else
    try_except
      (collection_names ← call client_get_collections;
       (if bool_decide (m.(collection_name) ∈ collection_names)
        then call (client_delete_collection m.(collection_name))
        else ret tt) ;;
       call (client_create_collection m.(collection_name) 384))
      (fun e => raise e).

(** The body of the [for] loop of [_upload_chunks_local]. *)
Definition _upload_chunks_local_body (doc : Document) (chunks : list pystr)
    (item : Z * (pystr * list float)) : M State unit :=
  let '(i, (chunk, embedding)) := item in
  let point_id_string := doc.(url) ++ lit "#" ++ str_of_int i in
  match uuid5 NAMESPACE_URL point_id_string with
  | None => raise (Exception "UnicodeEncodeError" point_id_string)
  | Some u =>
      let point_id := str_of_UUID u in
      let point_data :=
        {| id := point_id;
           vector := embedding;
           payload :=
             <["content"%string := PStr chunk]>
             (<["title"%string := PStr doc.(title)]>
             (<["source"%string := PStr doc.(source)]>
             (<["scraped_date"%string := PStr doc.(scraped_date)]>
             (<["type"%string := PStr doc.(type_)]>
             (<["url"%string := PStr doc.(url)]>
             (<["chunk_index"%string := PInt i]>
             (<["total_chunks"%string := PInt (len chunks)]>
             (<["original_id"%string := PStr point_id_string]> ∅)))))))) |} in
      m ← self;
      set_embeddings_data (m.(embeddings_data) ++ [point_data])
  end.

(** [QdrantManager._upload_chunks_local] *)
Definition _upload_chunks_local (doc : Document) (chunks : list pystr)
    (embeddings : list (list float)) : M State unit :=
  for_each (enumerate 0 (zip chunks embeddings))
    (_upload_chunks_local_body doc chunks).

(** The body of the [for] loop of [_upload_chunks_qdrant]; its state is
    the list [points]. *)
Definition _upload_chunks_qdrant_body (doc : Document) (chunks : list pystr)
    (item : Z * (pystr * list float)) : M (list Point) unit :=
  let '(i, (chunk, embedding)) := item in
  let point_id_string := doc.(url) ++ lit "#" ++ str_of_int i in
  match uuid5 NAMESPACE_URL point_id_string with
  | None => raise (Exception "UnicodeEncodeError" point_id_string)
  | Some u =>
      let point_id := str_of_UUID u in
      let point :=
        {| id := point_id;
           vector := embedding;
           payload :=
             <["content"%string := PStr chunk]>
             (<["title"%string := PStr doc.(title)]>
             (<["source"%string := PStr doc.(source)]>
             (<["scraped_date"%string := PStr doc.(scraped_date)]>
             (<["type"%string := PStr doc.(type_)]>
             (<["url"%string := PStr doc.(url)]>
             (<["chunk_index"%string := PInt i]>
             (<["total_chunks"%string := PInt (len chunks)]>
             (<["original_id"%string := PStr point_id_string]> ∅)))))))) |} in
      modify (fun points => points ++ [point])
  end.

(** The [for] loop of [_upload_chunks_qdrant], from [points = []]. *)
Definition _upload_chunks_qdrant_points (doc : Document) (chunks : list pystr)
    (embeddings : list (list float)) : M (list Point) unit :=
  for_each (enumerate 0 (zip chunks embeddings))
    (_upload_chunks_qdrant_body doc chunks).

(** [QdrantManager._upload_chunks_qdrant] *)
Definition _upload_chunks_qdrant (doc : Document) (chunks : list pystr)
    (embeddings : list (list float)) : M State unit :=
  points ← (fun st =>
              match _upload_chunks_qdrant_points doc chunks embeddings [] with
              | (Ok _, points) => (Ok points, st)
              | (Raise e, _) => (Raise e, st)
              | (Diverge, _) => (Diverge, st)
              end);
  m ← self;
  try_except (call (client_upsert m.(collection_name) points))
             (fun e => raise e).

(** [QdrantManager.upload_chunks] *)
Definition upload_chunks (doc : Document) (chunks : list pystr)
    (embeddings : list (list float)) : M State unit :=
  if bool_decide (len chunks ≠ len embeddings) then ret tt
  else
    m ← self;
    if m.(use_local_storage) then _upload_chunks_local doc chunks embeddings
    else _upload_chunks_qdrant doc chunks embeddings.

(** [QdrantManager.save_local_storage]; creating the [data] directory
    leaves no trace in [files]. *)
Definition save_local_storage : M State unit :=
  m ← self;
  if m.(use_local_storage) && negb (is_empty m.(embeddings_data))
  then write_file m.(local_storage_file) m.(embeddings_data)
  else ret tt.

(** The [for i, doc in enumerate(documents, 1)] loop of [main], returning
    [total_chunks]. *)
Fixpoint process_documents (fuel : nat) (processor : Chunker.DocumentProcessor)
    (documents : list Document) (total_chunks : Z) : M State Z :=
  match documents with
  | [] => ret total_chunks
  | doc :: documents' =>
      match Chunker.chunk_text processor fuel doc.(content) None None with
      | None => fun st => (Diverge, st)
      | Some [] => process_documents fuel processor documents' total_chunks
      | Some chunks =>
          chunk_embeddings ← create_embeddings chunks;
          upload_chunks doc chunks chunk_embeddings ;;
          process_documents fuel processor documents' (total_chunks + len chunks)
      end
  end.

(** [main]. [data_file] is the parsed content of
    [data/scraped_disaster_prep_data.json], or [None] when the file does
    not exist; [fuel] bounds each run of the chunking loop. *)
Definition main (fuel : nat) (env : gmap string pystr)
    (data_file : option (list Document)) : M State unit :=
  match data_file with
  | None => ret tt
  | Some documents =>
      processor ← DocumentProcessor_init EMBEDDING_MODEL_NAME;
      QdrantManager_init env ;;
      create_collection ;;
      total_chunks ← process_documents fuel processor documents 0;
      print (10 :: lit "Processing completed!") ;;
      print (lit "Total documents processed: " ++ str_of_int (len documents)) ;;
      print (lit "Total chunks uploaded to Qdrant: " ++ str_of_int total_chunks) ;;
      print (lit "Collection name: " ++ VECTOR_COLLECTION_NAME)
  end.

End Pipeline.

End Ingest.

(** ** [app.py]: the query engine

    [logger] calls are left out; what [st.*] shows is kept as a list of
    events. String literals hold the code points of the source file. *)

Module App.

Definition QDRANT_COLLECTION : pystr := lit "disaster_prep".
Definition RETRIEVER_K : Z := 5.
Definition EMBEDDING_MODEL : pystr :=
  lit "sentence-transformers/all-MiniLM-L6-v2".

(** What an attribute of the application object can hold. *)
Inductive pyobj :=
| PyNone
| SentenceTransformerObj
| QdrantClientObj
| ChatGroqObj.

(** [bool(o)] *)
Definition truthy (o : pyobj) : bool :=
  match o with PyNone => false | _ => true end.

(** A search hit: the string entries of its payload, and its score. The
    payload values are strings, as the ingestion run writes them. *)
Record ScoredPoint := {
  sp_payload : gmap string pystr;
  sp_score : float
}.

(** An entry of [contexts]. *)
Record Context := {
  content : pystr;
  source : pystr;
  title : pystr;
  url : pystr;
  score : float
}.

(** One call of the Streamlit interface. *)
Inductive UiEvent :=
| st_spinner (text : pystr)
| st_success (body : pystr)
| st_error (body : pystr)
| st_warning (body : pystr)
| st_info (body : pystr)
| st_markdown (body : pystr)
| st_subheader (body : pystr)
| st_text (body : pystr)
| st_divider
| st_expander (label : pystr)
| st_columns (n : Z).

(** The collaborators outside the repository, with state [X]: the
    embedding model, the Qdrant client and the Groq chat model. [format_3f]
    is the format specification [:.3f] and [set_order] the order in which
    a [set] built from a list is iterated, both left to Python. *)
Class External (X : Type) := {
  SentenceTransformer : pystr -> X -> outcome unit * X;
  QdrantClient : pystr -> option pystr -> X -> outcome unit * X;
  ChatGroq : pystr -> pystr -> X -> outcome unit * X;
  model_encode : list pystr -> X -> outcome (list (list float)) * X;
  client_search : pystr -> list float -> Z -> X -> outcome (list ScoredPoint) * X;
  llm_invoke : pystr -> X -> outcome pystr * X;
  format_3f : float -> pystr;
  set_order : list pystr -> list pystr
}.

Section QueryEngine.

Context {X : Type} `{External X}.

(** The application object's [__dict__], the events shown so far and the
    outside services. *)
Record State := {
  attrs : gmap string pyobj;
  ui : list UiEvent;
  services : X
}.

(** [self.name = v] *)
Definition setattr (name : string) (v : pyobj) : M State unit :=
  modify (fun st => {| attrs := <[name := v]> st.(attrs);
                       ui := st.(ui);
                       services := st.(services) |}).

(** [self.name]: an attribute that was never assigned raises. *)
Definition getattr (name : string) : M State pyobj :=
  st ← get;
  match st.(attrs) !! name with
  | Some v => ret v
  | None => raise (Exception "AttributeError"
                     (lit "'DisasterRAGApp' object has no attribute '"
                        ++ lit name ++ lit "'"))
  end.

Definition show (e : UiEvent) : M State unit :=
  modify (fun st => {| attrs := st.(attrs);
                       ui := st.(ui) ++ [e];
                       services := st.(services) |}).

Definition call {A} (f : X -> outcome A * X) : M State A :=
  fun st =>
    let '(r, s') := f st.(services) in
    (r, {| attrs := st.(attrs); ui := st.(ui); services := s' |}).

Definition placeholder_key : pystr := lit "your_groq_api_key_here".

(** [DisasterRAGApp.setup_clients] *)
Definition setup_clients (env : gmap string pystr) : M State unit :=
  try_except
    (show (st_spinner (lit "Loading embedding model...")) ;;
     call (SentenceTransformer EMBEDDING_MODEL) ;;
     setattr "embedding_model" SentenceTransformerObj ;;
     let qdrant_url := default (lit "http://localhost:6333") (env !! "QDRANT_URL"%string) in
     let qdrant_api_key := env !! "QDRANT_API_KEY"%string in
     match qdrant_api_key with
     | Some ((_ :: _) as key) => call (QdrantClient qdrant_url (Some key))
     | _ => call (QdrantClient qdrant_url None)
     end ;;
     setattr "qdrant_client" QdrantClientObj ;;
     let groq_api_key := env !! "GROQ_API_KEY"%string in
     match groq_api_key with
     | Some ((_ :: _) as key) =>
         if bool_decide (key ≠ placeholder_key) then
           call (ChatGroq key (lit "llama3-8b-8192")) ;;
           setattr "llm" ChatGroqObj ;;
           show (st_success ([226; 339; 8230; 32]
                               ++ lit "Connected to Groq API successfully!"))
         else
           show (st_error ([226; 338; 32] ++ lit
             "Groq API key not found or invalid. Please check your .env file."))
     | _ =>
         show (st_error ([226; 338; 32] ++ lit
           "Groq API key not found or invalid. Please check your .env file."))
     end)
    (fun e =>
     show (st_error (lit "Error initializing clients: " ++ str_of_exn e))).

(** [DisasterRAGApp.__init__] *)
Definition DisasterRAGApp_init (env : gmap string pystr) : M State unit :=
  setattr "embedding_model" PyNone ;;
  setattr "qdrant_client" PyNone ;;
  setattr "groq_client" PyNone ;;
  setup_clients env.

(** A method call on an attribute value: [None] has no methods. *)
Definition method {A} (o : pyobj) (expected : pyobj) (name : string)
    (m : M State A) : M State A :=
  match o, expected with
  | SentenceTransformerObj, SentenceTransformerObj
  | QdrantClientObj, QdrantClientObj
  | ChatGroqObj, ChatGroqObj => m
  | _, _ => raise (Exception "AttributeError"
                     (lit "object has no attribute '" ++ lit name ++ lit "'"))
  end.

(** The [try] block of [retrieve_context]. *)
Definition retrieve_context_try (query : pystr) (k : Z)
  : M State (list Context) :=
  embedding_model ← getattr "embedding_model";
  encoded ← method embedding_model SentenceTransformerObj "encode"
              (call (model_encode [query]));
  query_embedding ←
    match encoded with
    | v :: _ => ret v
    | [] => raise (Exception "IndexError" (lit "index 0 is out of bounds"))
    end;
  qdrant_client ← getattr "qdrant_client";
  search_results ← method qdrant_client QdrantClientObj "search"
                     (call (client_search QDRANT_COLLECTION query_embedding k));
  let contexts :=
    map (fun result =>
           let payload := result.(sp_payload) in
           {| content := default [] (payload !! "content"%string);
              source := default [] (payload !! "source"%string);
              title := default [] (payload !! "title"%string);
              url := default [] (payload !! "url"%string);
              score := result.(sp_score) |}) search_results in
  ret contexts.

(** [DisasterRAGApp.retrieve_context] *)
Definition retrieve_context (query : pystr) (k : Z) : M State (list Context) :=
  try_except (retrieve_context_try query k)
    (fun e =>
     show (st_error (lit "Error retrieving context: " ++ str_of_exn e)) ;;
     ret []).

(** [sep.join(parts)] *)
Fixpoint join (sep : pystr) (parts : list pystr) : pystr :=
  match parts with
  | [] => []
  | [x] => x
  | x :: parts' => x ++ sep ++ join sep parts'
  end.

Definition dq : pystr := [34].

Definition not_configured : pystr :=
  lit "Groq API key not configured. Please set GROQ_API_KEY in your .env file.".

(** [DisasterRAGApp.generate_response] *)
Definition generate_response (query : pystr) (context : list Context)
  : M State pystr :=
  llm ← getattr "llm";
  if negb (truthy llm) then ret not_configured
  else
    let context_text :=
      join [10; 10]
        (map (fun ctx => lit "Source: " ++ ctx.(source) ++ 10 :: lit "Title: "
                ++ ctx.(title) ++ 10 :: lit "Content: "
                ++ slice ctx.(content) 0 500 ++ lit "...") context) in
    let prompt :=
      lit "You are a Disaster Preparedness & Response Assistant. Use ONLY context from FEMA, CDC, NOAA, Red Cross, WHO, UNDRR. If information is not found in the provided context, say "
        ++ dq ++ lit "I don't have that information from trusted sources." ++ dq
        ++ [10; 10] ++ lit "Context:" ++ [10] ++ context_text
        ++ [10; 10] ++ lit "Question: " ++ query
        ++ [10; 10] ++ lit "Answer:" in
    try_except
      (llm ← getattr "llm";
       method llm ChatGroqObj "invoke" (call (llm_invoke prompt)))
      (fun e => ret (lit "Error generating response: " ++ str_of_exn e)).

Definition no_information : pystr :=
  [240; 376; 732; 8226; 32] ++ lit
  "No relevant information found in the disaster preparedness database. Please try rephrasing your question or asking about general emergency preparedness topics.".

(** The body of [if query:] at module level (the query handling flow). *)
Definition answer_query (query : pystr) : M State unit :=
  show (st_spinner (lit "Searching for relevant information...")) ;;
  contexts ← retrieve_context query RETRIEVER_K;
  match contexts with
  | _ :: _ =>
      show (st_expander ([240; 376; 8220; 353; 32] ++ lit "Retrieved Context ("
                           ++ str_of_int (len contexts) ++ lit " sources)")) ;;
      for_each (enumerate 1 contexts) (fun '(i, ctx) =>
        show (st_markdown (lit "**Source " ++ str_of_int i ++ lit ": "
                ++ ctx.(source) ++ lit " - " ++ slice ctx.(title) 0 60
                ++ lit "...**")) ;;
        show (st_markdown (lit "*Relevance Score: " ++ format_3f ctx.(score)
                ++ lit "*")) ;;
        show (st_text (if 300 <? len ctx.(content)
                       then slice ctx.(content) 0 300 ++ lit "..."
                       else ctx.(content))) ;;
        show (st_markdown ([240; 376; 8221; 8212; 32] ++ lit "[Original Source]("
                ++ ctx.(url) ++ lit ")")) ;;
        show st_divider) ;;
      show (st_spinner (lit "Generating response...")) ;;
      response ← generate_response query contexts;
      show (st_subheader ([240; 376; 164; 8211; 32] ++ lit "AI-Assisted Answer")) ;;
      show (st_markdown response) ;;
      show (st_subheader ([240; 376; 8220; 8211; 32] ++ lit "Sources Referenced")) ;;
      let sources := set_order (map source contexts) in
      show (st_columns (if len sources <=? 4 then len sources else 4)) ;;
      for_each (enumerate 0 sources) (fun '(i, source) =>
        show (st_info ([240; 376; 8250; 239; 184; 32] ++ source)))
  | [] => show (st_warning no_information)
  end.

End QueryEngine.

End App.

(** ** The windows scanned by the chunking loop

    Names for the positions the loop visits, used to state what it
    guarantees. *)

Module Windows.

(** The window [text[start : start + chunk_size]]. *)
Definition window (text : pystr) (chunk_size start : Z) : pystr :=
  slice text start (start + chunk_size).

(** The values [start] takes at the head of the loop: from [start] in
    steps of [step] while below [n]. *)
Fixpoint window_starts (fuel : nat) (n step start : Z) : list Z :=
  match fuel with
  | O => []
  | S fuel' =>
      if start <? n then start :: window_starts fuel' n step (start + step)
      else []
  end.

(** A sentence terminator: [.], [!] or [?]. *)
Definition terminator (c : Z) : Prop :=
  c = Chunker.period \/ c = Chunker.exclaim \/ c = Chunker.question.

(** [L] is the offset of the last sentence terminator of [w]. *)
Definition last_terminator (w : pystr) (L : nat) : Prop :=
  (exists t, w !! L = Some t /\ terminator t)
  /\ forall (j : nat) t, (L < j)%nat -> w !! j = Some t -> ~ terminator t.

(** A float that is not below zero: its sign bit is clear, or it is a
    zero or not a number. *)
Definition not_negative (f : spec_float) : Prop :=
  match f with
  | S754_infinity s | S754_finite s _ _ => s = false
  | S754_zero _ | S754_nan => True
  end.

(** Concatenation that ignores the overlap regions: every window but the
    first loses its first [overlap] characters. *)
Definition glue (overlap : Z) (windows : list pystr) : pystr :=
  match windows with
  | [] => []
  | w :: ws => w ++ List.concat (map (drop (Z.to_nat overlap)) ws)
  end.

End Windows.

(** ** Inputs the properties are tried on *)

Module Fixtures.

(** Fifty letters. *)
Definition text_50 : pystr := repeat 97 50.

(** 180 letters. *)
Definition text_180 : pystr := repeat 97 180.

(** 600 characters: a sentence of 361 characters ending in a full stop,
    then 89 [b]s, then 150 [c]s. *)
Definition text_600 : pystr :=
  repeat 97 360 ++ [46] ++ repeat 98 89 ++ repeat 99 150.

End Fixtures.

(** ** Stand-ins for the outside services

    A small embedding model and Qdrant server to run the pipeline on: the
    model gives every text a one-number vector and can be set to fail at
    one call; the server can be switched off. *)

Module Sim.

Import Ingest.

Record Service := {
  reachable : bool;
  encode_fails_at : option nat;
  encode_calls : nat;
  collections : list (pystr * list Point)
}.

Definition unreachable {A} (s : Service) : outcome A * Service :=
  (Raise (Exception "ConnectionError" (lit "connection refused")), s).

Definition set_collections (c : list (pystr * list Point)) (s : Service)
  : Service :=
  {| reachable := s.(reachable);
     encode_fails_at := s.(encode_fails_at);
     encode_calls := s.(encode_calls);
     collections := c |}.

Definition same_name (name : pystr) (entry : pystr * list Point) : bool :=
  bool_decide (entry.1 = name).

Definition find_collection (name : pystr) (s : Service)
  : option (list Point) :=
  snd <$> List.find (same_name name) s.(collections).

Definition without (name : pystr) (s : Service) : list (pystr * list Point) :=
  List.filter (fun entry => negb (same_name name entry)) s.(collections).

#[global] Instance sim_external : External Service := {
  SentenceTransformer _ s := (Ok tt, s);
  model_encode texts s :=
    let s' := {| reachable := s.(reachable);
                 encode_fails_at := s.(encode_fails_at);
                 encode_calls := S s.(encode_calls);
                 collections := s.(collections) |} in
    if bool_decide (s.(encode_fails_at) = Some s.(encode_calls))
    then (Raise (Exception "RuntimeError" (lit "model unavailable")), s')
    else (Ok (map (fun t => [float_of_int (len t)]) texts), s');
  QdrantClient _ _ s := (Ok tt, s);
  client_get_collections s :=
    if s.(reachable) then (Ok (map fst s.(collections)), s)
    else unreachable s;
  client_delete_collection name s :=
    if s.(reachable) then (Ok tt, set_collections (without name s) s)
    else unreachable s;
  client_create_collection name _ s :=
    if s.(reachable)
    then (Ok tt, set_collections (without name s ++ [(name, [])]) s)
    else unreachable s;
  client_upsert name points s :=
    if s.(reachable) then
      match find_collection name s with
      | Some old =>
          let kept := List.filter
            (fun p => negb (bool_decide (p.(id) ∈ map id points))) old in
          (Ok tt, set_collections (without name s ++ [(name, kept ++ points)]) s)
      | None => (Raise (Exception "UnexpectedResponse" (lit "Not found")), s)
      end
    else unreachable s
}.

(** A server that is up, a server that is down, and a model that fails at
    its first call. *)
Definition online : Service :=
  {| reachable := true; encode_fails_at := None; encode_calls := 0;
     collections := [] |}.

Definition offline : Service :=
  {| reachable := false; encode_fails_at := None; encode_calls := 0;
     collections := [] |}.

Definition failing_model : Service :=
  {| reachable := true; encode_fails_at := Some 0%nat; encode_calls := 0;
     collections := [] |}.

(** The process before [main] runs: no manager yet, nothing written. *)
Definition start (s : Service) : State :=
  {| qdrant_manager := {| collection_name := [];
                          use_local_storage := false;
                          local_storage_file := [];
                          embeddings_data := [] |};
     services := s;
     files := ∅;
     stdout := [] |}.

(** Two documents of 60 letters each. *)
Definition doc_a : Document :=
  {| url := lit "https://x/1"; title := lit "Kit"; content := repeat 97 60;
     source := lit "FEMA"; scraped_date := lit "2024-01-01T00:00:00";
     type_ := lit "disaster_preparedness" |}.

Definition doc_b : Document :=
  {| url := lit "https://x/2"; title := lit "Plan"; content := repeat 98 60;
     source := lit "CDC"; scraped_date := lit "2024-01-01T00:00:00";
     type_ := lit "disaster_preparedness" |}.

End Sim.

(** ** Computations that write no file *)

Module Frame.

(** [m] leaves the files as they are, however it ends. *)
Definition keeps_files {R A : Type} (m : M (@Ingest.State R) A) : Prop :=
  forall st, (m st).2.(Ingest.files) = st.(Ingest.files).

End Frame.

(** ** Stand-ins for the services of the application

    A Qdrant client whose search either fails or returns fixed hits, and a
    chat model that answers with a fixed text. *)

Module AppSim.

Import App.

Record Service := {
  search_fails : bool;
  hits : list ScoredPoint;
  llm_calls : nat
}.

#[global] Instance sim_external : External Service := {
  SentenceTransformer _ s := (Ok tt, s);
  QdrantClient _ _ s := (Ok tt, s);
  ChatGroq _ _ s := (Ok tt, s);
  model_encode texts s := (Ok (map (fun t => [float_of_int (len t)]) texts), s);
  client_search _ _ k s :=
    if s.(search_fails)
    then (Raise (Exception "ConnectionError" (lit "connection refused")), s)
    else (Ok (take (Z.to_nat k) s.(hits)), s);
  llm_invoke _ s :=
    (Ok (lit "Store water."),
     {| search_fails := s.(search_fails); hits := s.(hits);
        llm_calls := S s.(llm_calls) |});
  format_3f _ := lit "0.000";
  set_order l := remove_dups l
}.

Definition broken_search : Service :=
  {| search_fails := true; hits := []; llm_calls := 0 |}.

Definition empty_store : Service :=
  {| search_fails := false; hits := []; llm_calls := 0 |}.

(** The process before the application object is built. *)
Definition start (s : Service) : State :=
  {| attrs := ∅; ui := []; services := s |}.

(** An environment with a Groq key, and the application built in it. *)
Definition env_with_key : gmap string pystr :=
  {[ "GROQ_API_KEY"%string := lit "gsk_live" ]}.

Definition app (s : Service) : State :=
  (DisasterRAGApp_init env_with_key (start s)).2.

Definition question : pystr := lit "what should be in a kit".

Definition one_context : list Context :=
  [{| content := lit "Store water."; source := lit "FEMA"; title := lit "Kit";
      url := lit "https://x/1"; score := 1%float |}].

End AppSim.

(** ** Computations that leave [llm] unassigned *)

Module Unset.

(** If the object has no attribute [llm] before [m], it has none after. *)
Definition keeps_llm_unset {X A : Type} (m : M (@App.State X) A) : Prop :=
  forall st, st.(App.attrs) !! "llm"%string = None ->
             (m st).2.(App.attrs) !! "llm"%string = None.

(** [GROQ_API_KEY] is missing, empty or still the placeholder. *)
Definition no_usable_key (env : gmap string pystr) : Prop :=
  env !! "GROQ_API_KEY"%string = None
  \/ env !! "GROQ_API_KEY"%string = Some []
  \/ env !! "GROQ_API_KEY"%string = Some App.placeholder_key.

End Unset.

(** ** Relations a computation keeps between the state before and after *)

Module Inv.

(** However [m] ends, the state it leaves is related to the one it found. *)
Definition respects {S A : Type} (Rel : S -> S -> Prop) (m : M S A) : Prop :=
  forall st, Rel st (m st).2.

(** [m] raises no [Exception]: what it raises is outside [Exception]. *)
Definition raises_no_Exception {S A : Type} (m : M S A) : Prop :=
  forall st e, (m st).1 = Raise e -> is_Exception e = false.

Section Ingest.

Context {R : Type}.

Definition with_services (s : R) (st : @Ingest.State R) : Ingest.State :=
  {| Ingest.qdrant_manager := st.(Ingest.qdrant_manager);
     Ingest.services := s;
     Ingest.files := st.(Ingest.files);
     Ingest.stdout := st.(Ingest.stdout) |}.

Definition with_manager (m : Ingest.QdrantManager) (st : @Ingest.State R)
  : Ingest.State :=
  {| Ingest.qdrant_manager := m;
     Ingest.services := st.(Ingest.services);
     Ingest.files := st.(Ingest.files);
     Ingest.stdout := st.(Ingest.stdout) |}.

(** Nothing was printed. *)
Definition same_stdout (st st' : @Ingest.State R) : Prop :=
  st'.(Ingest.stdout) = st.(Ingest.stdout).

(** The manager is in the same mode, with the same collection name and
    storage file. *)
Definition same_mode (m m' : Ingest.QdrantManager) : Prop :=
  m'.(Ingest.use_local_storage) = m.(Ingest.use_local_storage)
  /\ m'.(Ingest.collection_name) = m.(Ingest.collection_name)
  /\ m'.(Ingest.local_storage_file) = m.(Ingest.local_storage_file).

(** Same mode, and the buffer was only extended at its end; in remote mode
    it was not touched. *)
Definition buffer_grows (m m' : Ingest.QdrantManager) : Prop :=
  same_mode m m'
  /\ m.(Ingest.embeddings_data) `prefix_of` m'.(Ingest.embeddings_data)
  /\ (m.(Ingest.use_local_storage) = false ->
      m'.(Ingest.embeddings_data) = m.(Ingest.embeddings_data)).

(** A relation on managers as a relation on states. *)
Definition on_manager (P : Ingest.QdrantManager -> Ingest.QdrantManager -> Prop)
    (st st' : @Ingest.State R) : Prop :=
  P st.(Ingest.qdrant_manager) st'.(Ingest.qdrant_manager).

End Ingest.

(** The number of chunks [chunk_text] gives for each document, summed. *)
Definition chunk_total (processor : Chunker.DocumentProcessor) (fuel : nat)
    (documents : list Ingest.Document) : Z :=
  fold_right Z.add 0
    (map (fun doc =>
            len (default [] (Chunker.chunk_text processor fuel
                               doc.(Ingest.content) None None)))
         documents).

End Inv.

(** ** More states to run the pipeline on *)

Module Sim2.

Import Ingest.

(** A manager in local mode with an empty buffer, the server down. *)
Definition local_mode : @State Sim.Service :=
  {| qdrant_manager := {| collection_name := [];
                          use_local_storage := true;
                          local_storage_file := lit "data/embeddings_storage.json";
                          embeddings_data := [] |};
     services := Sim.offline;
     files := ∅;
     stdout := [] |}.

(** A manager in remote mode whose server has gone down since. *)
Definition remote_down : @State Sim.Service :=
  {| qdrant_manager := {| collection_name := VECTOR_COLLECTION_NAME;
                          use_local_storage := false;
                          local_storage_file := [];
                          embeddings_data := [] |};
     services := Sim.offline;
     files := ∅;
     stdout := [] |}.

Definition two_chunks : list pystr := [lit "first chunk"; lit "second chunk"].
Definition two_vectors : list (list float) := [[0%float]; [1%float]].

End Sim2.

(** ** Conditions on the application object *)

Module AppInv.

Section App.

Context {X : Type}.

Definition with_services (s : X) (st : @App.State X) : App.State :=
  {| App.attrs := st.(App.attrs); App.ui := st.(App.ui); App.services := s |}.

(** The events in [events] were shown after those of [st]. *)
Definition shown (events : list App.UiEvent) (st : @App.State X) : App.State :=
  {| App.attrs := st.(App.attrs);
     App.ui := st.(App.ui) ++ events;
     App.services := st.(App.services) |}.

(** No attribute was assigned. *)
Definition same_attrs (st st' : @App.State X) : Prop :=
  st'.(App.attrs) = st.(App.attrs).

(** [self.llm] holds a chat model. *)
Definition configured (st : @App.State X) : Prop :=
  st.(App.attrs) !! "llm"%string = Some App.ChatGroqObj.

(** From a state where [P] holds, [m] raises no [Exception] and leaves a
    state where [P] holds. *)
Definition safe {A : Type} (P : @App.State X -> Prop) (m : M (@App.State X) A)
  : Prop :=
  forall st, P st ->
    (forall e, (m st).1 = Raise e -> is_Exception e = false) /\ P (m st).2.

End App.

(** The part of the prompt a context contributes, at most. *)
Definition context_budget (context : list App.Context) : Z :=
  fold_right Z.add 0
    (map (fun ctx => len ctx.(App.source) + len ctx.(App.title) + 531) context).

End AppInv.

(** ** Services that fail

    The embedding model cannot be loaded when [model_loads] is off, and
    the chat model raises when [llm_down] is on. *)

Module AppDown.

Import App.

Record Service := {
  model_loads : bool;
  llm_down : bool;
  stored : list ScoredPoint
}.

#[global] Instance down_external : External Service := {
  SentenceTransformer _ s :=
    if s.(model_loads) then (Ok tt, s)
    else (Raise (Exception "OSError" (lit "model not found")), s);
  QdrantClient _ _ s := (Ok tt, s);
  ChatGroq _ _ s := (Ok tt, s);
  model_encode texts s := (Ok (map (fun t => [float_of_int (len t)]) texts), s);
  client_search _ _ k s := (Ok (take (Z.to_nat k) s.(stored)), s);
  llm_invoke _ s :=
    if s.(llm_down)
    then (Raise (Exception "APIError" (lit "rate limit")), s)
    else (Ok (lit "Store water."), s);
  format_3f _ := lit "0.000";
  set_order l := remove_dups l
}.

Definition no_model : Service :=
  {| model_loads := false; llm_down := false; stored := [] |}.

(** A stored point without a [title] and without a [url]. *)
Definition bare_hit : ScoredPoint :=
  {| sp_payload := {[ "content"%string := lit "Store water.";
                      "source"%string := lit "FEMA" ]};
     sp_score := 1%float |}.

Definition no_llm : Service :=
  {| model_loads := true; llm_down := true; stored := [bare_hit] |}.

Definition start (s : Service) : State :=
  {| attrs := ∅; ui := []; services := s |}.

Definition env_with_key : gmap string pystr :=
  {[ "GROQ_API_KEY"%string := lit "gsk_live" ]}.

(** The application built with a key. *)
Definition app (s : Service) : State :=
  (DisasterRAGApp_init env_with_key (start s)).2.

End AppDown.

(** ** [scraper.py]: collecting the documents

    [logger] calls are left out. The browser, the network, the HTML
    parser, the clock and the file system are outside the repository. *)

Module Scraper.

Import Ingest.

(** An entry of [self.sources]. *)
Record SourceConfig := {
  base_url : pystr;
  targets : list pystr
}.

(** [self.sources], in insertion order. *)
Definition sources : list (pystr * SourceConfig) :=
  [ (lit "FEMA",
     {| base_url := lit "https://www.fema.gov";
        targets := [ lit "/emergency-managers/practitioners/planning";
                     lit "/individuals-communities/emergency-preparedness";
                     lit "/disaster/how-to-prepare" ] |});
    (lit "Ready.gov",
     {| base_url := lit "https://www.ready.gov";
        targets := [ lit "/plan"; lit "/kit"; lit "/informed";
                     lit "/involved" ] |});
    (lit "CDC",
     {| base_url := lit "https://www.cdc.gov";
        targets := [ lit "/disasters/index.html";
                     lit "/disasters/hurricanes/index.html";
                     lit "/disasters/earthquakes/index.html";
                     lit "/disasters/floods/index.html" ] |});
    (lit "NOAA",
     {| base_url := lit "https://www.weather.gov";
        targets := [ lit "/safety"; lit "/wrn/force-preparedness";
                     lit "/safety/hurricane"; lit "/safety/tornado" ] |});
    (lit "Red Cross",
     {| base_url := lit "https://www.redcross.org";
        targets := [ lit "/get-help/how-to-prepare-for-emergencies";
                     lit "/get-help/disaster-relief-and-recovery-services";
                     lit "/about-us/our-work/disaster-relief" ] |});
    (lit "WHO",
     {| base_url := lit "https://www.who.int";
        targets := [ lit "/emergencies/diseases";
                     lit "/emergencies/surveillance";
                     lit "/emergencies/preparedness" ] |});
    (lit "UNDRR",
     {| base_url := lit "https://www.undrr.org";
        targets := [ lit "/building-resilience";
                     lit "/reducing-disaster-risk";
                     lit "/understanding-disaster-risk" ] |}) ].

(** [d.get(key)] on a dictionary kept in insertion order. *)
Fixpoint dict_get {V} (d : list (pystr * V)) (key : pystr) : option V :=
  match d with
  | [] => None
  | (k, v) :: d' => if decide (k = key) then Some v else dict_get d' key
  end.

(** [d[key] = d.get(key, 0) + 1]: a new key goes last. *)
Fixpoint dict_bump (d : list (pystr * Z)) (key : pystr) : list (pystr * Z) :=
  match d with
  | [] => [(key, 1)]
  | (k, n) :: d' =>
      if decide (k = key) then (k, n + 1) :: d' else (k, n) :: dict_bump d' key
  end.

(** [s.split()]: the maximal runs of characters that are not whitespace;
    [word] is the run being read. *)
Fixpoint split_from (s : pystr) (word : pystr) : list pystr :=
  match s with
  | [] => if is_empty word then [] else [word]
  | c :: s' =>
      if isspace c
      then (if is_empty word then split_from s' []
            else word :: split_from s' [])
      else split_from s' (word ++ [c])
  end.

Definition split (s : pystr) : list pystr := split_from s [].

(** [' '.join(content.split())] *)
Definition clean_up (content : pystr) : pystr := App.join [32] (split content).

(** The arguments added to [Options()]. *)
Definition chrome_arguments (headless : bool) : list pystr :=
  (if headless then [lit "--headless"] else [])
  ++ [ lit "--no-sandbox"; lit "--disable-dev-shm-usage"; lit "--disable-gpu";
       lit "--window-size=1920,1080";
       lit "--user-agent=Mozilla/5.0 (Windows NT 10.0; Win64; x64) AppleWebKit/537.36 (KHTML, like Gecko) Chrome/91.0.4472.124 Safari/537.36" ].

Definition removed_tags : list pystr :=
  [lit "script"; lit "style"; lit "nav"; lit "footer"; lit "header"].

Definition content_selectors : list pystr :=
  [ lit "main"; lit ".main-content"; lit ".content"; lit ".article";
    lit "article"; lit ".post"; lit ".page-content";
    lit "[role=" ++ [34] ++ lit "main" ++ [34] ++ lit "]" ].

(** What [requests.get] returns. *)
Record Response := {
  status_code : Z;
  text : pystr
}.

(** The collaborators outside the repository. [W] is the state of the
    world they act on (browser, network, clock, file system) and [Tag] a
    parsed HTML element. Each call may raise.
    - [ChromeDriverManager_install os_type]:
      [Service(ChromeDriverManager(os_type=...).install())];
    - [webdriver_Chrome args]: [webdriver.Chrome] with these options;
    - [wait_until_body t]: the [WebDriverWait] for the [body] element;
    - [requests_get url]: [requests.get] with the fixed headers and
      timeout;
    - [decompose_all names soup]: the soup after [decompose] of every
      element with one of these names;
    - [get_text_sep_strip]: [get_text(separator=' ', strip=True)];
    - [json_dump_to path data]: opening [path] for writing and
      [json.dump] of [data] into it. *)
Class External (W Tag : Type) := {
  ChromeDriverManager_install : option pystr -> W -> outcome unit * W;
  webdriver_Chrome : list pystr -> W -> outcome unit * W;
  driver_set_page_load_timeout : Z -> W -> outcome unit * W;
  driver_get : pystr -> W -> outcome unit * W;
  wait_until_body : Z -> W -> outcome unit * W;
  driver_page_source : W -> outcome pystr * W;
  driver_quit : W -> outcome unit * W;
  requests_get : pystr -> W -> outcome Response * W;
  raise_for_status : Response -> outcome unit;
  BeautifulSoup : pystr -> outcome Tag;
  decompose_all : list pystr -> Tag -> outcome Tag;
  find : pystr -> Tag -> outcome (option Tag);
  select_one : pystr -> Tag -> outcome (option Tag);
  get_text : Tag -> outcome pystr;
  get_text_sep_strip : Tag -> outcome pystr;
  datetime_now_isoformat : W -> outcome pystr * W;
  urljoin : pystr -> pystr -> outcome pystr;
  time_sleep : Z -> W -> outcome unit * W;
  os_makedirs : pystr -> W -> outcome unit * W;
  os_path_join : pystr -> pystr -> pystr;
  json_dump_to : pystr -> list Document -> W -> outcome unit * W
}.

(** [try: m  finally: final]: [final] runs however [m] ends, and an
    exception of [final] replaces the outcome of [m]. *)
Definition try_finally {S A} (m : M S A) (final : M S unit) : M S A :=
  fun st =>
    match m st with
    | (Diverge, st') => (Diverge, st')
    | (r, st') =>
        match final st' with
        | (Ok _, st'') => (r, st'')
        | (Raise e, st'') => (Raise e, st'')
        | (Diverge, st'') => (Diverge, st'')
        end
    end.

(** [for x in l: acc = body acc x], for a loop that builds a local value. *)
Fixpoint for_fold {S A B} (l : list A) (acc : B) (body : B -> A -> M S B)
  : M S B :=
  match l with
  | [] => ret acc
  | x :: l' => bind (body acc x) (fun acc' => for_fold l' acc' body)
  end.

(** The outcome of a call that does not touch the state. *)
Definition lift {S A} (r : outcome A) : M S A := fun st => (r, st).

Section Collector.

Context {W Tag : Type} `{External W Tag}.

(** The scraper object, the world outside and the lines printed.
    [driver] tells whether [self.driver] holds a WebDriver. *)
Record State := {
  headless : bool;
  driver : bool;
  scraped_data : list Document;
  world : W;
  stdout : list pystr
}.

Definition set_driver (d : bool) : M State unit :=
  modify (fun st => {| headless := st.(headless);
                       driver := d;
                       scraped_data := st.(scraped_data);
                       world := st.(world);
                       stdout := st.(stdout) |}).

(** [self.scraped_data.append(document)] *)
Definition append (document : Document) : M State unit :=
  modify (fun st => {| headless := st.(headless);
                       driver := st.(driver);
                       scraped_data := st.(scraped_data) ++ [document];
                       world := st.(world);
                       stdout := st.(stdout) |}).

Definition call {A} (f : W -> outcome A * W) : M State A :=
  fun st =>
    let '(r, w') := f st.(world) in
    (r, {| headless := st.(headless);
           driver := st.(driver);
           scraped_data := st.(scraped_data);
           world := w';
           stdout := st.(stdout) |}).

Definition print (line : pystr) : M State unit :=
  modify (fun st => {| headless := st.(headless);
                       driver := st.(driver);
                       scraped_data := st.(scraped_data);
                       world := st.(world);
                       stdout := st.(stdout) ++ [line] |}).

(** [DisasterPrepScraper.__init__] *)
Definition DisasterPrepScraper_init (headless : bool) : M State unit :=
  modify (fun st => {| headless := headless;
                       driver := false;
                       scraped_data := [];
                       world := st.(world);
                       stdout := st.(stdout) |}).

(** [DisasterPrepScraper.setup_driver] *)
Definition setup_driver : M State unit :=
  try_except
    (st ← get;
     let chrome_options := chrome_arguments st.(headless) in
     try_except_all (call (ChromeDriverManager_install (Some (lit "win64"))))
       (call (ChromeDriverManager_install None)) ;;
     call (webdriver_Chrome chrome_options) ;;
     set_driver true ;;
     call (driver_set_page_load_timeout 30))
    (fun e => set_driver false).

(** The loop over [content_selectors] in [parse_html]: the text of the
    first selector that matches, or the empty text. *)
Fixpoint select_content (selectors : list pystr) (soup : Tag)
  : M State pystr :=
  match selectors with
  | [] => ret []
  | selector :: selectors' =>
      content_elem ← lift (select_one selector soup);
      match content_elem with
      | Some elem => lift (get_text_sep_strip elem)
      | None => select_content selectors' soup
      end
  end.

(** [DisasterPrepScraper.parse_html] *)
Definition parse_html (html url source_name : pystr)
  : M State (option Document) :=
  try_except
    (soup ← lift (BeautifulSoup html);
     soup ← lift (decompose_all removed_tags soup);
     title ← lift (find (lit "title") soup);
     title_text ←
       match title with
       | Some t => text ← lift (get_text t); ret (strip text)
       | None => ret (lit "No title")
       end;
     content ← select_content content_selectors soup;
     content ←
       (if is_empty content then lift (get_text_sep_strip soup)
        else ret content);
     let content := clean_up content in
     if 200 <? len content then
       now ← call datetime_now_isoformat;
       let document :=
         {| url := url;
            title := title_text;
            content := content;
            source := source_name;
            scraped_date := now;
            type_ := lit "disaster_preparedness" |} in
       append document ;;
       ret (Some document)
     else ret None)
    (fun e => ret None).

(** [DisasterPrepScraper.scrape_url_selenium] *)
Definition scrape_url_selenium (url source_name : pystr)
  : M State (option Document) :=
  try_except
    (call (driver_get url) ;;
     call (wait_until_body 10) ;;
     html ← call driver_page_source;
     parse_html html url source_name)
    (fun e => ret None).

(** [DisasterPrepScraper.scrape_url_requests] *)
Definition scrape_url_requests (url source_name : pystr)
  : M State (option Document) :=
  try_except
    (response ← call (requests_get url);
     lift (raise_for_status response) ;;
     parse_html response.(text) url source_name)
    (fun e => ret None).

(** [DisasterPrepScraper.scrape_url] *)
Definition scrape_url (url source_name : pystr) : M State (option Document) :=
  st ← get;
  if st.(driver) then scrape_url_selenium url source_name
  else scrape_url_requests url source_name.

(** The body of the loop of [scrape_source]. [source_data] is a local
    list, so a document appended before [time.sleep] raises stays in it
    when the handler continues with the next target. *)
Definition scrape_target (base_url source_name : pystr)
    (source_data : list Document) (target_path : pystr)
  : M State (list Document) :=
  try_except
    (full_url ← lift (urljoin base_url target_path);
     document ← scrape_url full_url source_name;
     let source_data :=
       match document with
       | Some d => source_data ++ [d]
       | None => source_data
       end in
     try_except (call (time_sleep 2) ;; ret source_data)
       (fun e => ret source_data))
    (fun e => ret source_data).

(** [DisasterPrepScraper.scrape_source] *)
Definition scrape_source (source_name : pystr) : M State (list Document) :=
  match dict_get sources source_name with
  | None => ret []
  | Some source_config =>
      for_fold source_config.(targets) []
        (scrape_target source_config.(base_url) source_name)
  end.

(** [DisasterPrepScraper.scrape_all_sources] *)
Definition scrape_all_sources : M State unit :=
  try_finally
    (try_except
       (setup_driver ;;
        for_each (map fst sources) (fun source_name =>
          scrape_source source_name ;;
          call (time_sleep 3)))
       (fun e => ret tt))
    (st ← get;
     if st.(driver) then call driver_quit else ret tt).

(** [DisasterPrepScraper.save_data] *)
Definition save_data (output_file : pystr) : M State pystr :=
  call (os_makedirs (lit "data")) ;;
  let output_path := os_path_join (lit "data") output_file in
  st ← get;
  call (json_dump_to output_path st.(scraped_data)) ;;
  ret output_path.

(** The dictionary [sources_summary] that [main] builds. *)
Definition sources_summary (scraped_data : list Document)
  : list (pystr * Z) :=
  fold_left (fun summary doc => dict_bump summary doc.(source))
    scraped_data [].

(** [main] *)
Definition main : M State unit :=
  DisasterPrepScraper_init true ;;
  try_except
    (scrape_all_sources ;;
     output_file ← save_data (lit "scraped_disaster_prep_data.json");
     print (lit "Scraping completed! Data saved to: " ++ output_file) ;;
     st ← get;
     print (lit "Total documents scraped: "
              ++ str_of_int (len st.(scraped_data))) ;;
     print (10 :: lit "Documents by source:") ;;
     for_each (sources_summary st.(scraped_data)) (fun '(source, count) =>
       print (lit "  " ++ source ++ lit ": " ++ str_of_int count
                ++ lit " documents")))
    (fun e => print (lit "Scraping failed: " ++ str_of_exn e)).

End Collector.

End Scraper.

(** ** Conditions on scraped text and documents *)

Module ScraperInv.

Import Scraper.

(** A word: not empty and without whitespace. *)
Definition word (w : pystr) : Prop :=
  w <> [] /\ Forall (fun c => isspace c = false) w.

(** No two whitespace characters in a row. *)
Fixpoint spaced (t : pystr) : bool :=
  match t with
  | a :: t' =>
      match t' with
      | b :: _ => negb (isspace a && isspace b) && spaced t'
      | [] => true
      end
  | [] => true
  end.

(** The number of documents of [docs] whose source is [name]. *)
Definition count_source (name : pystr) (docs : list Ingest.Document) : Z :=
  len (List.filter (fun doc => bool_decide (doc.(Ingest.source) = name)) docs).


(** The characters of [t] that are not whitespace, in order. *)
Definition letters (t : pystr) : pystr :=
  List.filter (fun c => negb (isspace c)) t.

(** When [m] returns [a] from [st] in [st'], [Q a st st'] holds, and when
    it raises [e], [E e st st'] holds. *)
Definition spec {S A : Type} (Q : A -> S -> S -> Prop)
    (E : exn -> S -> S -> Prop) (m : M S A) : Prop :=
  forall st,
    match m st with
    | (Ok a, st') => Q a st st'
    | (Raise e, st') => E e st st'
    | (Diverge, _) => True
    end.

(** [m] raises no [Exception]: when it returns [a] from [st] in [st'],
    [Q a st st'] holds, and when an exception outside [Exception] passes,
    [F st st'] holds. *)
Definition catches {S A : Type} (Q : A -> S -> S -> Prop)
    (F : S -> S -> Prop) (m : M S A) : Prop :=
  spec Q (fun e st st' => is_Exception e = false /\ F st st') m.

(** What [parse_html] stores for the page of [source_name] at [url]. *)
Definition page_of (url source_name : pystr) (doc : Ingest.Document) : Prop :=
  doc.(Ingest.url) = url
  /\ doc.(Ingest.source) = source_name
  /\ 200 < len doc.(Ingest.content)
  /\ clean_up doc.(Ingest.content) = doc.(Ingest.content)
  /\ doc.(Ingest.type_) = lit "disaster_preparedness".

Section Collector.

Context {W Tag : Type} `{External W Tag}.

(** The documents [new] were appended to [scraped_data]; [headless] and
    the lines printed are as they were. *)
Definition collects (new : list Ingest.Document) (st st' : @State W) : Prop :=
  st'.(headless) = st.(headless)
  /\ st'.(stdout) = st.(stdout)
  /\ st'.(scraped_data) = st.(scraped_data) ++ new.

(** What [parse_html] and its three callers promise. *)
Definition page_spec (url source_name : pystr)
  : option Ingest.Document -> @State W -> @State W -> Prop :=
  fun r st st' =>
    match r with
    | Some doc => collects [doc] st st' /\ page_of url source_name doc
    | None => collects [] st st'
    end.

(** [doc] is the page of a target of the configured source [name]. *)
Definition from_source (name : pystr) (doc : Ingest.Document) : Prop :=
  exists source_config target_path full_url,
    dict_get sources name = Some source_config
    /\ In target_path source_config.(targets)
    /\ urljoin source_config.(base_url) target_path = Ok full_url
    /\ page_of full_url name doc.

(** [doc] is the page of a target of one of the configured sources. *)
Definition stored (doc : Ingest.Document) : Prop :=
  exists name, from_source name doc.

(** Pages of the configured sources were appended to [scraped_data]. *)
Definition gathers (st st' : @State W) : Prop :=
  exists new, collects new st st' /\ Forall stored new.

End Collector.

End ScraperInv.

(** ** [setup.py]: the setup menu

    The shell, the interpreter, the environment, the network and the
    terminal are outside the repository. *)

Module Setup.

Definition cls_of (e : exn) : string := let 'Exception cls _ := e in cls.

(** [try: m  except cls as e: handler e]: exceptions of other classes
    pass through. *)
Definition try_except_class {S A} (cls : string) (m : M S A)
    (handler : exn -> M S A) : M S A :=
  fun st =>
    match m st with
    | (Raise e, st') =>
        if decide (cls_of e = cls) then handler e st' else (Raise e, st')
    | r => r
    end.

(** [try: m  except cls as e: first e  except Exception as e: second e] *)
Definition try_except_class_then {S A} (cls : string) (m : M S A)
    (first second : exn -> M S A) : M S A :=
  fun st =>
    match m st with
    | (Raise e, st') =>
        if decide (cls_of e = cls) then first e st'
        else if is_Exception e then second e st'
        else (Raise e, st')
    | r => r
    end.

(** The collaborators outside the repository, acting on a world [W].
    - [subprocess_run command capture]: [subprocess.run] with
      [shell=True, check=True], and with [capture_output=True, text=True]
      when [capture] is set; it gives [result.stdout] or raises, a failed
      command raising [CalledProcessError], whose [stdout] and [stderr]
      are [error_stdout] and [error_stderr];
    - [version_info]: the first two components of [sys.version_info];
    - [requests_get url timeout]: the status code of the answer;
    - [json_load_len path]: [len] of the JSON value read from [path];
    - [input prompt]: the line read from the terminal. *)
Class External (W : Type) := {
  subprocess_run : pystr -> bool -> W -> outcome pystr * W;
  error_stdout : exn -> pystr;
  error_stderr : exn -> pystr;
  version_info : Z * Z;
  sys_version : pystr;
  os_path_exists : pystr -> W -> outcome bool * W;
  load_dotenv : W -> outcome unit * W;
  os_getenv : pystr -> W -> outcome (option pystr) * W;
  import_requests : W -> outcome unit * W;
  requests_get : pystr -> Z -> W -> outcome Z * W;
  time_sleep : Z -> W -> outcome unit * W;
  json_load_len : pystr -> W -> outcome Z * W;
  input : pystr -> W -> outcome pystr * W
}.

(** The shell commands of the script. *)
Definition pip_install : pystr := lit "pip install -r requirements.txt".
Definition docker_run : pystr :=
  lit "docker run -d -p 6333:6333 --name qdrant-disaster-prep qdrant/qdrant".
Definition python_scraper : pystr := lit "python scraper.py".
Definition python_process_embeddings : pystr :=
  lit "python process_embeddings.py".
Definition streamlit_run : pystr := lit "streamlit run app.py".

Definition collections_url : pystr := lit "http://localhost:6333/collections".
Definition data_file : pystr := lit "data/scraped_disaster_prep_data.json".

(** The symbols that open the printed lines. *)
Definition arrows : pystr := [128260].
Definition check_mark : pystr := [9989].
Definition cross_mark : pystr := [10060].
Definition magnifier : pystr := [128269].
Definition warning_sign : pystr := [9888; 65039].

(** [a < b] on pairs, as Python compares tuples. *)
Definition tuple_lt (a b : Z * Z) : bool :=
  (a.1 <? b.1) || ((a.1 =? b.1) && (a.2 <? b.2)).

Section Menu.

Context {W : Type} `{External W}.

(** The world outside, the lines printed and the shell commands run so
    far, each with whether it returned normally. *)
Record State := {
  world : W;
  stdout : list pystr;
  commands : list (pystr * bool)
}.

Definition call {A} (f : W -> outcome A * W) : M State A :=
  fun st =>
    let '(r, w') := f st.(world) in
    (r, {| world := w'; stdout := st.(stdout); commands := st.(commands) |}).

Definition print (line : pystr) : M State unit :=
  modify (fun st => {| world := st.(world);
                       stdout := st.(stdout) ++ [line];
                       commands := st.(commands) |}).

(** [subprocess.run(command, ...)], recorded in [commands]. *)
Definition shell (command : pystr) (capture : bool) : M State pystr :=
  fun st =>
    let '(r, w') := subprocess_run command capture st.(world) in
    (r, {| world := w';
           stdout := st.(stdout);
           commands := st.(commands)
                       ++ [(command, match r with Ok _ => true | _ => false end)] |}).

(** [run_command] *)
Definition run_command (command description : pystr) : M State (option pystr) :=
  print (10 :: arrows ++ lit " " ++ description ++ lit "...") ;;
  try_except_class "CalledProcessError"
    (result ← shell command true;
     print (check_mark ++ lit " " ++ description
              ++ lit " completed successfully") ;;
     ret (Some result))
    (fun e =>
     print (cross_mark ++ lit " Error in " ++ description ++ lit ": "
              ++ str_of_exn e) ;;
     print (lit "Output: " ++ error_stdout e) ;;
     print (lit "Error: " ++ error_stderr e) ;;
     ret None).

(** [check_requirements] *)
Definition check_requirements : M State bool :=
  print (magnifier ++ lit " Checking requirements...") ;;
  if tuple_lt version_info (3, 8) then
    print (cross_mark ++ lit " Python 3.8+ is required") ;;
    ret false
  else
    version ←
      match Scraper.split sys_version with
      | v :: _ => ret v
      | [] => raise (Exception "IndexError" (lit "list index out of range"))
      end;
    print (check_mark ++ lit " Python version: " ++ version) ;;
    env_exists ← call (os_path_exists (lit ".env"));
    if negb env_exists then
      print (warning_sign ++ lit "  .env file not found. Please copy .env.example to .env and configure your API keys") ;;
      ret false
    else
      call load_dotenv ;;
      groq_key ← call (os_getenv (lit "GROQ_API_KEY"));
      match groq_key with
      | Some (_ :: _) =>
          print (check_mark ++ lit " Environment variables configured") ;;
          ret true
      | _ =>
          print (warning_sign ++ lit "  GROQ_API_KEY not found in .env file") ;;
          ret false
      end.

(** [install_dependencies] *)
Definition install_dependencies : M State (option pystr) :=
  run_command pip_install (lit "Installing dependencies").

(** A probe of [check_qdrant]: the body of one of its [try] blocks up to
    the test of the status code, with the bare [except: pass]. [imported]
    tells whether the local name [requests] is bound; when it is not,
    [requests.get] raises and the handler passes. *)
Definition probe (imported : bool) (timeout : Z) : M State bool :=
  if imported then
    try_except_all
      (status_code ← call (requests_get collections_url timeout);
       ret (status_code =? 200))
      (ret false)
  else ret false.

(** The end of [check_qdrant], reached when no probe succeeded. *)
Definition could_not_start : M State bool :=
  print (cross_mark ++ lit " Could not start Qdrant. Please install Docker or run Qdrant manually") ;;
  print (lit "   Docker: docker run -p 6333:6333 qdrant/qdrant") ;;
  print (lit "   Manual: Download from https://github.com/qdrant/qdrant/releases") ;;
  ret false.

(** [check_qdrant] *)
Definition check_qdrant : M State bool :=
  print (10 :: magnifier ++ lit " Checking Qdrant connection...") ;;
  imported ← try_except_all (call import_requests ;; ret true)
               (ret false : M State bool);
  running ← (probe imported 5 : M State bool);
  if (running : bool) then
    print (check_mark ++ lit " Qdrant is running") ;;
    ret true
  else
    print (warning_sign ++ lit "  Qdrant not detected. Starting local Qdrant instance...") ;;
    docker_result ← run_command docker_run (lit "Starting Qdrant with Docker");
    match docker_result with
    | Some _ =>
        print ([9203] ++ lit " Waiting for Qdrant to start...") ;;
        call (time_sleep 10) ;;
        started ← (probe imported 10 : M State bool);
        if (started : bool) then
          print (check_mark ++ lit " Qdrant started successfully") ;;
          ret true
        else could_not_start
    | None => could_not_start
    end.

(** [run_scraper] *)
Definition run_scraper : M State bool :=
  print (10 :: [128375; 65039] ++ lit " Starting web scraping...") ;;
  result ← run_command python_scraper (lit "Web scraping from trusted sources");
  let failed :=
    print (cross_mark ++ lit " Web scraping failed") ;;
    ret false in
  match result with
  | Some _ =>
      data_exists ← call (os_path_exists data_file);
      if (data_exists : bool) then
        n ← call (json_load_len data_file);
        print (check_mark ++ lit " Scraped " ++ str_of_int n
                 ++ lit " documents") ;;
        ret true
      else failed
  | None => failed
  end.

(** [run_embedding_processing] *)
Definition run_embedding_processing : M State bool :=
  print (10 :: [129504] ++ lit " Processing documents and creating embeddings...") ;;
  result ← run_command python_process_embeddings
             (lit "Creating embeddings and uploading to Qdrant");
  match result with
  | Some _ =>
      print (check_mark ++ lit " Embedding processing completed") ;;
      ret true
  | None =>
      print (cross_mark ++ lit " Embedding processing failed") ;;
      ret false
  end.

(** [start_app]: [KeyboardInterrupt] has its own handler, before the one
    for [Exception]. *)
Definition start_app : M State unit :=
  print (10 :: [128640] ++ lit " Starting Streamlit application...") ;;
  print (lit "   The app will open in your web browser at http://localhost:8501") ;;
  print (lit "   Press Ctrl+C to stop the application") ;;
  try_except_class_then "KeyboardInterrupt"
    (shell streamlit_run false ;; ret tt)
    (fun e => print (10 :: [128075] ++ lit " Application stopped"))
    (fun e => print (cross_mark ++ lit " Error starting application: "
                       ++ str_of_exn e)).

(** [main] *)
Definition main : M State unit :=
  print ([128680] ++ lit " Disaster Preparedness RAG Pipeline Setup") ;;
  print (repeat 61 50) ;;
  requirements ← check_requirements;
  if negb requirements then
    print (10 :: cross_mark ++ lit " Requirements check failed. Please fix the issues above and try again.")
  else
    installed ← install_dependencies;
    match installed with
    | None => print (10 :: cross_mark ++ lit " Failed to install dependencies")
    | Some _ =>
        qdrant ← check_qdrant;
        if negb qdrant then
          print (10 :: cross_mark ++ lit " Qdrant setup failed")
        else
          print (10 :: [128203] ++ lit " Setup Options:") ;;
          print (lit "1. Full setup (scrape data + create embeddings + start app)") ;;
          print (lit "2. Skip scraping (use existing data + create embeddings + start app)") ;;
          print (lit "3. Skip data processing (start app only)") ;;
          print (lit "4. Run scraper only") ;;
          print (lit "5. Run embedding processing only") ;;
          answer ← call (input (10 :: lit "Enter your choice (1-5): "));
          let choice := strip answer in
          if decide (choice = lit "1") then
            scraped ← run_scraper;
            if (scraped : bool) then
              processed ← run_embedding_processing;
              if (processed : bool) then
                call (input (10 :: check_mark ++ lit " Setup completed! Press Enter to start the application...")) ;;
                start_app
              else ret tt
            else ret tt
          else if decide (choice = lit "2") then
            data_exists ← call (os_path_exists data_file);
            if negb data_exists then
              print (cross_mark ++ lit " No existing data found. Please run option 1 or 4 first.")
            else
              processed ← run_embedding_processing;
              if (processed : bool) then
                call (input (10 :: check_mark ++ lit " Processing completed! Press Enter to start the application...")) ;;
                start_app
              else ret tt
          else if decide (choice = lit "3") then
            print (lit "Starting application directly...") ;;
            start_app
          else if decide (choice = lit "4") then
            run_scraper ;; ret tt
          else if decide (choice = lit "5") then
            run_embedding_processing ;; ret tt
          else print (cross_mark ++ lit " Invalid choice")
    end.

End Menu.

End Setup.

(** ** What the setup menu runs *)

Module SetupInv.

Import Setup.

(** The order in which the script can run its commands. *)
Definition pipeline : list pystr :=
  [pip_install; docker_run; python_scraper; python_process_embeddings;
   streamlit_run].

(** Between [st] and [st'] exactly the commands [new] were run. *)
Definition ran {W : Type} (new : list (pystr * bool)) (st st' : @State W)
  : Prop :=
  st'.(commands) = st.(commands) ++ new.

(** The commands run are in the order of the pipeline; [pip install]
    comes first and nothing follows it when it fails; the application is
    started last, and only when every command before it returned
    normally. *)
Definition gated (new : list (pystr * bool)) : Prop :=
  map fst new `sublist_of` pipeline
  /\ (new = []
      \/ exists b rest,
           new = (pip_install, b) :: rest /\ (b = false -> rest = []))
  /\ (forall b, In (streamlit_run, b) new ->
        exists before,
          new = before ++ [(streamlit_run, b)]
          /\ Forall (fun c => c.2 = true) before).

(** What a computation returned, if it did. *)
Definition returned {A} (r : outcome A) : option A :=
  match r with Ok a => Some a | _ => None end.

(** From any state, [m] runs commands [l] and ends in a way [r] with
    [Q r l]. *)
Definition logs {W A : Type} (Q : option A -> list (pystr * bool) -> Prop)
    (m : M (@State W) A) : Prop :=
  forall st, exists l, ran l st (m st).2 /\ Q (returned (m st).1) l.

End SetupInv.

(** ** A machine on which the setup succeeds

    Python 3.11, a [.env] file with a key, Qdrant already running, and a
    user who chooses to start the application only. *)

Module SetupSim.

Import Setup.

#[global] Instance sim_external : External unit := {
  subprocess_run _ _ w := (Ok (lit "done"), w);
  error_stdout _ := [];
  error_stderr _ := [];
  version_info := (3, 11);
  sys_version := lit "3.11.4 (main, Jun  7 2023) [GCC 12.2.0]";
  os_path_exists _ w := (Ok true, w);
  load_dotenv w := (Ok tt, w);
  os_getenv _ w := (Ok (Some (lit "gsk_live")), w);
  import_requests w := (Ok tt, w);
  requests_get _ _ w := (Ok 200, w);
  time_sleep _ w := (Ok tt, w);
  json_load_len _ w := (Ok 3, w);
  input _ w := (Ok (lit " 3 "), w)
}.

Definition start : State := {| world := tt; stdout := []; commands := [] |}.

End SetupSim.

(** * Properties *)

(** ** The Python primitives on examples *)

Example slice_examples :
  slice (lit "abcdef") 1 4 = lit "bcd" /\ slice (lit "abcdef") 4 100 = lit "ef"
  /\ slice (lit "abcdef") (-2) 100 = lit "ef" /\ slice (lit "abcdef") 3 2 = [].
Proof. repeat split; reflexivity. Qed.

Example strip_rfind_examples :
  strip (lit "  a b  ") = lit "a b" /\ rfind (lit "a.b.c") 46 = 3
  /\ rfind (lit "abc") 46 = -1.
Proof. repeat split; reflexivity. Qed.

(** [500 * 0.7] is exactly [350.0], but [90 * 0.7] rounds below 63. *)
Example threshold_examples :
  int_gt_float 350 (float_of_int 500 * f0_7)%float = false
  /\ int_gt_float 351 (float_of_int 500 * f0_7)%float = true
  /\ int_gt_float 63 (float_of_int 90 * f0_7)%float = true.
Proof. repeat split; vm_compute; reflexivity. Qed.

Example str_of_int_examples :
  str_of_int 0 = lit "0" /\ str_of_int 10 = lit "10"
  /\ str_of_int 1234 = lit "1234" /\ str_of_int 99 = lit "99".
Proof. repeat split; reflexivity. Qed.

Example sha1_abc :
  Uuid.hex 40 (Uuid.from_bytes (Uuid.sha1 (lit "abc")))
  = lit "a9993e364706816aba3e25717850c26c9cd0d89d"
  /\ Uuid.hex 40 (Uuid.from_bytes (Uuid.sha1 (repeat 97 100)))
  = lit "7f9000257a4918d7072655ea468540cdcbd42e0c".
Proof. split; vm_compute; reflexivity. Qed.

Example uuid5_examples :
  Uuid.str_of_UUID <$> Uuid.uuid5 Uuid.NAMESPACE_DNS (lit "python.org")
  = Some (lit "886313e1-3b8a-5372-9b90-0c9aee199e5d")
  /\ Uuid.str_of_UUID <$> Uuid.uuid5 Uuid.NAMESPACE_URL (lit "https://x/1#0")
  = Some (lit "2965dbd8-9e44-51c8-9896-fba3246b73b4")
  /\ Uuid.str_of_UUID <$> Uuid.uuid5 Uuid.NAMESPACE_URL (lit "https://x/" ++ [233] ++ lit "#10")
  = Some (lit "ac0b4feb-b716-59a8-93cb-e6a26274137b").
Proof. repeat split; vm_compute; reflexivity. Qed.

(** ** Facts about slices and [strip] *)

Section PyFacts.

Lemma len_nonneg {A} (s : list A) : 0 <= len s.
Proof. unfold len. lia. Qed.

Lemma len_app {A} (s t : list A) : len (s ++ t) = len s + len t.
Proof. unfold len. rewrite length_app. lia. Qed.

(** With bounds that are not negative a slice is a [take] of a [drop]. *)
Lemma slice_nonneg {A} (s : list A) (lo hi : Z) :
  0 <= lo -> 0 <= hi ->
  slice s lo hi = take (Z.to_nat hi - Z.to_nat lo) (drop (Z.to_nat lo) s).
Proof.
  intros Hlo Hhi. unfold slice, clip, len.
  destruct (Z.ltb_spec lo 0); [lia|]. destruct (Z.ltb_spec hi 0); [lia|].
  destruct (Z_le_gt_dec (Z.of_nat (length s)) lo) as [Hge|Hlt].
  - rewrite !drop_ge by lia. by rewrite !take_nil.
  - rewrite (Z.min_l lo) by lia.
    destruct (Z_le_gt_dec (Z.of_nat (length s)) hi) as [Hge'|Hlt'].
    + rewrite Z.min_r by lia.
      rewrite !take_ge; [done| |]; rewrite length_drop; lia.
    + rewrite Z.min_l by lia. f_equal. lia.
Qed.

Lemma len_slice {A} (s : list A) (lo hi : Z) :
  0 <= lo -> 0 <= hi ->
  len (slice s lo hi) = Z.max 0 (Z.min hi (len s) - Z.min lo (len s)).
Proof.
  intros Hlo Hhi. rewrite slice_nonneg by done. unfold len.
  rewrite length_take, length_drop. lia.
Qed.

Lemma slice_all {A} (s : list A) (hi : Z) :
  len s <= hi -> slice s 0 hi = s.
Proof.
  intros Hhi. pose proof (len_nonneg s).
  rewrite slice_nonneg by lia. simpl. rewrite drop_0.
  apply take_ge. unfold len in *. lia.
Qed.

Lemma lstrip_suffix (s : pystr) : exists p, s = p ++ lstrip s.
Proof.
  induction s as [|c s [p IH]]; [by exists []|]. simpl.
  destruct (isspace c); [|by exists []].
  exists (c :: p). simpl. by f_equal.
Qed.

Lemma lstrip_head (s : pystr) c t : lstrip s = c :: t -> isspace c = false.
Proof.
  induction s as [|x s IH]; [done|]. simpl.
  destruct (isspace x) eqn:Hx; [done|]. intros [= <- _]. done.
Qed.

Lemma lstrip_fixed (s : pystr) :
  match s with c :: _ => isspace c = false | [] => True end -> lstrip s = s.
Proof. destruct s as [|c s]; [done|]. simpl. by intros ->. Qed.

Lemma lstrip_idem (s : pystr) : lstrip (lstrip s) = lstrip s.
Proof.
  apply lstrip_fixed. destruct (lstrip s) as [|c t] eqn:E; [done|].
  by apply lstrip_head in E.
Qed.

Lemma length_lstrip (s : pystr) : (length (lstrip s) <= length s)%nat.
Proof.
  destruct (lstrip_suffix s) as [p Hp]. rewrite Hp at 2.
  rewrite length_app. lia.
Qed.

Lemma len_strip_le (s : pystr) : len (strip s) <= len s.
Proof.
  unfold strip, rstrip, len. rewrite length_rev.
  pose proof (length_lstrip (rev (lstrip s))) as H1.
  rewrite length_rev in H1. pose proof (length_lstrip s). lia.
Qed.

(** [strip] leaves a stripped string as it is. *)
Lemma strip_idem (s : pystr) : strip (strip s) = strip s.
Proof.
  unfold strip, rstrip.
  set (t := lstrip s). set (u := lstrip (rev t)).
  assert (Hfix : lstrip (rev u) = rev u).
  { apply lstrip_fixed. destruct (rev u) as [|c r] eqn:E; [done|].
    destruct (lstrip_suffix (rev t)) as [p Hp]. fold u in Hp.
    assert (Ht : t = (c :: r) ++ rev p).
    { rewrite <- E, <- rev_app_distr, <- Hp. by rewrite rev_involutive. }
    apply (lstrip_head s c (r ++ rev p)). exact Ht. }
  rewrite Hfix, rev_involutive. unfold u. by rewrite lstrip_idem.
Qed.

Lemma strip_nil : strip [] = [].
Proof. reflexivity. Qed.

End PyFacts.

(** ** The chunking loop *)

Section ChunkerFacts.

Import Chunker Windows.

Variables (text : pystr) (chunk_size overlap : Z).
Hypothesis valid : 0 <= overlap < chunk_size.

Let step := chunk_size - overlap.

(** The loop visits the window starts in order and appends one stripped
    chunk per window; one unit of fuel per character left is enough. *)
Lemma chunk_loop_windows (fuel : nat) (start : Z) (acc : list pystr) :
  (0 < fuel)%nat -> len text - start < Z.of_nat fuel ->
  chunk_loop fuel text chunk_size overlap start acc
  = Some (acc ++ map (fun s => strip (raw_chunk text chunk_size s))
                     (window_starts fuel (len text) step start)).
Proof using valid.
  revert start acc. induction fuel as [|fuel IH]; intros start acc Hpos Hfuel;
    [lia|].
  simpl. destruct (Z.ltb_spec start (len text)) as [Hlt|Hge].
  - replace (start + chunk_size - overlap) with (start + step)
      by (unfold step; lia).
    destruct (Z.leb_spec (len text) (start + step)) as [Hend|Hmore].
    + destruct fuel as [|fuel']; simpl; [done|].
      destruct (Z.ltb_spec (start + step) (len text)); [lia|done].
    + rewrite IH by (unfold step in *; lia).
      by rewrite <- app_assoc.
  - by rewrite app_nil_r.
Qed.

(** More fuel than needed changes nothing. *)
Lemma window_starts_fuel (fuel fuel' : nat) (start : Z) :
  len text - start < Z.of_nat fuel -> len text - start < Z.of_nat fuel' ->
  window_starts fuel (len text) step start
  = window_starts fuel' (len text) step start.
Proof using valid.
  revert fuel' start. induction fuel as [|fuel IH]; intros fuel' start H1 H2.
  - destruct fuel' as [|fuel']; [done|]. simpl.
    destruct (Z.ltb_spec start (len text)); [lia|done].
  - simpl. destruct (Z.ltb_spec start (len text)) as [Hlt|Hge].
    + destruct fuel' as [|fuel']; [lia|]. simpl.
      destruct (Z.ltb_spec start (len text)); [|lia].
      f_equal. apply IH; unfold step; lia.
    + destruct fuel' as [|fuel']; [done|]. simpl.
      destruct (Z.ltb_spec start (len text)); [lia|done].
Qed.

(** The k-th window starts at [start + k * step], below the end of the
    text. *)
Lemma window_starts_lookup (fuel : nat) (start : Z) (k : nat) (s : Z) :
  window_starts fuel (len text) step start !! k = Some s ->
  s = start + Z.of_nat k * step /\ s < len text.
Proof.
  revert start k. induction fuel as [|fuel IH]; intros start k; [done|].
  simpl. destruct (Z.ltb_spec start (len text)) as [Hlt|Hge]; [|done].
  destruct k as [|k]; simpl.
  - intros [= <-]. lia.
  - intros Hk. apply IH in Hk. lia.
Qed.

(** Every position from [start] on lies in the first [step] characters of
    some window. *)
Lemma window_starts_cover (fuel : nat) (start i : Z) :
  len text - start < Z.of_nat fuel -> start <= i < len text ->
  exists s, s ∈ window_starts fuel (len text) step start /\ s <= i < s + step.
Proof using valid.
  revert start. induction fuel as [|fuel IH]; intros start Hfuel Hi; [lia|].
  simpl. destruct (Z.ltb_spec start (len text)) as [Hlt|Hge]; [|lia].
  destruct (Z_lt_ge_dec i (start + step)) as [Hin|Hout].
  - exists start. split; [apply list_elem_of_here|lia].
  - destruct (IH (start + step)) as (s & Hs & Hr); [unfold step; lia|lia|].
    exists s. split; [by apply list_elem_of_further|done].
Qed.

(** Without their overlap regions the windows from [start] on make up the
    text from [start + overlap] on. *)
Lemma window_starts_glue (fuel : nat) (start : Z) :
  0 <= start -> len text - start < Z.of_nat fuel ->
  List.concat (map (fun s => drop (Z.to_nat overlap) (window text chunk_size s))
                   (window_starts fuel (len text) step start))
  = drop (Z.to_nat (start + overlap)) text.
Proof using valid.
  revert start. induction fuel as [|fuel IH]; intros start Hstart Hfuel.
  - simpl. rewrite drop_ge; [done|]. unfold len in *. lia.
  - simpl. destruct (Z.ltb_spec start (len text)) as [Hlt|Hge].
    + simpl. rewrite IH by (unfold step; lia).
      unfold window. rewrite slice_nonneg by lia.
      rewrite skipn_firstn_comm, drop_drop.
      set (a := (Z.to_nat start + Z.to_nat overlap)%nat).
      set (m := (Z.to_nat (start + chunk_size) - Z.to_nat start
                 - Z.to_nat overlap)%nat).
      replace (Z.to_nat (start + step + overlap)) with (a + m)%nat
        by (unfold a, m, step; lia).
      replace (Z.to_nat (start + overlap)) with a by (unfold a; lia).
      rewrite <- (drop_drop text m a).
      apply take_drop.
    + simpl. rewrite drop_ge; [done|]. unfold len in *. lia.
Qed.

End ChunkerFacts.

Section ChunkFacts.

Import Chunker Windows.

Lemma slice_0_prefix (s : pystr) (hi : Z) : slice s 0 hi `prefix_of` s.
Proof.
  unfold slice. pose proof (len_nonneg s).
  replace (clip (len s) 0) with 0 by (unfold clip; simpl; lia).
  simpl. rewrite drop_0. apply prefix_take.
Qed.

(** What an iteration appends is a prefix of its window. *)
Lemma raw_chunk_prefix (text : pystr) (chunk_size start : Z) :
  raw_chunk text chunk_size start `prefix_of` window text chunk_size start.
Proof.
  unfold raw_chunk, window, break_at_sentence.
  destruct (_ <? len text); [|done].
  destruct (int_gt_float _ _); [apply slice_0_prefix|done].
Qed.

(** It is the whole window once the window reaches the end of the text. *)
Lemma raw_chunk_at_end (text : pystr) (chunk_size start : Z) :
  len text <= start + chunk_size ->
  raw_chunk text chunk_size start = window text chunk_size start.
Proof.
  intros Hend. unfold raw_chunk, window.
  destruct (Z.ltb_spec (start + chunk_size) (len text)); [lia|done].
Qed.

(** On chunks that are already stripped the final filter tests the length
    of the chunk itself. *)
Lemma keep_long_stripped (raws : list pystr) :
  keep_long (map strip raws)
  = List.filter (fun c => 50 <? len c) (map strip raws).
Proof.
  unfold keep_long. apply List.filter_ext_in. intros c Hc.
  apply in_map_iff in Hc as (r & <- & _).
  unfold long_enough. by rewrite strip_idem.
Qed.

(** A filter that accepts nothing returns nothing. *)
Lemma filter_none {A} (f : A -> bool) (l : list A) :
  (forall x, In x l -> f x = false) -> List.filter f l = [].
Proof.
  induction l as [|x l IH]; intros Hall; [done|]. simpl.
  rewrite (Hall x) by (by left). apply IH. intros y Hy. apply Hall. by right.
Qed.

(** A window that starts at least [step] characters into a text shorter
    than [chunk_size] holds fewer than [overlap] characters, if any. *)
Lemma late_window_short (text : pystr) (chunk_size overlap s : Z) :
  0 <= overlap < chunk_size -> len text < chunk_size ->
  chunk_size - overlap <= s ->
  len (raw_chunk text chunk_size s) <= Z.max 0 (overlap - 1).
Proof.
  intros Hvalid Hshort Hs. pose proof (len_nonneg text).
  rewrite raw_chunk_at_end by lia. unfold window.
  rewrite len_slice by lia. lia.
Qed.

(** For the default [chunk_size] the product [500 * 0.7] is exactly
    [350.0]: the window is cut when its last sentence terminator lies at
    an offset above 350. *)
Lemma default_threshold (n : Z) :
  int_gt_float n (float_of_int 500 * f0_7)%float = (350 <? n).
Proof.
  unfold int_gt_float.
  replace (Prim2SF (float_of_int 500 * f0_7))
    with (S754_finite false 6157265115545600 (-44))
    by (vm_compute; reflexivity).
  cbn [Z.leb Z.compare]. change (- -44) with 44.
  destruct (Z.ltb_spec 350 n),
    (Z.ltb_spec (Z.pos 6157265115545600) (n * 2 ^ 44)); try reflexivity; lia.
Qed.

Lemma break_at_sentence_default (chunk : pystr) :
  break_at_sentence chunk 500
  = let last_sentence_end :=
      Z.max (Z.max (rfind chunk period) (rfind chunk exclaim))
            (rfind chunk question) in
    if 350 <? last_sentence_end then slice chunk 0 (last_sentence_end + 1)
    else chunk.
Proof. unfold break_at_sentence. cbv zeta. by rewrite default_threshold. Qed.

End ChunkFacts.

(** ** Claims about [chunk_text] *)

(** C9. For every text and every [0 <= overlap < chunk_size] (given as
    arguments or taken from the processor's defaults), [chunk_text]
    terminates: with one unit of fuel per character of the text, plus one,
    the loop returns, more fuel gives the same chunks, and there are no
    more chunks than characters. The loop heads are [0], [step],
    [2 * step], ... for [step = chunk_size - overlap > 0], each below
    [len(text)], whether or not a sentence end is found in a window. *)
Theorem chunk_text_terminates (self : Chunker.DocumentProcessor)
    (text : pystr) (chunk_size overlap : option Z) :
  0 <= default self.(Chunker.overlap) overlap
    < default self.(Chunker.chunk_size) chunk_size ->
  exists (chunks : list pystr) (starts : list Z),
    (forall fuel, (length text < fuel)%nat ->
       Chunker.chunk_text self fuel text chunk_size overlap = Some chunks)
    /\ (length chunks <= length starts <= length text)%nat
    /\ (forall (k : nat) s, starts !! k = Some s ->
          s = Z.of_nat k * (default self.(Chunker.chunk_size) chunk_size
                            - default self.(Chunker.overlap) overlap)
          /\ 0 <= s < len text).
Proof.
  set (size := default _ chunk_size). set (ov := default _ overlap).
  intros Hvalid.
  set (starts := Windows.window_starts (S (length text)) (len text)
                   (size - ov) 0).
  exists (Chunker.keep_long
            (map (fun s => strip (Chunker.raw_chunk text size s)) starts)),
         starts.
  assert (Hlook : forall (k : nat) s, starts !! k = Some s ->
            s = Z.of_nat k * (size - ov) /\ 0 <= s < len text).
  { intros k s Hk. apply window_starts_lookup in Hk. cbv zeta in Hk.
    split; [lia|]. split; [nia|lia]. }
  split; [|split; [split|]]; [| | |exact Hlook].
  - intros fuel Hfuel. unfold Chunker.chunk_text. fold size ov.
    rewrite (chunk_loop_windows text size ov Hvalid)
      by (unfold len; lia).
    simpl. do 3 f_equal.
    apply (window_starts_fuel text size ov Hvalid); unfold len; lia.
  - unfold Chunker.keep_long.
    etrans; [apply List.filter_length_le|]. by rewrite length_map.
  - destruct (decide (length starts <= length text)%nat) as [|Hn]; [done|].
    destruct (lookup_lt_is_Some_2 starts (length text)) as [s Hs]; [lia|].
    apply Hlook in Hs. unfold len in Hs. nia.
Qed.

Lemma chunk_text_terminates_witness :
  exists (chunks : list pystr) (starts : list Z),
    (forall fuel, (length Fixtures.text_600 < fuel)%nat ->
       Chunker.chunk_text Chunker.DocumentProcessor_init fuel
         Fixtures.text_600 None None = Some chunks)
    /\ (length chunks <= length starts <= length Fixtures.text_600)%nat
    /\ (forall (k : nat) s, starts !! k = Some s ->
          s = Z.of_nat k * (500 - 50) /\ 0 <= s < len Fixtures.text_600).
Proof.
  apply (chunk_text_terminates Chunker.DocumentProcessor_init
           Fixtures.text_600 None None).
  simpl. lia.
Defined.

(** Without progress the loop never returns: with [overlap = chunk_size]
    the start stays at [0] and every amount of fuel runs out. *)
Lemma chunk_loop_without_progress (fuel : nat) (text : pystr)
    (chunk_size : Z) (acc : list pystr) :
  0 < len text ->
  Chunker.chunk_loop fuel text chunk_size chunk_size 0 acc = None.
Proof.
  intros Hne. revert acc. induction fuel as [|fuel IH]; intros acc; [done|].
  simpl. destruct (Z.ltb_spec 0 (len text)); [|lia].
  replace (0 + chunk_size - chunk_size) with 0 by lia.
  destruct (Z.leb_spec (len text) 0); [lia|]. apply IH.
Qed.

(** C7, as the code has it. For every text and every
    [0 <= overlap < chunk_size], [chunk_text] returns, of the chunks the
    loop produced, exactly those longer than 50 characters, in order:
    every returned chunk has at least 51 characters, no produced chunk of
    more than 50 characters is dropped, and every produced chunk of 50
    characters or fewer is dropped. *)
Theorem chunk_text_keeps_chunks_longer_than_50
    (self : Chunker.DocumentProcessor) (text : pystr)
    (chunk_size overlap : option Z) (fuel : nat) :
  0 <= default self.(Chunker.overlap) overlap
    < default self.(Chunker.chunk_size) chunk_size ->
  (length text < fuel)%nat ->
  exists produced returned : list pystr,
    Chunker.chunk_loop fuel text (default self.(Chunker.chunk_size) chunk_size)
      (default self.(Chunker.overlap) overlap) 0 [] = Some produced
    /\ Chunker.chunk_text self fuel text chunk_size overlap = Some returned
    /\ returned = List.filter (fun c => 50 <? len c) produced
    /\ (forall c, In c returned -> 51 <= len c)
    /\ (forall c, In c produced -> 50 < len c -> In c returned)
    /\ (forall c, In c produced -> len c <= 50 -> ~ In c returned).
Proof.
  set (size := default _ chunk_size). set (ov := default _ overlap).
  intros Hvalid Hfuel.
  set (raws := map (Chunker.raw_chunk text size)
                 (Windows.window_starts fuel (len text) (size - ov) 0)).
  exists (map strip raws), (List.filter (fun c => 50 <? len c) (map strip raws)).
  assert (Hloop : Chunker.chunk_loop fuel text size ov 0 [] = Some (map strip raws)).
  { rewrite (chunk_loop_windows text size ov Hvalid) by (unfold len; lia).
    simpl. unfold raws. by rewrite map_map. }
  split; [exact Hloop|]. split.
  { unfold Chunker.chunk_text. fold size ov. rewrite Hloop. simpl.
    by rewrite keep_long_stripped. }
  split; [done|]. repeat split.
  - intros c Hc. apply filter_In in Hc as [_ Hc].
    apply Z.ltb_lt in Hc. lia.
  - intros c Hc Hlen. apply filter_In. split; [done|]. by apply Z.ltb_lt.
  - intros c _ Hlen Hc. apply filter_In in Hc as [_ Hc].
    apply Z.ltb_lt in Hc. lia.
Qed.

Lemma chunk_text_keeps_chunks_longer_than_50_witness :
  exists produced returned : list pystr,
    Chunker.chunk_loop 601 Fixtures.text_600 500 50 0 [] = Some produced
    /\ Chunker.chunk_text Chunker.DocumentProcessor_init 601 Fixtures.text_600
         None None = Some returned
    /\ returned = List.filter (fun c => 50 <? len c) produced
    /\ (forall c, In c returned -> 51 <= len c)
    /\ (forall c, In c produced -> 50 < len c -> In c returned)
    /\ (forall c, In c produced -> len c <= 50 -> ~ In c returned).
Proof.
  apply (chunk_text_keeps_chunks_longer_than_50 Chunker.DocumentProcessor_init
           Fixtures.text_600 None None 601).
  - simpl. lia.
  - simpl. lia.
Defined.

(** C7 as stated fails at the floor itself: a text of exactly 50 letters
    gives one produced chunk of 50 characters, and it is dropped. *)
Lemma chunk_of_length_50_is_dropped :
  Chunker.chunk_loop 51 Fixtures.text_50 500 50 0 [] = Some [Fixtures.text_50]
  /\ len Fixtures.text_50 = 50
  /\ Chunker.chunk_text Chunker.DocumentProcessor_init 51 Fixtures.text_50
       None None = Some [].
Proof. repeat split; vm_compute; reflexivity. Qed.

(** C8, as the code has it. For every text shorter than [chunk_size] and
    every [0 <= overlap < chunk_size] with [overlap <= 51], [chunk_text]
    returns at most one chunk, the stripped text; it returns no chunk
    exactly when the stripped text has 50 characters or fewer. *)
Theorem chunk_text_short_text (self : Chunker.DocumentProcessor)
    (text : pystr) (chunk_size overlap : option Z) (fuel : nat) :
  0 <= default self.(Chunker.overlap) overlap
    < default self.(Chunker.chunk_size) chunk_size ->
  default self.(Chunker.overlap) overlap <= 51 ->
  len text < default self.(Chunker.chunk_size) chunk_size ->
  (length text < fuel)%nat ->
  exists returned : list pystr,
    Chunker.chunk_text self fuel text chunk_size overlap = Some returned
    /\ (length returned <= 1)%nat
    /\ (forall c, In c returned -> c = strip text)
    /\ (returned = [] <-> len (strip text) <= 50).
Proof.
  set (size := default _ chunk_size). set (ov := default _ overlap).
  intros Hvalid Hov Hshort Hfuel.
  unfold Chunker.chunk_text. fold size ov.
  rewrite (chunk_loop_windows text size ov Hvalid) by (unfold len; lia).
  simpl. destruct fuel as [|fuel]; [lia|]. simpl.
  destruct (Z.ltb_spec 0 (len text)) as [Hne|He].
  - set (rest := Windows.window_starts fuel (len text) (size - ov)
                   (0 + (size - ov))).
    assert (Hrest : Chunker.keep_long
              (map (fun s => strip (Chunker.raw_chunk text size s)) rest) = []).
    { apply filter_none. intros c Hc.
      apply in_map_iff in Hc as (s & <- & Hs).
      apply list_elem_of_In, list_elem_of_lookup in Hs as [k Hk].
      apply window_starts_lookup in Hk as [Hk _].
      unfold Chunker.long_enough. rewrite strip_idem. apply Z.ltb_ge.
      pose proof (len_strip_le (Chunker.raw_chunk text size s)).
      pose proof (late_window_short text size ov s Hvalid Hshort).
      nia. }
    assert (Hfirst : Chunker.raw_chunk text size 0 = text).
    { rewrite raw_chunk_at_end by lia. apply slice_all. lia. }
    unfold Chunker.keep_long in *. simpl. rewrite Hfirst, Hrest.
    unfold Chunker.long_enough. rewrite strip_idem.
    destruct (Z.ltb_spec 50 (len (strip text))) as [Hlong|Hshort'].
    + eexists. split; [done|]. simpl. repeat split; try lia; try done.
      intros c [<-|[]]. done.
    + exists []. split; [done|]. simpl. repeat split; try lia; done.
  - exists []. split; [done|]. simpl.
    assert (text = []) as -> by (destruct text; [done|unfold len in He; simpl in He; lia]).
    repeat split; try lia; try done.
Qed.

Lemma chunk_text_short_text_witness :
  exists returned : list pystr,
    Chunker.chunk_text Chunker.DocumentProcessor_init 181 Fixtures.text_180
      None None = Some returned
    /\ (length returned <= 1)%nat
    /\ (forall c, In c returned -> c = strip Fixtures.text_180)
    /\ (returned = [] <-> len (strip Fixtures.text_180) <= 50).
Proof.
  apply (chunk_text_short_text Chunker.DocumentProcessor_init
           Fixtures.text_180 None None 181).
  - simpl. lia.
  - simpl. lia.
  - vm_compute. reflexivity.
  - simpl. lia.
Defined.

(** C8 as stated fails twice. With [chunk_size = 200] and [overlap = 100]
    a text of 180 letters, shorter than [chunk_size], gives two chunks: the
    text and its last 80 letters. And a text of exactly 50 letters, which
    is not below 50 characters, gives no chunk. *)
Lemma short_text_two_chunks :
  len Fixtures.text_180 < 200
  /\ Chunker.chunk_text Chunker.DocumentProcessor_init 181 Fixtures.text_180
       (Some 200) (Some 100) = Some [Fixtures.text_180; repeat 97 80]
  /\ ~ len Fixtures.text_50 < 50
  /\ Chunker.chunk_text Chunker.DocumentProcessor_init 51 Fixtures.text_50
       None None = Some [].
Proof. repeat split; vm_compute; (reflexivity || discriminate). Qed.

(** ** Point identifiers *)

Section UuidFacts.

Import Uuid.

Lemma digits_are_digits (fuel : nat) (n : Z) (acc : pystr) :
  0 <= n -> Forall (fun c => 48 <= c <= 57) acc -> Forall (fun c => 48 <= c <= 57) (digits fuel n acc).
Proof.
  revert n acc. induction fuel as [|fuel IH]; intros n acc Hn Hacc; [done|].
  simpl.
  assert (Forall (fun c => 48 <= c <= 57) ((48 + n mod 10) :: acc)).
  { constructor; [|done].
    pose proof (Z.mod_pos_bound n 10). lia. }
  destruct (n <? 10); [done|]. apply IH; [|done].
  apply Z.div_pos; lia.
Qed.

Lemma str_of_int_digits (n : Z) : 0 <= n -> Forall (fun c => 48 <= c <= 57) (str_of_int n).
Proof.
  intros Hn. unfold str_of_int. destruct (Z.ltb_spec n 0); [lia|].
  by apply digits_are_digits.
Qed.

Lemma utf8_is_Some (s : pystr) :
  is_Some (utf8 s) <-> Forall (fun c => is_Some (utf8_char c)) s.
Proof.
  unfold utf8. rewrite fmap_is_Some. apply mapM_is_Some.
Qed.

Lemma utf8_char_ascii (c : Z) : 0 <= c < 128 -> is_Some (utf8_char c).
Proof.
  intros Hc. unfold utf8_char.
  destruct (Z.ltb_spec c 0); [lia|]. destruct (Z.ltb_spec 1114111 c); [lia|].
  simpl. destruct (Z.ltb_spec c 128); [by eexists|lia].
Qed.

(** Where the URL can be encoded, every point has an identifier. *)
Lemma uuid5_of_point_id_string (u : pystr) (i : Z) :
  is_Some (utf8 u) -> 0 <= i ->
  is_Some (uuid5 NAMESPACE_URL (u ++ lit "#" ++ str_of_int i)).
Proof.
  intros Hu Hi. unfold uuid5.
  assert (Hs : is_Some (utf8 (u ++ lit "#" ++ str_of_int i))).
  { apply utf8_is_Some. apply utf8_is_Some in Hu.
    apply Forall_app. split; [done|]. apply Forall_app. split.
    - constructor; [|done]. apply utf8_char_ascii. simpl. lia.
    - eapply Forall_impl; [by apply str_of_int_digits|].
      intros c Hc. apply utf8_char_ascii. simpl in Hc. lia. }
  destruct Hs as [bs ->]. simpl. by eexists.
Qed.

(** Where it cannot, none has. *)
Lemma uuid5_of_point_id_string_None (u : pystr) (i : Z) :
  utf8 u = None -> uuid5 NAMESPACE_URL (u ++ lit "#" ++ str_of_int i) = None.
Proof.
  intros Hu. unfold uuid5.
  destruct (utf8 (u ++ _)) as [bs|] eqn:E; [|done].
  assert (Hs : is_Some (utf8 u)); [|destruct Hs; congruence].
  apply utf8_is_Some.
  assert (Hall : is_Some (utf8 (u ++ lit "#" ++ str_of_int i))) by (by eexists).
  apply utf8_is_Some, Forall_app in Hall. tauto.
Qed.

End UuidFacts.

(** ** The two upload paths *)

Section UploadFacts.

Import Uuid Ingest.

Context {R : Type} `{External R}.

Lemma bind_self_set {A} (d : QdrantManager -> list Point)
    (k : unit -> M (@State R) A) (st : State) :
  bind (self ≫= fun m => set_embeddings_data (d m)) k st
  = k tt (set_embeddings_data (d st.(qdrant_manager)) st).2.
Proof. reflexivity. Qed.

Lemma set_embeddings_data_twice (d d' : list Point) (st : @State R) :
  set_embeddings_data d' (set_embeddings_data d st).2
  = set_embeddings_data d' st.
Proof. reflexivity. Qed.

Lemma embeddings_data_set (d : list Point) (st : @State R) :
  (set_embeddings_data d st).2.(qdrant_manager).(embeddings_data) = d.
Proof. reflexivity. Qed.

(** Both loops append the same points, one per pair of a chunk and an
    embedding, the one at position [i] carrying index [k + i]. *)
Lemma upload_loops (doc : Document) (chunks : list pystr)
    (zs : list (pystr * list float)) (k : Z) :
  is_Some (utf8 doc.(url)) -> 0 <= k ->
  exists ps : list Point,
    (forall st : @State R,
       for_each (enumerate k zs) (_upload_chunks_local_body doc chunks) st
       = set_embeddings_data (st.(qdrant_manager).(embeddings_data) ++ ps) st)
    /\ (forall points,
          for_each (enumerate k zs) (_upload_chunks_qdrant_body doc chunks) points
          = (Ok tt, points ++ ps))
    /\ length ps = length zs
    /\ (forall (i : nat) p, ps !! i = Some p ->
          exists chunk u,
            zs !! i = Some (chunk, p.(vector))
            /\ uuid5 NAMESPACE_URL
                 (doc.(url) ++ lit "#" ++ str_of_int (k + Z.of_nat i)) = Some u
            /\ p.(id) = str_of_UUID u
            /\ p.(payload) !! "content"%string = Some (PStr chunk)
            /\ p.(payload) !! "chunk_index"%string = Some (PInt (k + Z.of_nat i))
            /\ p.(payload) !! "total_chunks"%string = Some (PInt (len chunks))
            /\ p.(payload) !! "url"%string = Some (PStr doc.(url))).
Proof.
  intros Hurl. revert k. induction zs as [|[chunk emb] zs IH]; intros k Hk.
  - exists []. split; [|split; [|split]].
    + intros [[] ? ? ?]. simpl. unfold set_embeddings_data, set_manager, modify.
      simpl. by rewrite app_nil_r.
    + intros points. simpl. by rewrite app_nil_r.
    + done.
    + intros i p Hi. by rewrite lookup_nil in Hi.
  - destruct (IH (k + 1)) as (ps & Hloc & Hrem & Hlen & Hps); [lia|].
    destruct (uuid5_of_point_id_string doc.(url) k Hurl Hk) as [u Hu].
    eexists (_ :: ps). split; [|split; [|split]].
    + intros st. cbn [enumerate for_each].
      unfold _upload_chunks_local_body at 1. rewrite Hu.
      rewrite bind_self_set, Hloc, embeddings_data_set,
        set_embeddings_data_twice.
      by rewrite <- app_assoc.
    + intros points. cbn [enumerate for_each].
      unfold _upload_chunks_qdrant_body at 1.
      rewrite Hu. unfold bind at 1. unfold modify at 1. rewrite Hrem.
      by rewrite <- app_assoc.
    + simpl. by rewrite Hlen.
    + intros [|i] p Hi.
      * simpl in Hi. injection Hi as <-. exists chunk, u. simpl.
        rewrite Z.add_0_r. repeat split; done.
      * simpl in Hi. destruct (Hps i p Hi) as (c & u' & Hz & Hu' & Hrest).
        exists c, u'.
        replace (k + Z.of_nat (S i)) with (k + 1 + Z.of_nat i) by lia.
        exact (conj Hz (conj Hu' Hrest)).
Qed.

Lemma lookup_combine {A B} (l : list A) (k : list B) (i : nat) a b :
  combine l k !! i = Some (a, b) -> l !! i = Some a /\ k !! i = Some b.
Proof.
  revert k i. induction l as [|x l IH]; intros [|y k] [|i]; try done.
  - simpl. by intros [= -> ->].
  - simpl. apply IH.
Qed.

Lemma map_eq_lookup {A B} (f : A -> B) (l l' : list A) :
  length l = length l' ->
  (forall (i : nat) x y, l !! i = Some x -> l' !! i = Some y -> f x = f y) ->
  map f l = map f l'.
Proof.
  revert l'. induction l as [|x l IH]; intros [|y l'] Hlen Hall; try done.
  simpl. f_equal.
  - by apply (Hall 0%nat).
  - apply IH; [by injection Hlen|]. intros i. apply (Hall (S i)).
Qed.

End UploadFacts.

(** ** Claims about the uploaded points *)

(** Where the URL cannot be encoded (a lone surrogate), neither path
    produces a point: both raise at the first pair. *)
Lemma point_ids_unencodable_url {R : Type} `{Ingest.External R}
    (doc : Ingest.Document) (chunks : list pystr) (chunk : pystr)
    (embedding : list float) (zs : list (pystr * list float))
    (st : @Ingest.State R) (points : list Ingest.Point) :
  Uuid.utf8 doc.(Ingest.url) = None ->
  let e := Exception "UnicodeEncodeError" (doc.(Ingest.url) ++ lit "#" ++ str_of_int 0) in
  for_each (enumerate 0 ((chunk, embedding) :: zs))
    (Ingest._upload_chunks_local_body doc chunks) st = (Raise e, st)
  /\ for_each (enumerate 0 ((chunk, embedding) :: zs))
       (Ingest._upload_chunks_qdrant_body doc chunks) points = (Raise e, points).
Proof.
  intros Hurl e. cbn [enumerate for_each].
  unfold Ingest._upload_chunks_local_body, Ingest._upload_chunks_qdrant_body.
  rewrite (uuid5_of_point_id_string_None _ 0 Hurl). done.
Qed.

(** C1. For every document, every list of chunks and every list of
    embeddings, the remote path and the local path end the same way and
    build the same points, and the identifier of the point at index [i] is
    the string form of [uuid5(NAMESPACE_URL, url + "#" + str(i))]. Where
    the URL can be encoded both paths succeed, with one point per pair of
    a chunk and an embedding. The identifiers depend on the URL and the
    index only: another upload of a document with the same URL and as many
    pairs gives the same sequence of identifiers. *)
Theorem point_ids_are_uuid5 {R : Type} `{Ingest.External R}
    (doc : Ingest.Document) (chunks : list pystr)
    (embeddings : list (list float)) (st : @Ingest.State R) :
  exists (r : outcome unit) (ps : list Ingest.Point),
    Ingest._upload_chunks_qdrant_points doc chunks embeddings [] = (r, ps)
    /\ Ingest._upload_chunks_local doc chunks embeddings st
       = (r, (Ingest.set_embeddings_data
                (st.(Ingest.qdrant_manager).(Ingest.embeddings_data) ++ ps)
                st).2)
    /\ (forall (i : nat) p, ps !! i = Some p ->
          Uuid.str_of_UUID <$>
            Uuid.uuid5 Uuid.NAMESPACE_URL
              (doc.(Ingest.url) ++ lit "#" ++ str_of_int (Z.of_nat i))
          = Some p.(Ingest.id))
    /\ (is_Some (Uuid.utf8 doc.(Ingest.url)) ->
          r = Ok tt
          /\ length ps = Nat.min (length chunks) (length embeddings))
    /\ (forall (doc' : Ingest.Document) chunks' embeddings' ps',
          doc'.(Ingest.url) = doc.(Ingest.url) ->
          Nat.min (length chunks') (length embeddings')
          = Nat.min (length chunks) (length embeddings) ->
          Ingest._upload_chunks_qdrant_points doc' chunks' embeddings' []
          = (Ok tt, ps') ->
          map Ingest.id ps' = map Ingest.id ps).
Proof.
  destruct (Uuid.utf8 doc.(Ingest.url)) as [bs|] eqn:Hutf.
  - assert (Hurl : is_Some (Uuid.utf8 doc.(Ingest.url))) by (by eexists).
    destruct (upload_loops (R:=R) doc chunks (zip chunks embeddings) 0 Hurl)
      as (ps & Hloc & Hrem & Hlen & Hps); [lia|].
    exists (Ok tt), ps. split; [apply Hrem|]. split; [apply Hloc|]. split.
    { intros i p Hi. destruct (Hps i p Hi) as (_ & u & _ & Hu & Hid & _).
      rewrite Z.add_0_l in Hu. by rewrite Hu, Hid. }
    split; [intros _; split; [done|by rewrite Hlen; apply length_combine]|].
    intros doc' chunks' embeddings' ps' Hsame Hcount Hrun.
    assert (Hurl' : is_Some (Uuid.utf8 doc'.(Ingest.url))) by (by rewrite Hsame).
    destruct (upload_loops (R:=R) doc' chunks' (zip chunks' embeddings') 0 Hurl')
      as (qs & _ & Hrem' & Hlen' & Hqs); [lia|].
    unfold Ingest._upload_chunks_qdrant_points in Hrun.
    rewrite Hrem' in Hrun. injection Hrun as <-.
    apply map_eq_lookup.
    + rewrite Hlen, Hlen'. unfold zip. by rewrite !length_combine.
    + intros i x y Hx Hy.
      destruct (Hqs i x Hx) as (_ & u & _ & Hu & Hid & _).
      destruct (Hps i y Hy) as (_ & u' & _ & Hu' & Hid' & _).
      rewrite Hsame in Hu. congruence.
  - assert (Hsame_state :
      (Ingest.set_embeddings_data
         (st.(Ingest.qdrant_manager).(Ingest.embeddings_data) ++ []) st).2 = st).
    { destruct st as [[name local file data] svc fs out]. simpl.
      by rewrite app_nil_r. }
    unfold Ingest._upload_chunks_qdrant_points, Ingest._upload_chunks_local.
    destruct (zip chunks embeddings) as [|[chunk emb] zs] eqn:Hzip.
    + exists (Ok tt), []. rewrite Hsame_state. split; [done|]. split; [done|].
      split; [by intros i p Hi; rewrite lookup_nil in Hi|].
      split; [by intros [? ?]|].
      intros doc' chunks' embeddings' ps' Hsame Hcount.
      assert (Hzip' : zip chunks' embeddings' = []).
      { apply length_zero_iff_nil. unfold zip in *.
        rewrite length_combine, Hcount, <- length_combine, Hzip. done. }
      rewrite Hzip'. simpl. by intros [= <-].
    + destruct (point_ids_unencodable_url doc chunks chunk emb zs st [] Hutf)
        as [Hloc Hrem].
      eexists (Raise _), []. rewrite Hsame_state.
      split; [exact Hrem|]. split; [exact Hloc|].
      split; [by intros i p Hi; rewrite lookup_nil in Hi|].
      split; [by intros [? ?]|].
      intros doc' chunks' embeddings' ps' Hsame Hcount.
      destruct (zip chunks' embeddings') as [|[chunk' emb'] zs'] eqn:Hzip'.
      { exfalso. apply (f_equal length) in Hzip, Hzip'. unfold zip in *.
        rewrite length_combine in Hzip, Hzip'. simpl in *. lia. }
      rewrite <- Hsame in Hutf.
      destruct (point_ids_unencodable_url doc' chunks' chunk' emb' zs' st []
                  Hutf) as [_ Hrem'].
      rewrite Hrem'. discriminate.
Qed.

(** Two chunks of the document at [https://x/1] get the identifiers
    Python's [uuid5] gives for [https://x/1#0] and [https://x/1#1]. *)
Example point_ids_example :
  map Ingest.id
    (Ingest._upload_chunks_qdrant_points Sim.doc_a
       [lit "first chunk"; lit "second chunk"] [[0%float]; [1%float]] []).2
  = [lit "2965dbd8-9e44-51c8-9896-fba3246b73b4";
     lit "3ed51d65-f56f-53a1-a7f7-4b9011a28fbe"].
Proof. vm_compute. reflexivity. Qed.

(** C10. For every document whose URL can be encoded, uploaded with [n]
    chunks and as many embeddings, both paths produce [n] points, the same
    in both, and the point at position [i] has [chunk_index = i],
    [total_chunks = n] and the [i]-th chunk as [content], so that
    [0 <= chunk_index < total_chunks]. [upload_chunks] appends these points
    to the buffer in local mode and hands them to the client's [upsert]
    otherwise. *)
Theorem payload_invariant {R : Type} `{Ingest.External R}
    (doc : Ingest.Document) (chunks : list pystr)
    (embeddings : list (list float)) (st : @Ingest.State R) :
  is_Some (Uuid.utf8 doc.(Ingest.url)) ->
  length chunks = length embeddings ->
  exists ps : list Ingest.Point,
    Ingest._upload_chunks_qdrant_points doc chunks embeddings [] = (Ok tt, ps)
    /\ Ingest._upload_chunks_local doc chunks embeddings st
       = Ingest.set_embeddings_data
           (st.(Ingest.qdrant_manager).(Ingest.embeddings_data) ++ ps) st
    /\ Ingest.upload_chunks doc chunks embeddings st
       = (if st.(Ingest.qdrant_manager).(Ingest.use_local_storage)
          then Ingest.set_embeddings_data
                 (st.(Ingest.qdrant_manager).(Ingest.embeddings_data) ++ ps) st
          else try_except
                 (Ingest.call
                    (Ingest.client_upsert
                       st.(Ingest.qdrant_manager).(Ingest.collection_name) ps))
                 (fun e => raise e) st)
    /\ length ps = length chunks
    /\ (forall (i : nat) p, ps !! i = Some p ->
          exists chunk,
            chunks !! i = Some chunk
            /\ p.(Ingest.payload) !! "content"%string = Some (Ingest.PStr chunk)
            /\ p.(Ingest.payload) !! "chunk_index"%string
               = Some (Ingest.PInt (Z.of_nat i))
            /\ p.(Ingest.payload) !! "total_chunks"%string
               = Some (Ingest.PInt (len chunks))
            /\ 0 <= Z.of_nat i < len chunks).
Proof.
  intros Hurl Hsame.
  destruct (upload_loops (R:=R) doc chunks (zip chunks embeddings) 0 Hurl)
    as (ps & Hloc & Hrem & Hlen & Hps); [lia|].
  assert (Hn : length ps = length chunks).
  { rewrite Hlen. unfold zip. rewrite length_combine. lia. }
  exists ps. split; [apply Hrem|]. split; [apply Hloc|]. split; [|split; [done|]].
  - unfold Ingest.upload_chunks.
    rewrite bool_decide_eq_false_2 by (unfold len; lia).
    destruct st as [[name local file data] svc fs out]. simpl.
    destruct local.
    + apply Hloc.
    + unfold Ingest._upload_chunks_qdrant, Ingest._upload_chunks_qdrant_points.
      unfold mbind, M_bind, bind. rewrite Hrem. reflexivity.
  - intros i p Hi.
    destruct (Hps i p Hi) as (chunk & u & Hz & _ & _ & Hc & Hidx & Htot & _).
    apply lookup_combine in Hz as [Hchunk _].
    exists chunk. rewrite Z.add_0_l in Hidx.
    split; [done|]. split; [done|]. split; [done|]. split; [done|].
    apply lookup_lt_Some in Hi. unfold len. lia.
Qed.

Lemma payload_invariant_witness :
  exists ps : list Ingest.Point,
    Ingest._upload_chunks_qdrant_points Sim.doc_a
      [lit "first chunk"; lit "second chunk"] [[0%float]; [1%float]] []
    = (Ok tt, ps)
    /\ Ingest._upload_chunks_local Sim.doc_a
         [lit "first chunk"; lit "second chunk"] [[0%float]; [1%float]]
         (Sim.start Sim.offline)
       = Ingest.set_embeddings_data ([] ++ ps) (Sim.start Sim.offline)
    /\ Ingest.upload_chunks Sim.doc_a
         [lit "first chunk"; lit "second chunk"] [[0%float]; [1%float]]
         (Sim.start Sim.offline)
       = try_except (Ingest.call (Ingest.client_upsert [] ps))
           (fun e => raise e) (Sim.start Sim.offline)
    /\ length ps = 2%nat
    /\ (forall (i : nat) p, ps !! i = Some p ->
          exists chunk,
            [lit "first chunk"; lit "second chunk"] !! i = Some chunk
            /\ p.(Ingest.payload) !! "content"%string = Some (Ingest.PStr chunk)
            /\ p.(Ingest.payload) !! "chunk_index"%string
               = Some (Ingest.PInt (Z.of_nat i))
            /\ p.(Ingest.payload) !! "total_chunks"%string
               = Some (Ingest.PInt 2)
            /\ 0 <= Z.of_nat i < 2).
Proof.
  apply (payload_invariant Sim.doc_a [lit "first chunk"; lit "second chunk"]
           [[0%float]; [1%float]] (Sim.start Sim.offline)).
  - vm_compute. by eexists.
  - reflexivity.
Defined.

(** ** The ingestion run *)

Create HintDb keeps discriminated.

Section RunFacts.

Import Ingest Frame.

Context {R : Type} `{External R}.

Lemma bind_assoc {S A B C} (m : M S A) (k : A -> M S B) (k' : B -> M S C)
    (st : S) :
  bind (bind m k) k' st = bind m (fun a => bind (k a) k') st.
Proof. unfold bind. by destruct (m st) as [[a|e|] st']. Qed.

Lemma bind_ext {S A B} (m : M S A) (k k' : A -> M S B) (st : S) :
  (forall a st', k a st' = k' a st') -> bind m k st = bind m k' st.
Proof. intros Hk. unfold bind. by destruct (m st) as [[a|e|] st']. Qed.

Lemma keeps_ret {A} (a : A) : keeps_files (R:=R) (ret a).
Proof. by intros st. Qed.

Lemma keeps_raise {A} (e : exn) : keeps_files (R:=R) (A:=A) (raise e).
Proof. by intros st. Qed.

Lemma keeps_bind {A B} (m : M (@State R) A) (k : A -> M State B) :
  keeps_files m -> (forall a, keeps_files (k a)) -> keeps_files (bind m k).
Proof.
  intros Hm Hk st. unfold bind. specialize (Hm st).
  destruct (m st) as [[a|e|] st']; simpl in *; [|done..].
  by rewrite Hk.
Qed.

Lemma keeps_mbind {A B} (m : M (@State R) A) (k : A -> M State B) :
  keeps_files m -> (forall a, keeps_files (k a)) -> keeps_files (m ≫= k).
Proof. apply keeps_bind. Qed.

Lemma keeps_try_except {A} (m : M (@State R) A) (handler : exn -> M State A) :
  keeps_files m -> (forall e, keeps_files (handler e)) ->
  keeps_files (try_except m handler).
Proof.
  intros Hm Hh st. unfold try_except. specialize (Hm st).
  destruct (m st) as [[a|e|] st']; simpl in *; [done| |done].
  destruct (is_Exception e); [by rewrite Hh|done].
Qed.

Lemma keeps_call {A} (f : R -> outcome A * R) : keeps_files (call f).
Proof. intros st. unfold call. by destruct (f _). Qed.

Lemma keeps_set_manager (f : QdrantManager -> QdrantManager) :
  keeps_files (R:=R) (set_manager f).
Proof. by intros st. Qed.

Lemma keeps_self : keeps_files (R:=R) self.
Proof. by intros st. Qed.

Lemma keeps_print (line : pystr) : keeps_files (R:=R) (print line).
Proof. by intros st. Qed.

Lemma keeps_for_each {A} (l : list A) (body : A -> M (@State R) unit) :
  (forall x, keeps_files (body x)) -> keeps_files (for_each l body).
Proof.
  intros Hbody. induction l as [|x l IH]; [apply keeps_ret|].
  simpl. apply keeps_bind; [apply Hbody|done].
Qed.

Hint Resolve keeps_ret keeps_raise keeps_call keeps_set_manager keeps_self
  keeps_print : keeps.

Ltac keeps :=
  repeat first
    [ progress auto with keeps
    | apply keeps_mbind | apply keeps_bind | apply keeps_try_except
    | apply keeps_for_each | intros ? ].

Lemma keeps_DocumentProcessor_init (model_name : pystr) :
  keeps_files (DocumentProcessor_init model_name).
Proof. unfold DocumentProcessor_init. keeps. Qed.

Lemma keeps_create_embeddings (texts : list pystr) :
  keeps_files (create_embeddings texts).
Proof. unfold create_embeddings. destruct texts; keeps. Qed.

Lemma keeps_QdrantManager_init (env : gmap string pystr) :
  keeps_files (QdrantManager_init env).
Proof.
  unfold QdrantManager_init. apply keeps_try_except; [|keeps].
  apply keeps_mbind; [|keeps]. destruct (env !! _) as [[|]|]; keeps.
Qed.

Lemma keeps_create_collection : keeps_files (R:=R) create_collection.
Proof.
  unfold create_collection. apply keeps_mbind; [keeps|]. intros m.
  destruct (use_local_storage m); [unfold set_embeddings_data; keeps|].
  apply keeps_try_except; [|keeps]. apply keeps_mbind; [keeps|]. intros names.
  apply keeps_mbind; [|keeps]. destruct (bool_decide _); keeps.
Qed.

Lemma keeps_upload_chunks (doc : Document) (chunks : list pystr)
    (embeddings : list (list float)) :
  keeps_files (upload_chunks doc chunks embeddings).
Proof.
  unfold upload_chunks. destruct (bool_decide _); [keeps|].
  apply keeps_mbind; [keeps|]. intros m. destruct (use_local_storage m).
  - unfold _upload_chunks_local. apply keeps_for_each.
    intros [i [chunk embedding]]. unfold _upload_chunks_local_body.
    destruct (Uuid.uuid5 _ _); [|keeps].
    unfold set_embeddings_data. keeps.
  - unfold _upload_chunks_qdrant. apply keeps_mbind.
    + intros st. by destruct (_upload_chunks_qdrant_points _ _ _ _) as [[]].
    + keeps.
Qed.

Lemma keeps_process_documents (fuel : nat)
    (processor : Chunker.DocumentProcessor) (documents : list Document)
    (total_chunks : Z) :
  keeps_files (process_documents fuel processor documents total_chunks).
Proof.
  revert total_chunks.
  induction documents as [|doc documents IH]; intros total; [apply keeps_ret|].
  simpl. destruct (Chunker.chunk_text _ _ _ _ _) as [[|c cs]|]; [done| |done].
  apply keeps_mbind; [apply keeps_create_embeddings|]. intros embs.
  apply keeps_mbind; [apply keeps_upload_chunks|]. intros _. apply IH.
Qed.

(** [main] writes no file, in either mode and however it ends:
    [save_local_storage] is the only writer and [main] does not call it. *)
Lemma main_writes_no_file (fuel : nat) (env : gmap string pystr)
    (data_file : option (list Document)) :
  keeps_files (main fuel env data_file).
Proof.
  unfold main. destruct data_file as [documents|]; [|apply keeps_ret].
  apply keeps_mbind; [apply keeps_DocumentProcessor_init|]. intros processor.
  apply keeps_mbind; [apply keeps_QdrantManager_init|]. intros _.
  apply keeps_mbind; [apply keeps_create_collection|]. intros _.
  apply keeps_mbind; [apply keeps_process_documents|]. intros total.
  keeps.
Qed.

(** In local mode [save_local_storage] writes the whole buffer, when it is
    not empty, and nothing else changes. *)
Lemma save_local_storage_writes_buffer (st : @State R) :
  st.(qdrant_manager).(use_local_storage) = true ->
  st.(qdrant_manager).(embeddings_data) <> [] ->
  save_local_storage st
  = (Ok tt, {| qdrant_manager := st.(qdrant_manager);
               services := st.(services);
               files := <[st.(qdrant_manager).(local_storage_file)
                          := st.(qdrant_manager).(embeddings_data)]> st.(files);
               stdout := st.(stdout) |}).
Proof.
  intros Hlocal Hdata. unfold save_local_storage, mbind, M_bind, bind, self.
  simpl. rewrite Hlocal. by destruct (embeddings_data _).
Qed.

(** With an empty buffer, or in remote mode, it writes nothing. *)
Lemma save_local_storage_skips (st : @State R) :
  st.(qdrant_manager).(use_local_storage) = false
  \/ st.(qdrant_manager).(embeddings_data) = [] ->
  save_local_storage st = (Ok tt, st).
Proof.
  intros Hskip. unfold save_local_storage, mbind, M_bind, bind, self. simpl.
  destruct Hskip as [-> | ->]; [done|]. by rewrite andb_false_r.
Qed.

(** The loop over a list split in two runs the second part from where the
    first part ended. *)
Lemma process_documents_app (fuel : nat) (processor : Chunker.DocumentProcessor)
    (before after : list Document) (total : Z) (st : @State R) :
  process_documents fuel processor (before ++ after) total st
  = bind (process_documents fuel processor before total)
         (process_documents fuel processor after) st.
Proof.
  revert total st. induction before as [|doc before IH]; intros total st;
    [done|].
  simpl. destruct (Chunker.chunk_text _ _ _ _ _) as [[|c cs]|]; [apply IH| |done].
  unfold mbind, M_bind. rewrite bind_assoc. apply bind_ext. intros embs st1.
  rewrite bind_assoc. apply bind_ext. intros _ st2. apply IH.
Qed.

End RunFacts.

(** ** Claims about the ingestion run *)

(** C3, as the code has it. When start-up succeeded, the documents before
    [doc] were processed and the embedding call raises [e] for the chunks
    of [doc], [main] ends there with [e]: the state is the one reached
    after the documents before [doc], but for what the failed call did to
    the outside services. The documents after [doc] play no part in the
    result, and no summary line is printed. *)
Theorem embedding_failure_ends_the_run {R : Type} `{Ingest.External R}
    (fuel : nat) (env : gmap string pystr)
    (before : list Ingest.Document) (doc : Ingest.Document)
    (after : list Ingest.Document)
    (processor : Chunker.DocumentProcessor) (total : Z)
    (st st_a st_b st0 st1 : @Ingest.State R)
    (chunks : list pystr) (e : exn) (s2 : R) :
  Ingest.DocumentProcessor_init Ingest.EMBEDDING_MODEL_NAME st
    = (Ok processor, st_a) ->
  Ingest.QdrantManager_init env st_a = (Ok tt, st_b) ->
  Ingest.create_collection st_b = (Ok tt, st0) ->
  Ingest.process_documents fuel processor before 0 st0 = (Ok total, st1) ->
  Chunker.chunk_text processor fuel doc.(Ingest.content) None None
    = Some chunks ->
  chunks <> [] ->
  Ingest.model_encode chunks st1.(Ingest.services) = (Raise e, s2) ->
  Ingest.main fuel env (Some (before ++ doc :: after)) st
  = (Raise e, {| Ingest.qdrant_manager := st1.(Ingest.qdrant_manager);
                 Ingest.services := s2;
                 Ingest.files := st1.(Ingest.files);
                 Ingest.stdout := st1.(Ingest.stdout) |}).
Proof.
  intros Hproc Hinit Hcreate Hbefore Hchunks Hne Hencode.
  unfold Ingest.main, mbind, M_bind.
  unfold bind at 1. rewrite Hproc.
  unfold bind at 1. rewrite Hinit.
  unfold bind at 1. rewrite Hcreate.
  unfold bind at 1. rewrite process_documents_app.
  unfold bind at 1. rewrite Hbefore.
  simpl. rewrite Hchunks. destruct chunks as [|c cs]; [done|].
  unfold mbind, M_bind, bind, Ingest.create_embeddings, Ingest.call.
  by rewrite Hencode.
Qed.

Lemma embedding_failure_ends_the_run_witness :
  Ingest.main 61 ∅ (Some ([] ++ Sim.doc_a :: [Sim.doc_b]))
    (Sim.start Sim.failing_model)
  = (Raise (Exception "RuntimeError" (lit "model unavailable")),
     {| Ingest.qdrant_manager :=
          {| Ingest.collection_name := Ingest.VECTOR_COLLECTION_NAME;
             Ingest.use_local_storage := false;
             Ingest.local_storage_file := [];
             Ingest.embeddings_data := [] |};
        Ingest.services :=
          {| Sim.reachable := true;
             Sim.encode_fails_at := Some 0%nat;
             Sim.encode_calls := 1;
             Sim.collections := [(Ingest.VECTOR_COLLECTION_NAME, [])] |};
        Ingest.files := ∅;
        Ingest.stdout := [] |}).
Proof.
  set (m := {| Ingest.collection_name := Ingest.VECTOR_COLLECTION_NAME;
              Ingest.use_local_storage := false;
              Ingest.local_storage_file := [];
              Ingest.embeddings_data := [] |}).
  set (created := {| Ingest.qdrant_manager := m;
                     Ingest.services :=
                       {| Sim.reachable := true;
                          Sim.encode_fails_at := Some 0%nat;
                          Sim.encode_calls := 0;
                          Sim.collections :=
                            [(Ingest.VECTOR_COLLECTION_NAME, [])] |};
                     Ingest.files := ∅;
                     Ingest.stdout := [] |}).
  apply (embedding_failure_ends_the_run 61 ∅ [] Sim.doc_a [Sim.doc_b]
           Chunker.DocumentProcessor_init 0
           (Sim.start Sim.failing_model) (Sim.start Sim.failing_model)
           {| Ingest.qdrant_manager := m;
              Ingest.services := Sim.failing_model;
              Ingest.files := ∅;
              Ingest.stdout := [] |}
           created created [repeat 97 60]
           (Exception "RuntimeError" (lit "model unavailable"))
           {| Sim.reachable := true;
              Sim.encode_fails_at := Some 0%nat;
              Sim.encode_calls := 1;
              Sim.collections := [(Ingest.VECTOR_COLLECTION_NAME, [])] |}).
  - reflexivity.
  - vm_compute. reflexivity.
  - vm_compute. reflexivity.
  - reflexivity.
  - vm_compute. reflexivity.
  - discriminate.
  - vm_compute. reflexivity.
Defined.

(** C3 as stated fails. The model fails at its first call only, so the
    second document could be embedded; yet with the first document's
    embedding failing the run ends with the exception, the model has been
    called once, no point of either document is stored, and nothing is
    printed. On its own the second document is ingested. *)
Lemma embedding_failure_stops_later_documents :
  (let '(r, st) := Ingest.main 61 ∅ (Some [Sim.doc_a; Sim.doc_b])
                     (Sim.start Sim.failing_model) in
   r = Raise (Exception "RuntimeError" (lit "model unavailable"))
   /\ st.(Ingest.services).(Sim.encode_calls) = 1%nat
   /\ st.(Ingest.services).(Sim.collections)
      = [(Ingest.VECTOR_COLLECTION_NAME, [])]
   /\ st.(Ingest.stdout) = [])
  /\ (let '(r, st) := Ingest.main 61 ∅ (Some [Sim.doc_b])
                        (Sim.start Sim.online) in
      r = Ok tt
      /\ map (fun c => (c.1, map Ingest.id c.2))
           st.(Ingest.services).(Sim.collections)
         = [(Ingest.VECTOR_COLLECTION_NAME,
             [lit "ae0d063b-c54e-5584-a1f5-55a3318cdcf4"])]).
Proof.
  split.
  - vm_compute. repeat split; reflexivity.
  - vm_compute. repeat split; reflexivity.
Qed.

(** C6, at a failing input. With the Qdrant server down, [main] over the
    two documents ends normally in local mode, with the two points in the
    in-memory buffer and a summary line that counts two chunks, and no
    file has been written: [main] never calls [save_local_storage]. Called
    after [main], [save_local_storage] writes the two buffered points to
    [data/embeddings_storage.json]. *)
Lemma main_in_local_mode_writes_no_file :
  let '(r, st) := Ingest.main 61 ∅ (Some [Sim.doc_a; Sim.doc_b])
                    (Sim.start Sim.offline) in
  r = Ok tt
  /\ st.(Ingest.qdrant_manager).(Ingest.use_local_storage) = true
  /\ map Ingest.id st.(Ingest.qdrant_manager).(Ingest.embeddings_data)
     = [lit "2965dbd8-9e44-51c8-9896-fba3246b73b4";
        lit "ae0d063b-c54e-5584-a1f5-55a3318cdcf4"]
  /\ st.(Ingest.stdout) !! 2%nat
     = Some (lit "Total chunks uploaded to Qdrant: 2")
  /\ st.(Ingest.files) = ∅
  /\ (length <$> (Ingest.save_local_storage st).2.(Ingest.files)
                   !! lit "data/embeddings_storage.json") = Some 2%nat.
Proof.
  pose proof (main_writes_no_file 61 ∅ (Some [Sim.doc_a; Sim.doc_b])
                (Sim.start Sim.offline)) as Hfiles.
  destruct (Ingest.main _ _ _ _) as [r st] eqn:Hmain.
  assert (Hr : r = (Ingest.main 61 ∅ (Some [Sim.doc_a; Sim.doc_b])
                      (Sim.start Sim.offline)).1) by (by rewrite Hmain).
  assert (Hm : st.(Ingest.qdrant_manager)
               = (Ingest.main 61 ∅ (Some [Sim.doc_a; Sim.doc_b])
                    (Sim.start Sim.offline)).2.(Ingest.qdrant_manager))
    by (by rewrite Hmain).
  assert (Hout : st.(Ingest.stdout)
               = (Ingest.main 61 ∅ (Some [Sim.doc_a; Sim.doc_b])
                    (Sim.start Sim.offline)).2.(Ingest.stdout))
    by (by rewrite Hmain).
  simpl in Hfiles.
  split; [rewrite Hr; vm_compute; reflexivity|].
  split; [rewrite Hm; vm_compute; reflexivity|].
  split; [rewrite Hm; vm_compute; reflexivity|].
  split; [rewrite Hout; vm_compute; reflexivity|].
  split; [exact Hfiles|].
  rewrite save_local_storage_writes_buffer.
  - cbn [snd Ingest.files].
    replace (Ingest.local_storage_file (Ingest.qdrant_manager st))
      with (lit "data/embeddings_storage.json")
      by (rewrite Hm; vm_compute; reflexivity).
    rewrite lookup_insert_eq. cbn [fmap option_fmap option_map].
    rewrite Hm. vm_compute. reflexivity.
  - rewrite Hm. vm_compute. reflexivity.
  - rewrite Hm. vm_compute. discriminate.
Qed.

(** ** The query engine *)

Section AppFacts.

Import App Unset.

Context {X : Type} `{External X}.

Lemma unset_ret {A} (a : A) : keeps_llm_unset (X:=X) (ret a).
Proof. by intros st. Qed.

Lemma unset_bind {A B} (m : M (@State X) A) (k : A -> M State B) :
  keeps_llm_unset m -> (forall a, keeps_llm_unset (k a)) ->
  keeps_llm_unset (m ≫= k).
Proof.
  intros Hm Hk st Hst. unfold mbind, M_bind, bind. specialize (Hm st Hst).
  destruct (m st) as [[a|e|] st']; simpl in *; [|done..].
  by apply Hk.
Qed.

Lemma unset_try_except {A} (m : M (@State X) A) (handler : exn -> M State A) :
  keeps_llm_unset m -> (forall e, keeps_llm_unset (handler e)) ->
  keeps_llm_unset (try_except m handler).
Proof.
  intros Hm Hh st Hst. unfold try_except. specialize (Hm st Hst).
  destruct (m st) as [[a|e|] st']; simpl in *; [done| |done].
  destruct (is_Exception e); [by apply Hh|done].
Qed.

Lemma unset_call {A} (f : X -> outcome A * X) : keeps_llm_unset (call f).
Proof. intros st Hst. unfold call. by destruct (f _). Qed.

Lemma unset_show (e : UiEvent) : keeps_llm_unset (X:=X) (show e).
Proof. by intros st. Qed.

Lemma unset_setattr (name : string) (v : pyobj) :
  name <> "llm"%string -> keeps_llm_unset (X:=X) (setattr name v).
Proof. intros Hne st Hst. simpl. by rewrite lookup_insert_ne. Qed.

(** Without a usable key [setup_clients] never assigns [self.llm]. *)
Lemma unset_setup_clients (env : gmap string pystr) :
  no_usable_key env -> keeps_llm_unset (setup_clients env).
Proof.
  intros Hkey. unfold setup_clients.
  apply unset_try_except; [|intros e; apply unset_show].
  apply unset_bind; [apply unset_show|]. intros _.
  apply unset_bind; [apply unset_call|]. intros _.
  apply unset_bind; [by apply unset_setattr|]. intros _.
  apply unset_bind.
  { destruct (env !! "QDRANT_API_KEY"%string) as [[|]|]; apply unset_call. }
  intros _. apply unset_bind; [by apply unset_setattr|]. intros _.
  destruct Hkey as [-> | [-> | ->]]; apply unset_show.
Qed.

Lemma unset_init (env : gmap string pystr) :
  no_usable_key env -> keeps_llm_unset (DisasterRAGApp_init env).
Proof.
  intros Hkey. unfold DisasterRAGApp_init.
  repeat (apply unset_bind; [by apply unset_setattr|]; intros _).
  by apply unset_setup_clients.
Qed.

(** Reading an attribute that was never assigned raises and changes
    nothing. *)
Lemma getattr_unset (name : string) (st : @State X) :
  st.(attrs) !! name = None ->
  getattr name st
  = (Raise (Exception "AttributeError"
              (lit "'DisasterRAGApp' object has no attribute '"
                 ++ lit name ++ lit "'")), st).
Proof.
  intros Hname. unfold getattr, mbind, M_bind, bind, get. by rewrite Hname.
Qed.

(** What [retrieve_context] does with each outcome of its [try] block. *)
Lemma retrieve_context_caught (query : pystr) (k : Z) (st st' : @State X)
    (e : exn) :
  retrieve_context_try query k st = (Raise e, st') ->
  is_Exception e = true ->
  retrieve_context query k st
  = (Ok [], {| attrs := st'.(attrs);
               ui := st'.(ui) ++ [st_error (lit "Error retrieving context: "
                                              ++ str_of_exn e)];
               services := st'.(services) |}).
Proof.
  intros Htry He. unfold retrieve_context, try_except. by rewrite Htry, He.
Qed.

Lemma retrieve_context_passed (query : pystr) (k : Z) (st st' : @State X)
    (e : exn) :
  retrieve_context_try query k st = (Raise e, st') ->
  is_Exception e = false ->
  retrieve_context query k st = (Raise e, st').
Proof.
  intros Htry He. unfold retrieve_context, try_except. by rewrite Htry, He.
Qed.

(** The [try] block of [retrieve_context] shows nothing. *)
Lemma retrieve_context_try_silent (query : pystr) (k : Z) (st : @State X) :
  (retrieve_context_try query k st).2.(ui) = st.(ui).
Proof.
  unfold retrieve_context_try, getattr, mbind, M_bind, bind, get.
  cbn [fst snd]. destruct (attrs st !! "embedding_model"%string) as [model|];
    [|done].
  cbn [ret]. destruct model; try done. cbn [method]. unfold call at 1.
  destruct (model_encode [query] (services st)) as [[[|v vs]|e|] s1];
    try done.
  cbn [ret attrs fst snd].
  destruct (attrs st !! "qdrant_client"%string) as [client|]; [|done].
  cbn [ret]. destruct client; try done. cbn [method]. unfold call.
  cbn [services]. by destruct (client_search QDRANT_COLLECTION v k s1)
    as [[hits|e|] s2].
Qed.

(** A flow whose retrieval raised past the handler ends with that
    exception. *)
Lemma answer_query_raised (query : pystr) (st st' : @State X) (e : exn) :
  retrieve_context query RETRIEVER_K
    {| attrs := st.(attrs);
       ui := st.(ui) ++ [st_spinner (lit "Searching for relevant information...")];
       services := st.(services) |} = (Raise e, st') ->
  answer_query query st = (Raise e, st').
Proof.
  intros Hret. unfold answer_query, mbind, M_bind.
  unfold bind at 1. unfold show at 1, modify at 1.
  unfold bind at 1. by rewrite Hret.
Qed.

Lemma retrieve_context_returned (query : pystr) (k : Z) (st st' : @State X)
    (contexts : list Context) :
  retrieve_context_try query k st = (Ok contexts, st') ->
  retrieve_context query k st = (Ok contexts, st').
Proof.
  intros Htry. unfold retrieve_context, try_except. by rewrite Htry.
Qed.

(** An empty result, whatever its origin, ends the flow with the warning
    and without a call of the chat model. *)
Lemma answer_query_empty (query : pystr) (st st' : @State X) :
  retrieve_context query RETRIEVER_K
    {| attrs := st.(attrs);
       ui := st.(ui) ++ [st_spinner (lit "Searching for relevant information...")];
       services := st.(services) |} = (Ok [], st') ->
  answer_query query st
  = (Ok tt, {| attrs := st'.(attrs);
               ui := st'.(ui) ++ [st_warning no_information];
               services := st'.(services) |}).
Proof.
  intros Hret. unfold answer_query, mbind, M_bind.
  unfold bind at 1. unfold show at 1, modify at 1.
  unfold bind at 1. by rewrite Hret.
Qed.

End AppFacts.

(** ** Claims about the query engine *)

(** C4. A failure during retrieval is surfaced: when the [try] block of
    [retrieve_context] raises [e] (while embedding the query or while
    searching), the query flow shows [Error retrieving context: e] with
    [st.error] before the warning [No relevant information found ...] if
    [e] is an [Exception], and ends with [e] itself otherwise. It is never
    turned into an outcome that looks like a search without results: a
    flow whose search finds nothing, started after the same display,
    shows the warning only, so what the two flows leave on the page, or
    how they end, differs. *)
Theorem retrieval_failure_is_surfaced {X : Type} `{App.External X}
    (query : pystr) (st st' : @App.State X) (e : exn) :
  let searching :=
    App.st_spinner (lit "Searching for relevant information...") in
  App.retrieve_context_try query App.RETRIEVER_K (AppInv.shown [searching] st)
    = (Raise e, st') ->
  let failed := App.answer_query query st in
  (if is_Exception e
   then failed
        = (Ok tt,
           AppInv.shown
             [App.st_error (lit "Error retrieving context: " ++ str_of_exn e);
              App.st_warning App.no_information] st')
   else failed = (Raise e, st'))
  /\ st'.(App.ui) = st.(App.ui) ++ [searching]
  /\ (forall st0 st0' : @App.State X,
        st0.(App.ui) = st.(App.ui) ->
        App.retrieve_context_try query App.RETRIEVER_K
          (AppInv.shown [searching] st0) = (Ok [], st0') ->
        let empty := App.answer_query query st0 in
        empty = (Ok tt, AppInv.shown [App.st_warning App.no_information] st0')
        /\ empty.2.(App.ui)
           = st.(App.ui) ++ [searching; App.st_warning App.no_information]
        /\ (failed.1, failed.2.(App.ui)) <> (empty.1, empty.2.(App.ui))).
Proof.
  intros searching Htry failed.
  pose proof (retrieve_context_try_silent query App.RETRIEVER_K
                (AppInv.shown [searching] st)) as Hui.
  rewrite Htry in Hui. cbn [snd AppInv.shown App.ui] in Hui.
  assert (Hfailed :
    if is_Exception e
    then failed
         = (Ok tt,
            AppInv.shown
              [App.st_error (lit "Error retrieving context: " ++ str_of_exn e);
               App.st_warning App.no_information] st')
    else failed = (Raise e, st')).
  { subst failed. destruct (is_Exception e) eqn:He.
    - pose proof (retrieve_context_caught _ _ _ _ _ Htry He) as Hret.
      rewrite (answer_query_empty _ _ _ Hret). unfold AppInv.shown. simpl.
      by rewrite <- app_assoc.
    - apply answer_query_raised. by apply retrieve_context_passed. }
  split; [exact Hfailed|]. split; [exact Hui|].
  intros st0 st0' Hsame Hempty empty.
  pose proof (retrieve_context_try_silent query App.RETRIEVER_K
                (AppInv.shown [searching] st0)) as Hui0.
  rewrite Hempty in Hui0. cbn [snd AppInv.shown App.ui] in Hui0.
  assert (Hrun : empty
    = (Ok tt, AppInv.shown [App.st_warning App.no_information] st0')).
  { subst empty. apply answer_query_empty.
    by apply retrieve_context_returned. }
  split; [exact Hrun|]. rewrite Hrun. cbn [fst snd AppInv.shown App.ui].
  rewrite Hui0, Hsame, <- app_assoc. split; [done|].
  destruct (is_Exception e); rewrite Hfailed; [|done].
  cbn [fst snd AppInv.shown App.ui]. rewrite Hui, <- app_assoc.
  intros [= Heq]. apply app_inv_head in Heq. discriminate.
Qed.

Lemma retrieval_failure_is_surfaced_witness :
  let searching :=
    App.st_spinner (lit "Searching for relevant information...") in
  let st := AppSim.app AppSim.broken_search in
  let e := Exception "ConnectionError" (lit "connection refused") in
  let st' := AppInv.shown [searching] st in
  let failed := App.answer_query AppSim.question st in
  (if is_Exception e
   then failed
        = (Ok tt,
           AppInv.shown
             [App.st_error (lit "Error retrieving context: " ++ str_of_exn e);
              App.st_warning App.no_information] st')
   else failed = (Raise e, st'))
  /\ st'.(App.ui) = st.(App.ui) ++ [searching]
  /\ (forall st0 st0' : @App.State AppSim.Service,
        st0.(App.ui) = st.(App.ui) ->
        App.retrieve_context_try AppSim.question App.RETRIEVER_K
          (AppInv.shown [searching] st0) = (Ok [], st0') ->
        let empty := App.answer_query AppSim.question st0 in
        empty = (Ok tt, AppInv.shown [App.st_warning App.no_information] st0')
        /\ empty.2.(App.ui)
           = st.(App.ui) ++ [searching; App.st_warning App.no_information]
        /\ (failed.1, failed.2.(App.ui)) <> (empty.1, empty.2.(App.ui))).
Proof.
  apply (retrieval_failure_is_surfaced AppSim.question
           (AppSim.app AppSim.broken_search)
           (AppInv.shown
              [App.st_spinner (lit "Searching for relevant information...")]
              (AppSim.app AppSim.broken_search))
           (Exception "ConnectionError" (lit "connection refused"))).
  vm_compute. reflexivity.
Defined.

(** C5, at the inputs where the code fails. When [GROQ_API_KEY] is
    missing, empty or the placeholder, the application object built by
    [__init__] has no attribute [llm] ([__init__] assigns [groq_client]
    instead), and [generate_response] raises [AttributeError] at its first
    line, for every query and every list of contexts, instead of returning
    the configuration message. *)
Theorem generate_response_without_key_raises {X : Type} `{App.External X}
    (env : gmap string pystr) (query : pystr) (context : list App.Context)
    (st0 st1 : @App.State X) (r : outcome unit) :
  st0.(App.attrs) !! "llm"%string = None ->
  Unset.no_usable_key env ->
  App.DisasterRAGApp_init env st0 = (r, st1) ->
  App.generate_response query context st1
  = (Raise (Exception "AttributeError"
              (lit "'DisasterRAGApp' object has no attribute 'llm'")), st1).
Proof.
  intros Hfresh Hkey Hinit.
  pose proof (unset_init env Hkey st0 Hfresh) as Hllm.
  rewrite Hinit in Hllm. simpl in Hllm.
  unfold App.generate_response, mbind, M_bind, bind.
  by rewrite (getattr_unset _ _ Hllm).
Qed.

Lemma generate_response_without_key_raises_witness :
  App.generate_response AppSim.question AppSim.one_context
    (App.DisasterRAGApp_init ∅ (AppSim.start AppSim.empty_store)).2
  = (Raise (Exception "AttributeError"
              (lit "'DisasterRAGApp' object has no attribute 'llm'")),
     (App.DisasterRAGApp_init ∅ (AppSim.start AppSim.empty_store)).2).
Proof.
  apply (generate_response_without_key_raises ∅ AppSim.question
           AppSim.one_context (AppSim.start AppSim.empty_store)
           (App.DisasterRAGApp_init ∅ (AppSim.start AppSim.empty_store)).2
           (App.DisasterRAGApp_init ∅ (AppSim.start AppSim.empty_store)).1).
  - reflexivity.
  - left. reflexivity.
  - by destruct (App.DisasterRAGApp_init _ _).
Defined.

(** With a key the same call returns the model's answer. *)
Example generate_response_with_key :
  (App.generate_response AppSim.question AppSim.one_context
     (AppSim.app AppSim.empty_store)).1 = Ok (lit "Store water.").
Proof. vm_compute. reflexivity. Qed.

(** * Further properties *)

(** ** What [chunk_text] returns *)

Section ChunkPieces.

Import Chunker Windows.

(** [s.strip()] is a piece of [s]. *)
Lemma strip_piece (s : pystr) : exists pre post, s = pre ++ strip s ++ post.
Proof.
  destruct (lstrip_suffix s) as [p Hp].
  destruct (lstrip_suffix (rev (lstrip s))) as [q Hq].
  exists p, (rev q). unfold strip, rstrip. rewrite Hp at 1. f_equal.
  rewrite <- rev_app_distr, <- Hq. by rewrite rev_involutive.
Qed.

(** A slice with bounds that are not negative is a piece of the list. *)
Lemma slice_piece (s : pystr) (lo hi : Z) :
  0 <= lo -> 0 <= hi -> exists pre post, s = pre ++ slice s lo hi ++ post.
Proof.
  intros Hlo Hhi. rewrite slice_nonneg by done.
  exists (take (Z.to_nat lo) s),
         (drop (Z.to_nat hi - Z.to_nat lo) (drop (Z.to_nat lo) s)).
  by rewrite take_drop, take_drop.
Qed.

Lemma piece_trans (s t u : pystr) :
  (exists pre post, s = pre ++ t ++ post) ->
  (exists pre post, t = pre ++ u ++ post) ->
  exists pre post, s = pre ++ u ++ post.
Proof.
  intros (p & q & ->) (p' & q' & ->). exists (p ++ p'), (q' ++ q).
  by rewrite <- !app_assoc.
Qed.

(** The chunk of the window at [start]: a stripped piece of the text of
    at most [chunk_size] characters. *)
Lemma stripped_chunk_piece (text : pystr) (chunk_size start : Z) :
  0 <= start -> 0 <= chunk_size ->
  let c := strip (raw_chunk text chunk_size start) in
  (exists pre post, text = pre ++ c ++ post)
  /\ strip c = c /\ len c <= chunk_size.
Proof.
  intros Hstart Hsize c. subst c.
  destruct (raw_chunk_prefix text chunk_size start) as [k Hk].
  split; [|split].
  - eapply piece_trans; [apply (slice_piece text start (start + chunk_size)); lia|].
    eapply piece_trans; [|apply strip_piece].
    exists [], k. exact Hk.
  - apply strip_idem.
  - etrans; [apply len_strip_le|].
    assert (len (raw_chunk text chunk_size start)
            <= len (window text chunk_size start)).
    { rewrite Hk, len_app. pose proof (len_nonneg k). lia. }
    unfold window in *. rewrite len_slice in * by lia. lia.
Qed.

End ChunkPieces.

(** X1. For every text and every [0 <= overlap < chunk_size], each chunk
    [chunk_text] returns is a contiguous piece of the text, copied
    verbatim, without leading or trailing whitespace, and has between 51
    and [chunk_size] characters. *)
Theorem chunk_text_returns_stripped_pieces (self : Chunker.DocumentProcessor)
    (text : pystr) (chunk_size overlap : option Z) (fuel : nat) :
  0 <= default self.(Chunker.overlap) overlap
    < default self.(Chunker.chunk_size) chunk_size ->
  (length text < fuel)%nat ->
  exists returned : list pystr,
    Chunker.chunk_text self fuel text chunk_size overlap = Some returned
    /\ (forall c, In c returned ->
          (exists pre post, text = pre ++ c ++ post)
          /\ strip c = c
          /\ 51 <= len c <= default self.(Chunker.chunk_size) chunk_size).
Proof.
  set (size := default _ chunk_size). set (ov := default _ overlap).
  intros Hvalid Hfuel.
  unfold Chunker.chunk_text. fold size ov.
  rewrite (chunk_loop_windows text size ov Hvalid) by (unfold len; lia).
  eexists. split; [reflexivity|]. simpl. intros c Hc.
  apply filter_In in Hc as [Hc Hlong].
  apply in_map_iff in Hc as (s & <- & Hs).
  apply list_elem_of_In, list_elem_of_lookup in Hs as [k Hk].
  apply window_starts_lookup in Hk as [Hk _]. cbv zeta in Hk.
  assert (0 <= s) by nia.
  destruct (stripped_chunk_piece text size s) as (Hpiece & Hstrip & Hlen);
    [lia..|].
  split; [exact Hpiece|]. split; [exact Hstrip|].
  unfold Chunker.long_enough in Hlong. rewrite Hstrip in Hlong.
  apply Z.ltb_lt in Hlong. lia.
Qed.

Lemma chunk_text_returns_stripped_pieces_witness :
  exists returned : list pystr,
    Chunker.chunk_text Chunker.DocumentProcessor_init 601 Fixtures.text_600
      None None = Some returned
    /\ (forall c, In c returned ->
          (exists pre post, Fixtures.text_600 = pre ++ c ++ post)
          /\ strip c = c
          /\ 51 <= len c <= 500).
Proof.
  apply (chunk_text_returns_stripped_pieces Chunker.DocumentProcessor_init
           Fixtures.text_600 None None 601).
  - simpl. lia.
  - simpl. lia.
Defined.


(** ** How many chunks, and where a window is cut *)

Section ChunkCount.

Import Chunker Windows.

(** The loop runs once per multiple of [step] below the length of the
    text. *)
Lemma length_window_starts (text : pystr) (chunk_size overlap : Z)
    (fuel : nat) :
  0 <= overlap < chunk_size -> (length text < fuel)%nat ->
  Z.of_nat (length (window_starts fuel (len text) (chunk_size - overlap) 0))
  = (len text + (chunk_size - overlap) - 1) / (chunk_size - overlap).
Proof.
  intros Hvalid Hfuel. set (step := chunk_size - overlap).
  set (starts := window_starts fuel (len text) step 0).
  assert (Hstep : 0 < step) by (unfold step; lia).
  pose proof (len_nonneg text) as Hn.
  destruct (decide (len text = 0)) as [He|Hne].
  - rewrite He. rewrite Z.div_small by lia.
    unfold starts. destruct fuel; [done|]. simpl. rewrite He. done.
  - (* the last start is the largest multiple of [step] below the length *)
    assert (Hlast : forall k : nat, (k < length starts)%nat ->
              Z.of_nat k * step < len text).
    { intros k Hk. destruct (lookup_lt_is_Some_2 starts k Hk) as [s Hs].
      apply (window_starts_lookup text chunk_size overlap) in Hs. lia. }
    assert (Hcover : exists k : nat,
              (k < length starts)%nat /\ len text - 1 < Z.of_nat k * step + step).
    { destruct (window_starts_cover text chunk_size overlap Hvalid fuel 0
                  (len text - 1)) as (s & Hs & Hr); [unfold len; lia|lia|].
      apply list_elem_of_lookup in Hs as [k Hk].
      exists k. split; [by eapply lookup_lt_Some|].
      apply (window_starts_lookup text chunk_size overlap) in Hk.
      fold step in Hr. lia. }
    destruct Hcover as (k & Hk & Hk').
    apply Z.div_unique with (r := len text + step - 1 - step * Z.of_nat (length starts)).
    + left. split.
      * destruct (length starts) as [|m] eqn:Hm; [lia|].
        specialize (Hlast m). nia.
      * assert (Z.of_nat k + 1 <= Z.of_nat (length starts)) by lia. nia.
    + lia.
Qed.

End ChunkCount.

(** X2. For every text and every [0 <= overlap < chunk_size], the loop of
    [chunk_text] produces exactly [ceil(len(text) / (chunk_size - overlap))]
    chunks, and [chunk_text] returns at most that many; an empty text gives
    none. *)
Theorem chunk_text_count (self : Chunker.DocumentProcessor)
    (text : pystr) (chunk_size overlap : option Z) (fuel : nat) :
  0 <= default self.(Chunker.overlap) overlap
    < default self.(Chunker.chunk_size) chunk_size ->
  (length text < fuel)%nat ->
  exists produced returned : list pystr,
    let step := default self.(Chunker.chunk_size) chunk_size
                - default self.(Chunker.overlap) overlap in
    Chunker.chunk_loop fuel text (default self.(Chunker.chunk_size) chunk_size)
      (default self.(Chunker.overlap) overlap) 0 [] = Some produced
    /\ Chunker.chunk_text self fuel text chunk_size overlap = Some returned
    /\ len produced = (len text + step - 1) / step
    /\ len returned <= (len text + step - 1) / step
    /\ (text = [] -> returned = []).
Proof.
  set (size := default _ chunk_size). set (ov := default _ overlap).
  intros Hvalid Hfuel. cbv zeta.
  unfold Chunker.chunk_text. fold size ov.
  rewrite (chunk_loop_windows text size ov Hvalid) by (unfold len; lia).
  eexists _, _. split; [reflexivity|]. split; [reflexivity|].
  simpl. pose proof (length_window_starts text size ov fuel Hvalid Hfuel) as Hlen.
  assert (Hprod : len (map (fun s => strip (Chunker.raw_chunk text size s))
                    (Windows.window_starts fuel (len text) (size - ov) 0))
                  = (len text + (size - ov) - 1) / (size - ov)).
  { unfold len at 1. by rewrite length_map. }
  split; [exact Hprod|]. split.
  - rewrite <- Hprod. unfold Chunker.keep_long.
    pose proof (List.filter_length_le Chunker.long_enough
                  (map (fun s => strip (Chunker.raw_chunk text size s))
                     (Windows.window_starts fuel (len text) (size - ov) 0)))
      as Hle.
    unfold len at 1 3. lia.
  - intros ->. destruct fuel; [simpl in Hfuel; lia|]. reflexivity.
Qed.

Lemma chunk_text_count_witness :
  exists produced returned : list pystr,
    let step := 500 - 50 in
    Chunker.chunk_loop 601 Fixtures.text_600 500 50 0 [] = Some produced
    /\ Chunker.chunk_text Chunker.DocumentProcessor_init 601 Fixtures.text_600
         None None = Some returned
    /\ len produced = (len Fixtures.text_600 + step - 1) / step
    /\ len returned <= (len Fixtures.text_600 + step - 1) / step
    /\ (Fixtures.text_600 = [] -> returned = []).
Proof.
  apply (chunk_text_count Chunker.DocumentProcessor_init Fixtures.text_600
           None None 601).
  - simpl. lia.
  - simpl. lia.
Defined.


Section SentenceCut.

Import Chunker Windows.

(** [rfind] returns [-1] when the character does not occur, and otherwise
    the position of its last occurrence. *)
Lemma rfind_from_spec (c : Z) (s : pystr) (i found : Z) :
  (rfind_from c s i found = found /\ Forall (fun x => x <> c) s)
  \/ (i <= rfind_from c s i found < i + len s
      /\ s !! Z.to_nat (rfind_from c s i found - i) = Some c
      /\ forall j : nat, (Z.to_nat (rfind_from c s i found - i) < j)%nat ->
                         s !! j <> Some c).
Proof.
  revert i found. induction s as [|x s IH]; intros i found; [by left|].
  simpl. destruct (IH (i + 1) (if x =? c then i else found))
    as [[Hr Hall]|(Hr & Hat & Hafter)].
  - rewrite Hr. destruct (Z.eqb_spec x c) as [->|Hne].
    + right. unfold len. simpl. split; [lia|].
      rewrite Z.sub_diag. simpl. split; [done|].
      intros [|j] Hj; [lia|]. simpl. intros Hc.
      eapply Forall_lookup_1 in Hall; [|exact Hc]. done.
    + left. split; [done|]. by constructor.
  - right. set (r := rfind_from c s (i + 1) _) in *.
    unfold len in *. simpl length.
    replace (Z.to_nat (r - i)) with (S (Z.to_nat (r - (i + 1)))) by lia.
    split; [lia|]. split; [exact Hat|].
    intros [|j] Hj; [lia|]. simpl. apply Hafter. lia.
Qed.

Lemma rfind_spec (s : pystr) (c : Z) :
  (rfind s c = -1 /\ Forall (fun x => x <> c) s)
  \/ (0 <= rfind s c < len s
      /\ s !! Z.to_nat (rfind s c) = Some c
      /\ forall j : nat, (Z.to_nat (rfind s c) < j)%nat -> s !! j <> Some c).
Proof.
  unfold rfind. destruct (rfind_from_spec c s 0 (-1)) as [H|H]; [by left|].
  right. by rewrite Z.sub_0_r in H.
Qed.

(** No occurrence of [c] lies beyond a position at or after [rfind]. *)
Lemma rfind_last (s : pystr) (c : Z) (j : nat) :
  rfind s c < Z.of_nat j -> s !! j <> Some c.
Proof.
  intros Hj. destruct (rfind_spec s c) as [[_ Hall]|(Hr & _ & Hafter)].
  - intros Hc. eapply Forall_lookup_1 in Hall; [|exact Hc]. done.
  - apply Hafter. lia.
Qed.

End SentenceCut.

(** X3. With the default [chunk_size] of 500, what an iteration of the
    chunking loop appends (before [strip]) is either its whole window or
    the window cut just after its last sentence terminator: then it ends
    with [.], [!] or [?], keeps more than 351 characters of the window,
    and the part cut off holds no sentence terminator. *)
Theorem raw_chunk_cut_at_last_terminator (text : pystr) (start : Z) :
  let window := Windows.window text 500 start in
  let chunk := Chunker.raw_chunk text 500 start in
  chunk = window
  \/ exists L : nat,
       350 < Z.of_nat L < len window
       /\ start + 500 < len text
       /\ chunk = take (S L) window
       /\ (exists t, window !! L = Some t
             /\ (t = Chunker.period \/ t = Chunker.exclaim
                 \/ t = Chunker.question))
       /\ (forall (j : nat) t, (L < j)%nat -> window !! j = Some t ->
             t <> Chunker.period /\ t <> Chunker.exclaim
             /\ t <> Chunker.question).
Proof.
  cbv zeta. unfold Chunker.raw_chunk. fold (Windows.window text 500 start).
  set (w := Windows.window text 500 start).
  destruct (Z.ltb_spec (start + 500) (len text)) as [Hmore|Hend]; [|by left].
  rewrite break_at_sentence_default. cbv zeta.
  set (p := rfind w Chunker.period). set (e := rfind w Chunker.exclaim).
  set (q := rfind w Chunker.question).
  destruct (Z.ltb_spec 350 (Z.max (Z.max p e) q)) as [Hcut|Hkeep]; [|by left].
  right. set (L := Z.max (Z.max p e) q) in *.
  assert (Hwhich : exists t, (t = Chunker.period \/ t = Chunker.exclaim
                              \/ t = Chunker.question) /\ L = rfind w t).
  { destruct (Z.max_spec (Z.max p e) q) as [[_ Hq]|[_ Hpe]].
    - exists Chunker.question. split; [tauto|]. unfold L. by rewrite Hq.
    - destruct (Z.max_spec p e) as [[_ He]|[_ Hp]].
      + exists Chunker.exclaim. split; [tauto|]. unfold L. by rewrite Hpe, He.
      + exists Chunker.period. split; [tauto|]. unfold L. by rewrite Hpe, Hp. }
  destruct Hwhich as (t & Ht & HL).
  destruct (rfind_spec w t) as [[Hnone _]|(Hr & Hat & _)]; [lia|].
  rewrite <- HL in Hr, Hat.
  exists (Z.to_nat L). split; [lia|]. split; [done|]. split.
  { rewrite slice_nonneg by lia. simpl. rewrite drop_0. f_equal. lia. }
  split; [by exists t|].
  intros j t' Hj Hw. repeat split; intros ->.
  - apply (rfind_last w Chunker.period j); [fold p; lia|done].
  - apply (rfind_last w Chunker.exclaim j); [fold e; lia|done].
  - apply (rfind_last w Chunker.question j); [fold q; lia|done].
Qed.


(** ** What the loop covers, and where it cuts *)

Section Threshold.

Import Windows.

Lemma binary_round_aux_not_negative (m e : Z) (l : location) :
  not_negative (binary_round_aux prec emax false m e l).
Proof.
  unfold binary_round_aux.
  destruct (shr_fexp prec emax m e l) as [mrs' e'].
  destruct (shr_fexp prec emax _ e' loc_Exact) as [mrs'' e''].
  destruct (shr_m mrs''); [done| |done].
  by destruct (e'' <=? emax - prec).
Qed.

Lemma binary_round_not_negative (m : positive) (e : Z) :
  not_negative (binary_round prec emax false m e).
Proof.
  unfold binary_round. destruct (shl_align _ _ _) as [mz ez].
  apply binary_round_aux_not_negative.
Qed.

Lemma binary_normalize_not_negative (n : Z) :
  0 <= n -> not_negative (binary_normalize prec emax n 0 false).
Proof.
  intros Hn. destruct n as [|m|m]; [done| |lia].
  apply binary_round_not_negative.
Qed.

Lemma ldexp_not_negative (f : float) (e : Z) :
  not_negative (Prim2SF f) -> not_negative (Prim2SF (Z.ldexp f e)).
Proof.
  intros Hf. unfold Z.ldexp. rewrite ldshiftexp_spec. unfold SFldexp.
  destruct (Prim2SF f) as [| | |sx mx ex]; try done.
  simpl in Hf. subst sx. apply binary_round_not_negative.
Qed.

Lemma SF2Prim_not_negative (x : spec_float) :
  not_negative x -> not_negative (Prim2SF (SF2Prim x)).
Proof.
  intros Hx. destruct x as [[]|[]| |[] m e]; try done.
  cbn [SF2Prim]. apply ldexp_not_negative. rewrite of_uint63_spec.
  apply binary_normalize_not_negative.
  apply Uint63.to_Z_bounded.
Qed.

Lemma float_of_int_not_negative (n : Z) :
  0 <= n -> not_negative (Prim2SF (float_of_int n)).
Proof.
  intros Hn. apply SF2Prim_not_negative.
  by apply binary_normalize_not_negative.
Qed.

Lemma mul_f0_7_not_negative (f : float) :
  not_negative (Prim2SF f) -> not_negative (Prim2SF (f * f0_7)).
Proof.
  intros Hf. rewrite mul_spec.
  replace (Prim2SF f0_7) with (S754_finite false 6305039478318694 (-53))
    by (vm_compute; reflexivity).
  unfold SF64mul, SFmul. destruct (Prim2SF f) as [sx|sx| |sx mx ex]; try done.
  - simpl in Hf. by subst sx.
  - simpl in Hf. subst sx. apply binary_round_aux_not_negative.
Qed.

(** An offset of [-1], for no terminator found, is never above the
    threshold. *)
Lemma negative_below_threshold (n chunk_size : Z) :
  n < 0 -> 0 <= chunk_size ->
  int_gt_float n (float_of_int chunk_size * f0_7) = false.
Proof.
  intros Hn Hsize.
  pose proof (mul_f0_7_not_negative _
                (float_of_int_not_negative chunk_size Hsize)) as Hsign.
  unfold int_gt_float.
  destruct (Prim2SF (float_of_int chunk_size * f0_7)) as [s|s| |s m e];
    simpl in Hsign; subst; try done.
  - apply Z.ltb_ge. lia.
  - destruct (0 <=? e) eqn:He; apply Z.ltb_ge.
    + apply Z.leb_le in He. pose proof (Z.pow_nonneg 2 e). nia.
    + apply Z.leb_gt in He. pose proof (Z.pow_pos_nonneg 2 (- e)). nia.
Qed.

End Threshold.

Section Cut.

Import Chunker Windows.

(** [rfind] of a terminator stays at or below the last terminator. *)
Lemma rfind_le_last (w : pystr) (L : nat) (t : Z) :
  last_terminator w L -> terminator t -> rfind w t <= Z.of_nat L.
Proof.
  intros [_ Hlast] Ht.
  destruct (rfind_spec w t) as [[-> _]|(Hr & Hat & _)]; [lia|].
  destruct (Z_le_gt_dec (rfind w t) (Z.of_nat L)) as [|Hgt]; [done|].
  exfalso. apply (Hlast (Z.to_nat (rfind w t)) t); [lia|done..].
Qed.

(** The largest of the three [rfind]s is the offset of the last
    terminator. *)
Lemma last_sentence_end_is_last (w : pystr) (L : nat) :
  last_terminator w L ->
  Z.max (Z.max (rfind w period) (rfind w exclaim)) (rfind w question)
  = Z.of_nat L.
Proof.
  intros Hlast.
  pose proof (rfind_le_last w L period Hlast) as Hp.
  pose proof (rfind_le_last w L exclaim Hlast) as He.
  pose proof (rfind_le_last w L question Hlast) as Hq.
  unfold terminator in Hp, He, Hq.
  specialize (Hp ltac:(tauto)). specialize (He ltac:(tauto)).
  specialize (Hq ltac:(tauto)).
  destruct Hlast as [(t & Hat & Ht) _].
  assert (Hge : Z.of_nat L <= rfind w t).
  { destruct (Z_le_gt_dec (Z.of_nat L) (rfind w t)) as [|Hlt]; [done|].
    exfalso. apply (rfind_last w t L); [lia|done]. }
  destruct Ht as [->|[->| ->]]; lia.
Qed.

(** Without a terminator the three [rfind]s are [-1]. *)
Lemma last_sentence_end_none (w : pystr) :
  (forall t, In t w -> ~ terminator t) ->
  Z.max (Z.max (rfind w period) (rfind w exclaim)) (rfind w question) = -1.
Proof.
  intros Hnone.
  assert (Hr : forall t, terminator t -> rfind w t = -1).
  { intros t Ht. destruct (rfind_spec w t) as [[-> _]|(_ & Hat & _)]; [done|].
    exfalso. apply (Hnone t); [|done].
    apply list_elem_of_In. by eapply list_elem_of_lookup_2. }
  unfold terminator in Hr.
  rewrite (Hr period), (Hr exclaim), (Hr question) by tauto. done.
Qed.

(** Where an iteration cuts its window. *)
Lemma raw_chunk_cut (text : pystr) (chunk_size start : Z) :
  0 <= chunk_size ->
  let w := window text chunk_size start in
  let raw := raw_chunk text chunk_size start in
  (len text <= start + chunk_size -> raw = w)
  /\ ((forall t, In t w -> ~ terminator t) -> raw = w)
  /\ (forall L : nat,
        last_terminator w L -> start + chunk_size < len text ->
        raw = if int_gt_float (Z.of_nat L) (float_of_int chunk_size * f0_7)
              then take (S L) w else w).
Proof.
  intros Hsize w raw. split; [apply raw_chunk_at_end|]. split.
  - intros Hnone. subst raw. unfold raw_chunk. fold (window text chunk_size start).
    fold w. destruct (_ <? len text); [|done].
    unfold break_at_sentence. cbv zeta.
    rewrite (last_sentence_end_none w Hnone).
    by rewrite negative_below_threshold by lia.
  - intros L Hlast Hmore. subst raw. unfold raw_chunk.
    fold (window text chunk_size start). fold w.
    destruct (Z.ltb_spec (start + chunk_size) (len text)); [|lia].
    unfold break_at_sentence. cbv zeta.
    rewrite (last_sentence_end_is_last w L Hlast).
    destruct (int_gt_float _ _); [|done].
    rewrite slice_nonneg by lia. simpl. rewrite drop_0. f_equal. lia.
Qed.

Lemma lstrip_whitespace (s : pystr) :
  exists p, s = p ++ lstrip s /\ Forall (fun c => isspace c = true) p.
Proof.
  induction s as [|c s (p & IH & Hp)]; [by exists []|]. simpl.
  destruct (isspace c) eqn:Hc; [|by exists []].
  exists (c :: p). split; [simpl; by f_equal|by constructor].
Qed.

(** [strip] removes whitespace at both ends, and all of it. *)
Lemma strip_whitespace (s : pystr) :
  exists pre post,
    s = pre ++ strip s ++ post
    /\ Forall (fun c => isspace c = true) pre
    /\ Forall (fun c => isspace c = true) post
    /\ (forall c t, strip s = c :: t -> isspace c = false)
    /\ (forall t c, strip s = t ++ [c] -> isspace c = false).
Proof.
  destruct (lstrip_whitespace s) as (pre & Hs & Hpre).
  destruct (lstrip_whitespace (rev (lstrip s))) as (q & Hq & Hqs).
  assert (Hl : lstrip s = strip s ++ rev q).
  { unfold strip, rstrip. rewrite <- rev_app_distr, <- Hq.
    by rewrite rev_involutive. }
  exists pre, (rev q). split; [by rewrite <- Hl|]. split; [done|].
  split; [by apply List.Forall_rev|]. split.
  - intros c t Hc. rewrite Hc in Hl. by apply lstrip_head in Hl.
  - intros t c Hc. unfold strip, rstrip in Hc.
    apply (f_equal (@rev Z)) in Hc.
    rewrite rev_involutive, rev_app_distr in Hc. simpl in Hc.
    by apply lstrip_head in Hc.
Qed.

(** The loop visits every multiple of the step below the length of the
    text. *)
Lemma window_starts_complete (text : pystr) (chunk_size overlap : Z)
    (fuel : nat) (k : nat) :
  0 <= overlap < chunk_size -> (length text < fuel)%nat ->
  Z.of_nat k * (chunk_size - overlap) < len text ->
  window_starts fuel (len text) (chunk_size - overlap) 0 !! k
  = Some (Z.of_nat k * (chunk_size - overlap)).
Proof.
  intros Hvalid Hfuel Hk.
  pose proof (length_window_starts text chunk_size overlap fuel Hvalid Hfuel)
    as Hlen.
  set (step := chunk_size - overlap) in *.
  assert (Hlt : (k < length (window_starts fuel (len text) step 0))%nat).
  { assert (Z.of_nat k + 1 <= (len text + step - 1) / step); [|lia].
    apply Z.div_le_lower_bound; lia. }
  destruct (lookup_lt_is_Some_2 _ _ Hlt) as [s Hs]. rewrite Hs.
  apply (window_starts_lookup text chunk_size overlap) in Hs. f_equal. lia.
Qed.

End Cut.

(** C2, as the code has it. For every non-empty text and every
    [0 <= overlap < chunk_size], [chunk_text] scans the windows
    [text[s : s + chunk_size]] at exactly the starts
    [s = 0, step, 2 * step, ...] below [len(text)], with
    [step = chunk_size - overlap]. The windows lose nothing and keep the
    order: every character of the text is a character of some window, at
    its offset from the window's start, and concatenating the windows
    without the first [overlap] characters of each window after the first
    gives back the text. The loop produces one chunk per window, in order.
    What it takes from a window is the whole window when the window
    reaches the end of the text or holds no sentence terminator; otherwise,
    with the last terminator at offset [L], it is the window up to and
    including that terminator when [L > chunk_size * 0.7], and the whole
    window when not. The chunk is that text without the whitespace at its
    two ends. [chunk_text] returns, in order, the produced chunks of more
    than 50 characters. *)
Theorem chunk_text_windows_cover_text (self : Chunker.DocumentProcessor)
    (text : pystr) (chunk_size overlap : option Z) (fuel : nat) :
  text <> [] ->
  0 <= default self.(Chunker.overlap) overlap
    < default self.(Chunker.chunk_size) chunk_size ->
  (length text < fuel)%nat ->
  exists starts : list Z,
    let size := default self.(Chunker.chunk_size) chunk_size in
    let ov := default self.(Chunker.overlap) overlap in
    let window := Windows.window text size in
    let raw := Chunker.raw_chunk text size in
    let produced := map (fun s => strip (raw s)) starts in
    (forall (k : nat) s, starts !! k = Some s <->
        s = Z.of_nat k * (size - ov) /\ s < len text)
    /\ (forall (i : nat) c, text !! i = Some c ->
          exists s, In s starts /\ s <= Z.of_nat i
            /\ window s !! Z.to_nat (Z.of_nat i - s) = Some c)
    /\ Windows.glue ov (map window starts) = text
    /\ Chunker.chunk_loop fuel text size ov 0 [] = Some produced
    /\ (forall s, In s starts ->
          (len text <= s + size -> raw s = window s)
          /\ ((forall t, In t (window s) -> ~ Windows.terminator t) ->
                raw s = window s)
          /\ (forall L : nat,
                Windows.last_terminator (window s) L -> s + size < len text ->
                raw s = if int_gt_float (Z.of_nat L)
                             (float_of_int size * f0_7)
                        then take (S L) (window s) else window s)
          /\ exists pre post,
               raw s = pre ++ strip (raw s) ++ post
               /\ Forall (fun c => isspace c = true) pre
               /\ Forall (fun c => isspace c = true) post
               /\ (forall c t, strip (raw s) = c :: t -> isspace c = false)
               /\ (forall t c, strip (raw s) = t ++ [c] -> isspace c = false))
    /\ Chunker.chunk_text self fuel text chunk_size overlap
       = Some (List.filter (fun c => 50 <? len c) produced).
Proof.
  set (size := default _ chunk_size). set (ov := default _ overlap).
  intros Hne Hvalid Hfuel.
  set (starts := Windows.window_starts fuel (len text) (size - ov) 0).
  exists starts. cbv zeta.
  assert (Hloop : Chunker.chunk_loop fuel text size ov 0 []
            = Some (map (fun s => strip (Chunker.raw_chunk text size s)) starts)).
  { by rewrite (chunk_loop_windows text size ov Hvalid) by (unfold len; lia). }
  assert (Hlook : forall (k : nat) s, starts !! k = Some s ->
            s = Z.of_nat k * (size - ov) /\ s < len text).
  { intros k s Hk. apply window_starts_lookup in Hk. cbv zeta in Hk.
    split; lia. }
  split; [|split; [|split; [|split; [exact Hloop|split]]]].
  - intros k s. split; [apply Hlook|]. intros [-> Hk].
    by apply window_starts_complete.
  - intros i c Hi.
    assert (Hlt : (i < length text)%nat) by (by eapply lookup_lt_Some).
    destruct (window_starts_cover text size ov Hvalid fuel 0 (Z.of_nat i))
      as (s & Hs & Hr); [unfold len; lia|unfold len; lia|].
    fold starts in Hs. exists s. split; [by apply list_elem_of_In|].
    split; [lia|].
    assert (0 <= s).
    { apply list_elem_of_lookup in Hs as [k Hk]. apply Hlook in Hk. nia. }
    unfold Windows.window. rewrite slice_nonneg by lia.
    rewrite lookup_take_lt by lia. rewrite lookup_drop.
    rewrite <- Hi. f_equal. lia.
  - unfold starts. destruct fuel as [|fuel]; [lia|]. simpl.
    destruct (Z.ltb_spec 0 (len text)) as [_|He].
    + simpl. rewrite map_map.
      rewrite (window_starts_glue text size ov Hvalid)
        by (unfold len; lia).
      unfold Windows.window. rewrite slice_nonneg by lia.
      simpl. rewrite drop_0, Nat.sub_0_r.
      replace (Z.to_nat (0 + (size - ov) + ov)) with (Z.to_nat (0 + size))
        by lia.
      apply take_drop.
    + destruct text; [done|]. unfold len in He. simpl in He. lia.
  - intros s _.
    destruct (raw_chunk_cut text size s) as (Hend & Hnone & Hcut); [lia|].
    split; [exact Hend|]. split; [exact Hnone|]. split; [exact Hcut|].
    apply strip_whitespace.
  - unfold Chunker.chunk_text. fold size ov. rewrite Hloop. simpl. f_equal.
    rewrite <- (map_map (Chunker.raw_chunk text size) strip).
    apply keep_long_stripped.
Qed.

Lemma chunk_text_windows_cover_text_witness :
  exists starts : list Z,
    let text := Fixtures.text_600 in
    let size := 500 in
    let ov := 50 in
    let window := Windows.window text size in
    let raw := Chunker.raw_chunk text size in
    let produced := map (fun s => strip (raw s)) starts in
    (forall (k : nat) s, starts !! k = Some s <->
        s = Z.of_nat k * (size - ov) /\ s < len text)
    /\ (forall (i : nat) c, text !! i = Some c ->
          exists s, In s starts /\ s <= Z.of_nat i
            /\ window s !! Z.to_nat (Z.of_nat i - s) = Some c)
    /\ Windows.glue ov (map window starts) = text
    /\ Chunker.chunk_loop 601 text size ov 0 [] = Some produced
    /\ (forall s, In s starts ->
          (len text <= s + size -> raw s = window s)
          /\ ((forall t, In t (window s) -> ~ Windows.terminator t) ->
                raw s = window s)
          /\ (forall L : nat,
                Windows.last_terminator (window s) L -> s + size < len text ->
                raw s = if int_gt_float (Z.of_nat L)
                             (float_of_int size * f0_7)
                        then take (S L) (window s) else window s)
          /\ exists pre post,
               raw s = pre ++ strip (raw s) ++ post
               /\ Forall (fun c => isspace c = true) pre
               /\ Forall (fun c => isspace c = true) post
               /\ (forall c t, strip (raw s) = c :: t -> isspace c = false)
               /\ (forall t c, strip (raw s) = t ++ [c] -> isspace c = false))
    /\ Chunker.chunk_text Chunker.DocumentProcessor_init 601 text None None
       = Some (List.filter (fun c => 50 <? len c) produced).
Proof.
  apply (chunk_text_windows_cover_text Chunker.DocumentProcessor_init
           Fixtures.text_600 None None 601).
  - discriminate.
  - simpl. lia.
  - simpl. lia.
Defined.

(** C2 as stated fails. With the default parameters the first window of
    the 600-character text is cut after its full stop at index 360 and the
    next window starts at index 450: the returned chunks are the sentence
    and the 150 [c]s, and none of the 89 [b]s at indices 361 to 449 is in
    a returned chunk. A non-empty text of 50 letters returns no chunk at
    all. *)
Lemma chunk_text_loses_text :
  (exists returned,
     Chunker.chunk_text Chunker.DocumentProcessor_init 601 Fixtures.text_600
       None None = Some returned
     /\ returned = [repeat 97 360 ++ [46]; repeat 99 150]
     /\ Chunker.raw_chunk Fixtures.text_600 500 0 = slice Fixtures.text_600 0 361
     /\ Chunker.raw_chunk Fixtures.text_600 500 450
        = slice Fixtures.text_600 450 600
     /\ Fixtures.text_600 !! 400%nat = Some 98
     /\ forall c, In c returned -> ~ In 98 c)
  /\ Fixtures.text_50 <> []
  /\ Chunker.chunk_text Chunker.DocumentProcessor_init 51 Fixtures.text_50
       None None = Some [].
Proof.
  split; [|split; [discriminate|vm_compute; reflexivity]].
  exists [repeat 97 360 ++ [46]; repeat 99 150].
  split; [vm_compute; reflexivity|].
  split; [reflexivity|]. repeat split; try (vm_compute; reflexivity).
  intros c [<-|[<-|[]]] Hin.
  - apply in_app_or in Hin as [Hin|[Hin|[]]]; [|discriminate].
    apply repeat_spec in Hin. discriminate.
  - apply repeat_spec in Hin. discriminate.
Qed.

(** ** Relations kept by the monad's combinators *)

Section Respect.

Import Inv.

Context {S : Type} (Rel : S -> S -> Prop) `{!PreOrder Rel}.

Lemma respects_ret {A} (a : A) : respects Rel (ret a).
Proof. intros st. reflexivity. Qed.

Lemma respects_raise {A} (e : exn) : respects Rel (A:=A) (raise e).
Proof. intros st. reflexivity. Qed.

Lemma respects_modify (f : S -> S) :
  (forall st, Rel st (f st)) -> respects Rel (modify f).
Proof. intros Hf st. apply Hf. Qed.

Lemma respects_get : respects Rel get.
Proof. intros st. reflexivity. Qed.

Lemma respects_bind {A B} (m : M S A) (k : A -> M S B) :
  respects Rel m -> (forall a, respects Rel (k a)) -> respects Rel (bind m k).
Proof.
  intros Hm Hk st. unfold bind. specialize (Hm st).
  destruct (m st) as [[a|e|] st']; simpl in *; [|done..].
  etrans; [exact Hm|apply Hk].
Qed.

Lemma respects_mbind {A B} (m : M S A) (k : A -> M S B) :
  respects Rel m -> (forall a, respects Rel (k a)) -> respects Rel (m ≫= k).
Proof. apply respects_bind. Qed.

Lemma respects_try_except {A} (m : M S A) (handler : exn -> M S A) :
  respects Rel m -> (forall e, respects Rel (handler e)) ->
  respects Rel (try_except m handler).
Proof.
  intros Hm Hh st. unfold try_except. specialize (Hm st).
  destruct (m st) as [[a|e|] st']; simpl in *; [done| |done].
  destruct (is_Exception e); [|done]. etrans; [exact Hm|apply Hh].
Qed.

Lemma respects_try_except_all {A} (m : M S A) (handler : M S A) :
  respects Rel m -> respects Rel handler ->
  respects Rel (try_except_all m handler).
Proof.
  intros Hm Hh st. unfold try_except_all. specialize (Hm st).
  destruct (m st) as [[a|e|] st']; simpl in *; [done| |done].
  etrans; [exact Hm|apply Hh].
Qed.

Lemma respects_for_each {A} (l : list A) (body : A -> M S unit) :
  (forall x, respects Rel (body x)) -> respects Rel (for_each l body).
Proof.
  intros Hbody. induction l as [|x l IH]; [apply respects_ret|].
  simpl. apply respects_bind; [apply Hbody|done].
Qed.

End Respect.

(** ** What the ingestion run prints *)

Section Printed.

Import Inv Ingest.

Context {R : Type} `{External R}.

#[local] Instance same_stdout_preorder : PreOrder (same_stdout (R:=R)).
Proof.
  split; [by intros st|]. intros a b c Hab Hbc. unfold same_stdout in *.
  by rewrite Hbc.
Qed.

Lemma silent_call {A} (f : R -> outcome A * R) : respects same_stdout (call f).
Proof. intros st. unfold call. by destruct (f _). Qed.

Lemma silent_set_manager (f : QdrantManager -> QdrantManager) :
  respects (same_stdout (R:=R)) (set_manager f).
Proof. by intros st. Qed.

Lemma silent_self : respects (same_stdout (R:=R)) self.
Proof. by intros st. Qed.

Ltac silent :=
  repeat first
    [ apply silent_call | apply silent_set_manager | apply silent_self
    | apply respects_ret | apply respects_raise
    | apply respects_mbind | apply respects_bind | apply respects_try_except
    | apply respects_for_each | apply same_stdout_preorder | intros ? ].

Lemma silent_DocumentProcessor_init (model_name : pystr) :
  respects same_stdout (DocumentProcessor_init model_name).
Proof. unfold DocumentProcessor_init. silent. Qed.

Lemma silent_QdrantManager_init (env : gmap string pystr) :
  respects same_stdout (QdrantManager_init env).
Proof.
  unfold QdrantManager_init. apply respects_try_except; [apply _| |silent].
  apply respects_mbind; [apply _| |silent].
  destruct (env !! _) as [[|]|]; silent.
Qed.

Lemma silent_create_collection :
  respects (same_stdout (R:=R)) create_collection.
Proof.
  unfold create_collection. apply respects_mbind; [apply _|silent|]. intros m.
  destruct (use_local_storage m); [unfold set_embeddings_data; silent|].
  apply respects_try_except; [apply _| |silent].
  apply respects_mbind; [apply _|silent|]. intros names.
  apply respects_mbind; [apply _| |silent]. destruct (bool_decide _); silent.
Qed.

Lemma silent_upload_chunks (doc : Document) (chunks : list pystr)
    (embeddings : list (list float)) :
  respects same_stdout (upload_chunks doc chunks embeddings).
Proof.
  unfold upload_chunks. destruct (bool_decide _); [silent|].
  apply respects_mbind; [apply _|silent|]. intros m.
  destruct (use_local_storage m).
  - unfold _upload_chunks_local. apply respects_for_each; [apply _|].
    intros [i [chunk embedding]]. unfold _upload_chunks_local_body.
    destruct (Uuid.uuid5 _ _); [|silent]. unfold set_embeddings_data. silent.
  - unfold _upload_chunks_qdrant. apply respects_mbind; [apply _| |silent].
    intros st. by destruct (_upload_chunks_qdrant_points _ _ _ _) as [[]].
Qed.

(** The loop prints nothing and, when it returns, returns the total it
    was given plus the number of chunks of every document. *)
Lemma process_documents_total (fuel : nat)
    (processor : Chunker.DocumentProcessor) (documents : list Document)
    (total : Z) (st : @State R) :
  same_stdout st (process_documents fuel processor documents total st).2
  /\ forall total', (process_documents fuel processor documents total st).1
                    = Ok total' ->
       total' = total + chunk_total processor fuel documents.
Proof.
  revert total st.
  induction documents as [|doc documents IH]; intros total st.
  { split; [done|]. simpl. intros ? [= <-]. unfold chunk_total. simpl. lia. }
  simpl. unfold chunk_total. simpl. fold (chunk_total processor fuel documents).
  destruct (Chunker.chunk_text _ _ _ _ _) as [[|c cs]|]; simpl.
  - destruct (IH total st) as [Hout Htot]. split; [done|].
    intros total' Hrun. rewrite (Htot _ Hrun). unfold len. simpl. lia.
  - unfold mbind, M_bind, bind.
    pose proof (silent_call (model_encode (c :: cs)) st) as He.
    destruct (call (model_encode (c :: cs)) st) as [[embs|e|] st1];
      simpl in *; [|done..].
    pose proof (silent_upload_chunks doc (c :: cs) embs st1) as Hu.
    destruct (upload_chunks doc (c :: cs) embs st1) as [[[]|e|] st2];
      simpl in *; [|split; [by etrans|done]..].
    destruct (IH (total + len (c :: cs)) st2) as [Hout Htot].
    split; [unfold same_stdout in *; congruence|].
    intros total' Hrun. rewrite (Htot _ Hrun). lia.
  - done.
Qed.

End Printed.

(** X4. When [main] completes over [documents], it has printed exactly
    four lines, and the chunk count in the third is the number of chunks
    [chunk_text] gave over all documents: it counts chunks produced, in
    either mode, whether or not [upload_chunks] stored them (on a count
    mismatch it stores none). *)
Theorem main_reports_chunk_total {R : Type} `{Ingest.External R}
    (fuel : nat) (env : gmap string pystr)
    (documents : list Ingest.Document) (st st' : @Ingest.State R) :
  Ingest.main fuel env (Some documents) st = (Ok tt, st') ->
  st'.(Ingest.stdout)
  = st.(Ingest.stdout)
    ++ [10 :: lit "Processing completed!";
        lit "Total documents processed: " ++ str_of_int (len documents);
        lit "Total chunks uploaded to Qdrant: "
          ++ str_of_int (Inv.chunk_total Chunker.DocumentProcessor_init fuel
                           documents);
        lit "Collection name: " ++ Ingest.VECTOR_COLLECTION_NAME].
Proof.
  unfold Ingest.main, mbind, M_bind. intros Hmain.
  unfold bind at 1 in Hmain.
  pose proof (silent_DocumentProcessor_init Ingest.EMBEDDING_MODEL_NAME st) as H1.
  assert (Hproc : forall p st1,
            Ingest.DocumentProcessor_init Ingest.EMBEDDING_MODEL_NAME st
            = (Ok p, st1) -> p = Chunker.DocumentProcessor_init).
  { intros p st1. unfold Ingest.DocumentProcessor_init, mbind, M_bind, bind.
    destruct (Ingest.call _ st) as [[[]|e|] st0]; [|done..].
    by intros [= <- _]. }
  destruct (Ingest.DocumentProcessor_init _ st) as [[p|e|] st1] eqn:E1;
    [|done..].
  rewrite (Hproc p st1 eq_refl) in Hmain. clear Hproc.
  unfold bind at 1 in Hmain.
  pose proof (silent_QdrantManager_init env st1) as H2.
  destruct (Ingest.QdrantManager_init env st1) as [[[]|e|] st2]; [|done..].
  unfold bind at 1 in Hmain.
  pose proof (silent_create_collection st2) as H3.
  destruct (Ingest.create_collection st2) as [[[]|e|] st3]; [|done..].
  unfold bind at 1 in Hmain.
  destruct (process_documents_total fuel Chunker.DocumentProcessor_init
              documents 0 st3) as [H4 Htot].
  destruct (Ingest.process_documents _ _ _ _ st3) as [[total|e|] st4];
    [|done..].
  rewrite (Htot total eq_refl) in Hmain. simpl in H1, H2, H3, H4.
  unfold Inv.same_stdout in *.
  injection Hmain as <-. simpl.
  rewrite H4, H3, H2, H1. by rewrite <- !app_assoc.
Qed.

Lemma main_reports_chunk_total_witness :
  (Ingest.main 61 ∅ (Some [Sim.doc_a; Sim.doc_b]) (Sim.start Sim.offline)).2
    .(Ingest.stdout)
  = [] ++ [10 :: lit "Processing completed!";
           lit "Total documents processed: " ++ str_of_int 2;
           lit "Total chunks uploaded to Qdrant: "
             ++ str_of_int (Inv.chunk_total Chunker.DocumentProcessor_init 61
                              [Sim.doc_a; Sim.doc_b]);
           lit "Collection name: " ++ Ingest.VECTOR_COLLECTION_NAME].
Proof.
  apply (main_reports_chunk_total 61 ∅ [Sim.doc_a; Sim.doc_b]
           (Sim.start Sim.offline)
           (Ingest.main 61 ∅ (Some [Sim.doc_a; Sim.doc_b])
              (Sim.start Sim.offline)).2).
  vm_compute. reflexivity.
Defined.

(** ** What the manager's methods leave alone *)

Section Manager.

Import Inv Ingest.

Context {R : Type} `{External R}.

#[local] Instance same_mode_preorder : PreOrder same_mode.
Proof.
  split; [by intros m|]. intros a b c (? & ? & ?) (? & ? & ?).
  unfold same_mode. split; [congruence|split; congruence].
Qed.

#[local] Instance buffer_grows_preorder : PreOrder buffer_grows.
Proof.
  split; [by intros m|].
  intros a b c (Hab & Pab & Fab) (Hbc & Pbc & Fbc). split; [by etrans|].
  split; [by etrans|]. intros Ha.
  destruct Hab as (Hu & _). rewrite Fbc, Fab by congruence. done.
Qed.

#[local] Instance on_manager_preorder
    (P : QdrantManager -> QdrantManager -> Prop) `{!PreOrder P} :
  PreOrder (on_manager (R:=R) P).
Proof.
  split; [intros st; unfold on_manager; reflexivity|].
  intros a b c Hab Hbc. unfold on_manager in *. by etrans.
Qed.

Section Leaves.

Context (P : QdrantManager -> QdrantManager -> Prop) `{!PreOrder P}.

Lemma manager_call {A} (f : R -> outcome A * R) :
  respects (on_manager P) (call f).
Proof. intros st. unfold call, on_manager. destruct (f _). simpl. reflexivity. Qed.

Lemma manager_self : respects (on_manager (R:=R) P) self.
Proof. intros st. unfold on_manager. simpl. reflexivity. Qed.

Lemma manager_write_file (path : pystr) (data : list Point) :
  respects (on_manager (R:=R) P) (write_file path data).
Proof. intros st. unfold on_manager. simpl. reflexivity. Qed.

Lemma manager_set (f : QdrantManager -> QdrantManager) :
  (forall m, P m (f m)) -> respects (on_manager (R:=R) P) (set_manager f).
Proof. intros Hf st. unfold on_manager. simpl. apply Hf. Qed.

Lemma manager_create_embeddings (texts : list pystr) :
  respects (on_manager P) (create_embeddings texts).
Proof.
  unfold create_embeddings. destruct texts; [apply respects_ret|apply manager_call].
  apply _.
Qed.

End Leaves.

Ltac manager :=
  repeat first
    [ apply manager_call | apply manager_self | apply manager_write_file
    | apply respects_ret | apply respects_raise
    | apply respects_mbind | apply respects_bind | apply respects_try_except
    | apply respects_for_each | apply on_manager_preorder | apply _
    | intros ? ].

Lemma mode_create_collection :
  respects (on_manager (R:=R) same_mode) create_collection.
Proof.
  unfold create_collection. apply respects_mbind; [apply _|manager|]. intros m.
  destruct (use_local_storage m).
  - unfold set_embeddings_data. apply manager_set. by intros m'.
  - apply respects_try_except; [apply _| |manager].
    apply respects_mbind; [apply _|manager|]. intros names.
    apply respects_mbind; [apply _| |manager]. destruct (bool_decide _); manager.
Qed.

Lemma mode_save_local_storage :
  respects (on_manager (R:=R) same_mode) save_local_storage.
Proof.
  unfold save_local_storage. apply respects_mbind; [apply _|manager|].
  intros m. destruct (_ && _); manager.
Qed.

(** The local loop only appends to the buffer. *)
Lemma grows_upload_local (doc : Document) (chunks : list pystr)
    (embeddings : list (list float)) (st : @State R) :
  let m := st.(qdrant_manager) in
  let m' := (_upload_chunks_local doc chunks embeddings st).2.(qdrant_manager) in
  same_mode m m' /\ m.(embeddings_data) `prefix_of` m'.(embeddings_data).
Proof.
  set (P := fun m m' : QdrantManager =>
              same_mode m m' /\ embeddings_data m `prefix_of` embeddings_data m').
  assert (HP : PreOrder P).
  { split; [by intros m|]. intros a b c [? ?] [? ?]. split; by etrans. }
  change (on_manager (R:=R) P st
            (_upload_chunks_local doc chunks embeddings st).2).
  revert st. change (respects (on_manager (R:=R) P)
                       (_upload_chunks_local doc chunks embeddings)).
  unfold _upload_chunks_local. apply respects_for_each; [apply _|].
  intros [i [chunk embedding]]. unfold _upload_chunks_local_body.
  destruct (Uuid.uuid5 _ _); [|manager].
  intros st. unfold on_manager, P.
  split; [by split|]. by apply prefix_app_r.
Qed.

(** The remote path leaves the manager as it is. *)
Lemma fixed_upload_qdrant (doc : Document) (chunks : list pystr)
    (embeddings : list (list float)) (st : @State R) :
  (_upload_chunks_qdrant doc chunks embeddings st).2.(qdrant_manager)
  = st.(qdrant_manager).
Proof.
  set (P := fun m m' : QdrantManager => m' = m).
  assert (HP : PreOrder P).
  { split; [by intros m|]. intros a b c. unfold P. congruence. }
  change (on_manager (R:=R) P st
            (_upload_chunks_qdrant doc chunks embeddings st).2).
  revert st. change (respects (on_manager (R:=R) P)
                       (_upload_chunks_qdrant doc chunks embeddings)).
  unfold _upload_chunks_qdrant. apply respects_mbind; [apply _| |manager].
  intros st. unfold on_manager, P.
  by destruct (_upload_chunks_qdrant_points _ _ _ _) as [[]].
Qed.

Lemma self_bind {A} (k : QdrantManager -> M (@State R) A) (st : State) :
  (self ≫= k) st = k st.(qdrant_manager) st.
Proof. reflexivity. Qed.

Lemma grows_upload_chunks (doc : Document) (chunks : list pystr)
    (embeddings : list (list float)) :
  respects (on_manager buffer_grows) (upload_chunks doc chunks embeddings).
Proof.
  intros st. unfold upload_chunks.
  destruct (bool_decide _); [reflexivity|].
  rewrite self_bind.
  destruct (use_local_storage (qdrant_manager st)) eqn:Hmode.
  - destruct (grows_upload_local doc chunks embeddings st) as [Hm Hp].
    split; [exact Hm|]. split; [exact Hp|]. congruence.
  - pose proof (fixed_upload_qdrant doc chunks embeddings st) as Hfix.
    unfold on_manager. rewrite Hfix. reflexivity.
Qed.

Lemma grows_process_documents (fuel : nat)
    (processor : Chunker.DocumentProcessor) (documents : list Document)
    (total : Z) :
  respects (on_manager buffer_grows)
    (process_documents fuel processor documents total).
Proof.
  revert total.
  induction documents as [|doc documents IH]; intros total; [manager|].
  simpl. destruct (Chunker.chunk_text _ _ _ _ _) as [[|c cs]|];
    [done| |intros st; reflexivity].
  apply respects_mbind; [apply _|apply manager_create_embeddings; apply _|].
  intros embs.
  apply respects_mbind; [apply _|apply grows_upload_chunks|]. intros _. apply IH.
Qed.

End Manager.

(** X5. The mode chosen when the manager is created is permanent:
    [create_collection], [upload_chunks], [save_local_storage] and the
    whole loop over the documents leave [use_local_storage], the collection
    name and the storage file as they were, however they end. *)
Theorem mode_is_permanent {R : Type} `{Ingest.External R}
    (fuel : nat) (processor : Chunker.DocumentProcessor)
    (documents : list Ingest.Document) (total : Z) (doc : Ingest.Document)
    (chunks : list pystr) (embeddings : list (list float))
    (st : @Ingest.State R) :
  let m := st.(Ingest.qdrant_manager) in
  Inv.same_mode m (Ingest.create_collection st).2.(Ingest.qdrant_manager)
  /\ Inv.same_mode m
       (Ingest.upload_chunks doc chunks embeddings st).2.(Ingest.qdrant_manager)
  /\ Inv.same_mode m (Ingest.save_local_storage st).2.(Ingest.qdrant_manager)
  /\ Inv.same_mode m
       (Ingest.process_documents fuel processor documents total st).2
         .(Ingest.qdrant_manager).
Proof.
  cbv zeta. split; [apply mode_create_collection|].
  split; [apply (grows_upload_chunks doc chunks embeddings st)|].
  split; [apply mode_save_local_storage|].
  apply (grows_process_documents fuel processor documents total st).
Qed.

(** X6. The loop over the documents never removes or reorders buffered
    points: the buffer it leaves starts with the buffer it found, and in
    remote mode the buffer is not touched at all. The same holds for a
    single [upload_chunks]. *)
Theorem buffer_only_grows {R : Type} `{Ingest.External R}
    (fuel : nat) (processor : Chunker.DocumentProcessor)
    (documents : list Ingest.Document) (total : Z) (doc : Ingest.Document)
    (chunks : list pystr) (embeddings : list (list float))
    (st : @Ingest.State R) :
  let data (s : @Ingest.State R) :=
    s.(Ingest.qdrant_manager).(Ingest.embeddings_data) in
  let after_loop :=
    (Ingest.process_documents fuel processor documents total st).2 in
  let after_upload := (Ingest.upload_chunks doc chunks embeddings st).2 in
  data st `prefix_of` data after_loop
  /\ data st `prefix_of` data after_upload
  /\ (st.(Ingest.qdrant_manager).(Ingest.use_local_storage) = false ->
      data after_loop = data st /\ data after_upload = data st).
Proof.
  cbv zeta.
  destruct (grows_process_documents fuel processor documents total st)
    as (_ & Hp & Hf).
  destruct (grows_upload_chunks doc chunks embeddings st) as (_ & Hp' & Hf').
  split; [exact Hp|]. split; [exact Hp'|]. intros Hremote.
  split; [by apply Hf|by apply Hf'].
Qed.

(** ** The local buffer and the remote write *)

Section LocalBuffer.

Import Inv Ingest.

Context {R : Type} `{External R}.

(** With as many embeddings as chunks and a URL that can be encoded,
    [upload_chunks] in local mode appends the document's points, and in
    remote mode hands them to [upsert]. *)
Lemma upload_chunks_spec (doc : Document) (chunks : list pystr)
    (embeddings : list (list float)) :
  is_Some (Uuid.utf8 doc.(url)) -> length chunks = length embeddings ->
  exists ps : list Point,
    length ps = length chunks
    /\ _upload_chunks_qdrant_points doc chunks embeddings [] = (Ok tt, ps)
    /\ (forall st : @State R,
          st.(qdrant_manager).(use_local_storage) = true ->
          upload_chunks doc chunks embeddings st
          = set_embeddings_data (st.(qdrant_manager).(embeddings_data) ++ ps) st)
    /\ (forall st : @State R,
          st.(qdrant_manager).(use_local_storage) = false ->
          upload_chunks doc chunks embeddings st
          = try_except
              (call (client_upsert st.(qdrant_manager).(collection_name) ps))
              (fun e => raise e) st).
Proof.
  intros Hurl Hsame.
  destruct (upload_loops (R:=R) doc chunks (zip chunks embeddings) 0 Hurl)
    as (ps & Hloc & Hrem & Hlen & _); [lia|].
  exists ps. split.
  { rewrite Hlen. unfold zip. rewrite length_combine. lia. }
  split; [apply Hrem|].
  split; intros st Hmode; unfold upload_chunks;
    rewrite bool_decide_eq_false_2 by (unfold len; lia);
    rewrite self_bind, Hmode.
  - apply Hloc.
  - unfold _upload_chunks_qdrant, _upload_chunks_qdrant_points.
    unfold mbind, M_bind, bind. rewrite Hrem. reflexivity.
Qed.

Lemma create_collection_local (st : @State R) :
  st.(qdrant_manager).(use_local_storage) = true ->
  create_collection st = set_embeddings_data [] st.
Proof. intros Hmode. unfold create_collection. by rewrite self_bind, Hmode. Qed.

End LocalBuffer.

(** X7. The local path appends and never replaces: in local mode,
    uploading the same document a second time leaves two copies of each
    of its points in the buffer, so that point identifiers repeat. *)
Theorem local_upload_twice_duplicates {R : Type} `{Ingest.External R}
    (doc : Ingest.Document) (chunks : list pystr)
    (embeddings : list (list float)) (st : @Ingest.State R) :
  st.(Ingest.qdrant_manager).(Ingest.use_local_storage) = true ->
  is_Some (Uuid.utf8 doc.(Ingest.url)) ->
  length chunks = length embeddings ->
  exists ps : list Ingest.Point,
    length ps = length chunks
    /\ (Ingest.upload_chunks doc chunks embeddings ;;
        Ingest.upload_chunks doc chunks embeddings) st
       = Ingest.set_embeddings_data
           (st.(Ingest.qdrant_manager).(Ingest.embeddings_data) ++ ps ++ ps) st
    /\ (chunks <> [] ->
        ~ NoDup (map Ingest.id
                   (st.(Ingest.qdrant_manager).(Ingest.embeddings_data)
                    ++ ps ++ ps))).
Proof.
  intros Hmode Hurl Hsame.
  destruct (upload_chunks_spec (R:=R) doc chunks embeddings Hurl Hsame)
    as (ps & Hlen & _ & Hloc & _).
  exists ps. split; [exact Hlen|]. split.
  - unfold mbind, M_bind, bind. rewrite (Hloc st Hmode).
    cbn [Ingest.set_embeddings_data Ingest.set_manager modify fst snd].
    rewrite Hloc by (simpl; exact Hmode). simpl.
    unfold Ingest.set_embeddings_data, Ingest.set_manager, modify. simpl.
    by rewrite <- app_assoc.
  - intros Hne Hnodup. destruct ps as [|p ps'].
    { destruct chunks; [done|discriminate]. }
    rewrite !map_app in Hnodup.
    apply NoDup_app in Hnodup as (_ & _ & Hnodup).
    apply NoDup_app in Hnodup as (_ & Hdisj & _).
    apply (Hdisj (Ingest.id p)); simpl; apply list_elem_of_here.
Qed.

Lemma local_upload_twice_duplicates_witness :
  exists ps : list Ingest.Point,
    length ps = length Sim2.two_chunks
    /\ (Ingest.upload_chunks Sim.doc_a Sim2.two_chunks Sim2.two_vectors ;;
        Ingest.upload_chunks Sim.doc_a Sim2.two_chunks Sim2.two_vectors)
         Sim2.local_mode
       = Ingest.set_embeddings_data
           (Sim2.local_mode.(Ingest.qdrant_manager).(Ingest.embeddings_data)
            ++ ps ++ ps) Sim2.local_mode
    /\ (Sim2.two_chunks <> [] ->
        ~ NoDup (map Ingest.id
                   (Sim2.local_mode.(Ingest.qdrant_manager)
                      .(Ingest.embeddings_data) ++ ps ++ ps))).
Proof.
  apply (local_upload_twice_duplicates Sim.doc_a Sim2.two_chunks
           Sim2.two_vectors Sim2.local_mode).
  - reflexivity.
  - vm_compute. by eexists.
  - reflexivity.
Defined.

(** X8. In local mode [create_collection] discards whatever was buffered:
    after [create_collection] and an upload, the buffer holds the points
    of that upload and nothing else. *)
Theorem create_collection_discards_buffer {R : Type} `{Ingest.External R}
    (doc : Ingest.Document) (chunks : list pystr)
    (embeddings : list (list float)) (st : @Ingest.State R) :
  st.(Ingest.qdrant_manager).(Ingest.use_local_storage) = true ->
  is_Some (Uuid.utf8 doc.(Ingest.url)) ->
  length chunks = length embeddings ->
  exists ps : list Ingest.Point,
    length ps = length chunks
    /\ Ingest._upload_chunks_qdrant_points doc chunks embeddings [] = (Ok tt, ps)
    /\ (Ingest.create_collection ;;
        Ingest.upload_chunks doc chunks embeddings) st
       = Ingest.set_embeddings_data ps st.
Proof.
  intros Hmode Hurl Hsame.
  destruct (upload_chunks_spec (R:=R) doc chunks embeddings Hurl Hsame)
    as (ps & Hlen & Hpoints & Hloc & _).
  exists ps. split; [exact Hlen|]. split; [exact Hpoints|].
  unfold mbind, M_bind, bind. rewrite (create_collection_local st Hmode).
  cbn [Ingest.set_embeddings_data Ingest.set_manager modify fst snd].
  rewrite Hloc by (simpl; exact Hmode). reflexivity.
Qed.

Lemma create_collection_discards_buffer_witness :
  exists ps : list Ingest.Point,
    length ps = length Sim2.two_chunks
    /\ Ingest._upload_chunks_qdrant_points Sim.doc_a Sim2.two_chunks
         Sim2.two_vectors [] = (Ok tt, ps)
    /\ (Ingest.create_collection ;;
        Ingest.upload_chunks Sim.doc_a Sim2.two_chunks Sim2.two_vectors)
         Sim2.local_mode
       = Ingest.set_embeddings_data ps Sim2.local_mode.
Proof.
  apply (create_collection_discards_buffer Sim.doc_a Sim2.two_chunks
           Sim2.two_vectors Sim2.local_mode).
  - reflexivity.
  - vm_compute. by eexists.
  - reflexivity.
Defined.

(** X9. In remote mode a failed [upsert] ends the run: when the documents
    before [doc] were processed, [doc] was chunked and embedded with as
    many vectors as chunks, and the client's [upsert] of its points raises
    [e], the loop over the documents ends there with [e]; the documents
    after [doc] play no part, and the manager is as it was. *)
Theorem upsert_failure_ends_the_run {R : Type} `{Ingest.External R}
    (fuel : nat) (processor : Chunker.DocumentProcessor)
    (before : list Ingest.Document) (doc : Ingest.Document)
    (after : list Ingest.Document) (total0 total : Z)
    (st st1 : @Ingest.State R) (chunks : list pystr)
    (embeddings : list (list float)) (ps : list Ingest.Point)
    (e : exn) (s2 s3 : R) :
  Ingest.process_documents fuel processor before total0 st = (Ok total, st1) ->
  st1.(Ingest.qdrant_manager).(Ingest.use_local_storage) = false ->
  Chunker.chunk_text processor fuel doc.(Ingest.content) None None
    = Some chunks ->
  chunks <> [] ->
  Ingest.model_encode chunks st1.(Ingest.services) = (Ok embeddings, s2) ->
  length chunks = length embeddings ->
  Ingest._upload_chunks_qdrant_points doc chunks embeddings [] = (Ok tt, ps) ->
  Ingest.client_upsert st1.(Ingest.qdrant_manager).(Ingest.collection_name)
    ps s2 = (Raise e, s3) ->
  Ingest.process_documents fuel processor (before ++ doc :: after) total0 st
  = (Raise e, Inv.with_services s3 st1).
Proof.
  intros Hbefore Hmode Hchunks Hne Hencode Hsame Hpoints Hupsert.
  rewrite process_documents_app. unfold bind at 1. rewrite Hbefore.
  simpl. rewrite Hchunks. destruct chunks as [|c cs]; [done|].
  unfold mbind, M_bind. unfold bind at 1.
  unfold Ingest.create_embeddings, Ingest.call at 1. rewrite Hencode.
  unfold bind at 1. unfold Ingest.upload_chunks.
  rewrite bool_decide_eq_false_2 by (unfold len; lia).
  rewrite self_bind. cbn [Ingest.qdrant_manager]. rewrite Hmode.
  unfold Ingest._upload_chunks_qdrant, mbind, M_bind, bind.
  rewrite Hpoints. cbn [Ingest.qdrant_manager Ingest.self].
  unfold Ingest.self, mbind, M_bind, bind, get, mret, M_ret, ret, try_except,
    Ingest.call, raise. cbn [Ingest.qdrant_manager Ingest.services].
  rewrite Hupsert. by destruct (is_Exception e).
Qed.

Lemma upsert_failure_ends_the_run_witness :
  Ingest.process_documents 61 Chunker.DocumentProcessor_init
    ([] ++ Sim.doc_a :: [Sim.doc_b]) 0 Sim2.remote_down
  = (Raise (Exception "ConnectionError" (lit "connection refused")),
     Inv.with_services
       {| Sim.reachable := false; Sim.encode_fails_at := None;
          Sim.encode_calls := 1; Sim.collections := [] |}
       Sim2.remote_down).
Proof.
  apply (upsert_failure_ends_the_run 61 Chunker.DocumentProcessor_init
           [] Sim.doc_a [Sim.doc_b] 0 0 Sim2.remote_down Sim2.remote_down
           [repeat 97 60] [[float_of_int 60]]
           (Ingest._upload_chunks_qdrant_points Sim.doc_a [repeat 97 60]
              [[float_of_int 60]] []).2
           (Exception "ConnectionError" (lit "connection refused"))
           {| Sim.reachable := false; Sim.encode_fails_at := None;
              Sim.encode_calls := 1; Sim.collections := [] |}
           {| Sim.reachable := false; Sim.encode_fails_at := None;
              Sim.encode_calls := 1; Sim.collections := [] |}).
  - reflexivity.
  - reflexivity.
  - vm_compute. reflexivity.
  - discriminate.
  - vm_compute. reflexivity.
  - reflexivity.
  - vm_compute. reflexivity.
  - vm_compute. reflexivity.
Defined.

(** X10. Creating the manager raises no [Exception]: when building the
    client or the connection test raises an [Exception], the manager is in
    local mode with an empty buffer and the storage file
    [data/embeddings_storage.json]; when both succeed it is in remote mode
    with the collection name [disaster_prep]. What leaves [__init__] is an
    exception outside [Exception] that the client raised. *)
Theorem QdrantManager_init_falls_back {R : Type} `{Ingest.External R}
    (env : gmap string pystr) (st : @Ingest.State R) :
  let qdrant_url :=
    default (lit "http://localhost:6333") (env !! "QDRANT_URL"%string) in
  let qdrant_api_key :=
    match env !! "QDRANT_API_KEY"%string with
    | Some ((_ :: _) as key) => Some key
    | _ => None
    end in
  let connected :=
    bind (Ingest.call (Ingest.QdrantClient qdrant_url qdrant_api_key))
         (fun _ => Ingest.call Ingest.client_get_collections) st in
  let m := (Ingest.QdrantManager_init env st).2.(Ingest.qdrant_manager) in
  (forall e, (Ingest.QdrantManager_init env st).1 = Raise e ->
     is_Exception e = false /\ connected.1 = Raise e)
  /\ (forall e, connected.1 = Raise e -> is_Exception e = true ->
        (Ingest.QdrantManager_init env st).1 = Ok tt
        /\ m.(Ingest.use_local_storage) = true
        /\ m.(Ingest.embeddings_data) = []
        /\ m.(Ingest.local_storage_file) = lit "data/embeddings_storage.json")
  /\ (forall names, connected.1 = Ok names ->
        (Ingest.QdrantManager_init env st).1 = Ok tt
        /\ m.(Ingest.use_local_storage) = false
        /\ m.(Ingest.collection_name) = Ingest.VECTOR_COLLECTION_NAME).
Proof.
  cbv zeta. unfold Ingest.QdrantManager_init, try_except, mbind, M_bind.
  set (url := default _ _).
  assert (Hkey : match env !! "QDRANT_API_KEY"%string with
                 | Some ((_ :: _) as key) =>
                     Ingest.call (Ingest.QdrantClient url (Some key))
                 | _ => Ingest.call (Ingest.QdrantClient url None)
                 end
                 = Ingest.call
                     (Ingest.QdrantClient url
                        match env !! "QDRANT_API_KEY"%string with
                        | Some ((_ :: _) as key) => Some key
                        | _ => None
                        end)).
  { by destruct (env !! "QDRANT_API_KEY"%string) as [[|]|]. }
  rewrite Hkey. clear Hkey.
  set (key := match env !! "QDRANT_API_KEY"%string with
              | Some ((_ :: _) as k) => Some k
              | _ => None
              end).
  unfold bind, Ingest.call.
  destruct (Ingest.QdrantClient url key (Ingest.services st))
    as [[[]|e1|] s1]; simpl;
    [destruct (Ingest.client_get_collections s1) as [[names|e2|] s2]; simpl|..];
    try destruct (is_Exception _) eqn:He; simpl;
    repeat split; intros; simplify_eq; try done; congruence.
Qed.

(** ** The application never crashes on its services *)

Section AppSafety.

Import Inv AppInv App.

Context {X : Type} `{External X}.

#[local] Instance same_attrs_preorder : PreOrder (same_attrs (X:=X)).
Proof.
  split; [by intros st|]. intros a b c Hab Hbc. unfold same_attrs in *.
  congruence.
Qed.

Lemma no_Exception_ret {S A} (a : A) : raises_no_Exception (S:=S) (ret a).
Proof. by intros st e. Qed.

Lemma no_Exception_bind {S A B} (m : M S A) (k : A -> M S B) :
  raises_no_Exception m -> (forall a, raises_no_Exception (k a)) ->
  raises_no_Exception (bind m k).
Proof.
  intros Hm Hk st e. unfold bind. specialize (Hm st).
  destruct (m st) as [[a|e'|] st']; simpl in *;
    [apply Hk|intros [= <-]; by apply Hm|done].
Qed.

(** A [try] whose handler raises no [Exception] raises none: what the
    block raises is caught unless it is outside [Exception]. *)
Lemma no_Exception_try_except {S A} (m : M S A) (handler : exn -> M S A) :
  (forall e, raises_no_Exception (handler e)) ->
  raises_no_Exception (try_except m handler).
Proof.
  intros Hh st e. unfold try_except.
  destruct (m st) as [[a|e'|] st']; simpl; [done| |done].
  destruct (is_Exception e') eqn:He'; [apply Hh|].
  simpl. by intros [= <-].
Qed.

Lemma no_Exception_show (ev : UiEvent) :
  raises_no_Exception (show ev : M (@State X) unit).
Proof. by intros st e. Qed.

Lemma no_Exception_setattr (name : string) (v : pyobj) :
  raises_no_Exception (setattr name v : M (@State X) unit).
Proof. by intros st e. Qed.

Lemma attrs_call {A} (f : X -> outcome A * X) : respects same_attrs (call f).
Proof. intros st. unfold call. by destruct (f _). Qed.

Lemma attrs_show (ev : UiEvent) : respects (same_attrs (X:=X)) (show ev).
Proof. by intros st. Qed.

Lemma attrs_getattr (name : string) :
  respects (same_attrs (X:=X)) (getattr name).
Proof.
  intros st. unfold getattr, mbind, M_bind, bind, get. simpl.
  by destruct (attrs st !! name).
Qed.

Lemma attrs_method {A} (o expected : pyobj) (name : string)
    (m : M (@State X) A) :
  respects same_attrs m -> respects same_attrs (method o expected name m).
Proof. intros Hm. destruct o, expected; simpl; done. Qed.

Lemma attrs_retrieve_context (query : pystr) (k : Z) :
  respects same_attrs (retrieve_context query k).
Proof.
  unfold retrieve_context. apply respects_try_except; [apply _| |].
  - unfold retrieve_context_try.
    apply respects_mbind; [apply _|apply attrs_getattr|]. intros model.
    apply respects_mbind; [apply _|apply attrs_method, attrs_call|].
    intros encoded.
    apply respects_mbind; [apply _| |].
    { destruct encoded; [apply respects_raise|apply respects_ret]; apply _. }
    intros v. apply respects_mbind; [apply _|apply attrs_getattr|].
    intros client.
    apply respects_mbind; [apply _|apply attrs_method, attrs_call|].
    intros hits. apply respects_ret. apply _.
  - intros e. apply respects_mbind; [apply _|apply attrs_show|].
    intros _. apply respects_ret. apply _.
Qed.

Lemma retrieve_context_no_Exception (query : pystr) (k : Z) :
  raises_no_Exception (retrieve_context query k).
Proof.
  unfold retrieve_context. apply no_Exception_try_except. intros e.
  apply no_Exception_bind; [apply no_Exception_show|].
  intros _. apply no_Exception_ret.
Qed.

Lemma setup_clients_no_Exception (env : gmap string pystr) :
  raises_no_Exception (setup_clients env).
Proof.
  unfold setup_clients. apply no_Exception_try_except. intros e.
  apply no_Exception_show.
Qed.

End AppSafety.

(** X11. Building the application object raises no [Exception],
    whatever the embedding model, the Qdrant client or the chat model do:
    every [Exception] inside [setup_clients] is caught there, and only an
    exception outside [Exception] ([KeyboardInterrupt], [SystemExit])
    passes. The same holds for [retrieve_context], which assigns no
    attribute. *)
Theorem app_raises_no_Exception {X : Type} `{App.External X}
    (env : gmap string pystr) (query : pystr) (k : Z) (st : @App.State X)
    (e : exn) :
  ((App.setup_clients env st).1 = Raise e -> is_Exception e = false)
  /\ ((App.DisasterRAGApp_init env st).1 = Raise e -> is_Exception e = false)
  /\ ((App.retrieve_context query k st).1 = Raise e -> is_Exception e = false)
  /\ (App.retrieve_context query k st).2.(App.attrs) = st.(App.attrs).
Proof.
  split; [apply setup_clients_no_Exception|].
  split; [|split; [apply retrieve_context_no_Exception
                  |apply attrs_retrieve_context]].
  unfold App.DisasterRAGApp_init.
  repeat (apply no_Exception_bind; [apply no_Exception_setattr|]; intros _).
  apply setup_clients_no_Exception.
Qed.

(** ** What the chat model is asked *)

Section Prompt.

Import Inv AppInv App.

Context {X : Type} `{External X}.

Lemma len_cons {A} (x : A) (s : list A) : len (x :: s) = 1 + len s.
Proof. unfold len. simpl length. lia. Qed.

Lemma len_context_text (context : list Context) :
  len (join [10; 10]
         (map (fun ctx => lit "Source: " ++ ctx.(source) ++ 10 :: lit "Title: "
                 ++ ctx.(title) ++ 10 :: lit "Content: "
                 ++ slice ctx.(content) 0 500 ++ lit "...") context))
  <= context_budget context.
Proof.
  assert (Hone : forall ctx : Context,
    len (lit "Source: " ++ ctx.(source) ++ 10 :: lit "Title: "
           ++ ctx.(title) ++ 10 :: lit "Content: "
           ++ slice ctx.(content) 0 500 ++ lit "...")
    <= len ctx.(source) + len ctx.(title) + 529).
  { intros ctx. repeat (rewrite len_app || rewrite len_cons).
    pose proof (len_slice ctx.(content) 0 500 ltac:(lia) ltac:(lia)) as Hs.
    pose proof (len_nonneg ctx.(content)).
    change (len (lit "Source: ")) with 8. change (len (lit "Title: ")) with 7.
    change (len (lit "Content: ")) with 9. change (len (lit "...")) with 3.
    lia. }
  unfold context_budget.
  induction context as [|ctx context IH]; [done|].
  cbn [map fold_right]. specialize (Hone ctx).
  destruct context as [|ctx' context].
  - cbn [map join fold_right] in *. lia.
  - change (join [10; 10] (?x :: map ?f (ctx' :: context)))
      with (x ++ [10; 10] ++ join [10; 10] (map f (ctx' :: context))).
    rewrite len_app, (len_app [10; 10]). change (len [10; 10]) with 2. lia.
Qed.

(** With a chat model in [self.llm], [generate_response] is one call of
    [invoke] whose [Exception] becomes the answer. *)
Lemma generate_response_configured (query : pystr) (context : list Context)
    (st : @State X) :
  configured st ->
  let prompt :=
    lit "You are a Disaster Preparedness & Response Assistant. Use ONLY context from FEMA, CDC, NOAA, Red Cross, WHO, UNDRR. If information is not found in the provided context, say "
      ++ dq ++ lit "I don't have that information from trusted sources." ++ dq
      ++ [10; 10] ++ lit "Context:" ++ [10]
      ++ join [10; 10]
           (map (fun ctx => lit "Source: " ++ ctx.(source) ++ 10 :: lit "Title: "
                   ++ ctx.(title) ++ 10 :: lit "Content: "
                   ++ slice ctx.(content) 0 500 ++ lit "...") context)
      ++ [10; 10] ++ lit "Question: " ++ query
      ++ [10; 10] ++ lit "Answer:" in
  generate_response query context st
  = (match (llm_invoke prompt st.(services)).1 with
     | Raise e =>
         if is_Exception e
         then Ok (lit "Error generating response: " ++ str_of_exn e)
         else Raise e
     | r => r
     end,
     with_services (llm_invoke prompt st.(services)).2 st).
Proof.
  intros Hllm prompt. unfold configured in Hllm.
  unfold generate_response, getattr, mbind, M_bind, bind, get, try_except.
  cbn [fst snd]. rewrite Hllm. cbn [ret truthy negb method call fst snd].
  rewrite Hllm. cbn [ret method]. unfold call. fold prompt.
  destruct (llm_invoke prompt (services st)) as [[a|e|] s]; try reflexivity.
  cbn [fst snd]. destruct (is_Exception e); reflexivity.
Qed.

End Prompt.

(** X12. With a chat model in [self.llm], [generate_response] calls
    [invoke] exactly once and raises no [Exception]: it returns the
    model's answer, or the text [Error generating response: e] when
    [invoke] raises an [Exception] [e]; an exception outside [Exception]
    passes. The prompt it sends ends with the question followed by
    [Answer:], and holds at most 500 characters of each context's content:
    its length is at most 258 plus the length of the query plus, for each
    context, the lengths of its source and title plus 531. *)
Theorem generate_response_asks_once {X : Type} `{App.External X}
    (query : pystr) (context : list App.Context) (st : @App.State X) :
  AppInv.configured st ->
  exists prompt,
    App.generate_response query context st
    = (match (App.llm_invoke prompt st.(App.services)).1 with
       | Raise e =>
           if is_Exception e
           then Ok (lit "Error generating response: " ++ str_of_exn e)
           else Raise e
       | r => r
       end,
       AppInv.with_services (App.llm_invoke prompt st.(App.services)).2 st)
    /\ (exists head,
          prompt
          = head ++ lit "Question: " ++ query ++ [10; 10] ++ lit "Answer:")
    /\ len prompt <= 258 + len query + AppInv.context_budget context.
Proof.
  intros Hllm. eexists. split; [apply generate_response_configured, Hllm|].
  split.
  - match goal with
    | |- exists head, ?a ++ ?b ++ ?c ++ ?d ++ ?e ++ ?f ++ ?g ++ ?h ++ ?i ++ _
                      = head ++ _ =>
        exists (a ++ b ++ c ++ d ++ e ++ f ++ g ++ h ++ i)
    end.
    rewrite <- !app_assoc. reflexivity.
  - pose proof (len_context_text context) as Hc.
    unfold App.dq. repeat (rewrite len_app || rewrite len_cons).
    change (len (lit "You are a Disaster Preparedness & Response Assistant. Use ONLY context from FEMA, CDC, NOAA, Red Cross, WHO, UNDRR. If information is not found in the provided context, say ")) with 173.
    change (len (lit "I don't have that information from trusted sources."))
      with 51.
    change (len (lit "Context:")) with 8.
    change (len (lit "Question: ")) with 10.
    change (len (lit "Answer:")) with 7.
    change (len (@nil Z)) with 0. lia.
Qed.

Lemma generate_response_asks_once_witness :
  exists prompt,
    App.generate_response AppSim.question AppSim.one_context
      (AppDown.app AppDown.no_llm)
    = (match (App.llm_invoke prompt
                (AppDown.app AppDown.no_llm).(App.services)).1 with
       | Raise e =>
           if is_Exception e
           then Ok (lit "Error generating response: " ++ str_of_exn e)
           else Raise e
       | r => r
       end,
       AppInv.with_services
         (App.llm_invoke prompt (AppDown.app AppDown.no_llm).(App.services)).2
         (AppDown.app AppDown.no_llm))
    /\ (exists head,
          prompt
          = head ++ lit "Question: " ++ AppSim.question ++ [10; 10]
              ++ lit "Answer:")
    /\ len prompt
       <= 258 + len AppSim.question + AppInv.context_budget AppSim.one_context.
Proof.
  apply (generate_response_asks_once AppSim.question AppSim.one_context
           (AppDown.app AppDown.no_llm)).
  vm_compute. reflexivity.
Defined.

(** ** A query is always answered *)

Section Answer.

Import Inv AppInv App.

Context {X : Type} `{External X}.

Lemma safe_ret {A} (P : @State X -> Prop) (a : A) : safe P (ret a).
Proof. intros st HP. by split. Qed.

Lemma safe_bind {A B} (P : @State X -> Prop) (m : M State A)
    (k : A -> M State B) :
  safe P m -> (forall a, safe P (k a)) -> safe P (bind m k).
Proof.
  intros Hm Hk st HP. unfold bind. destruct (Hm st HP) as [Hr HP'].
  destruct (m st) as [[a|e|] st']; simpl in *;
    [by apply Hk|split; [intros e' [= <-]; by apply Hr|done]|by split].
Qed.

Lemma safe_mbind {A B} (P : @State X -> Prop) (m : M State A)
    (k : A -> M State B) :
  safe P m -> (forall a, safe P (k a)) -> safe P (m ≫= k).
Proof. apply safe_bind. Qed.

Lemma safe_for_each {A} (P : @State X -> Prop) (l : list A)
    (body : A -> M State unit) :
  (forall x, safe P (body x)) -> safe P (for_each l body).
Proof.
  intros Hbody. induction l as [|x l IH]; [apply safe_ret|].
  simpl. apply safe_bind; [apply Hbody|done].
Qed.

Lemma safe_show (ev : UiEvent) : safe (X:=X) configured (show ev).
Proof. intros st HP. by split. Qed.

Lemma safe_retrieve_context (query : pystr) (k : Z) :
  safe configured (retrieve_context query k).
Proof.
  intros st HP. split; [apply retrieve_context_no_Exception|].
  unfold configured. by rewrite (attrs_retrieve_context query k st).
Qed.

Lemma safe_generate_response (query : pystr) (context : list Context) :
  safe configured (generate_response query context).
Proof.
  intros st HP.
  rewrite (generate_response_configured query context st HP).
  cbn [fst snd]. split; [|exact HP].
  intros e. destruct (llm_invoke _ (services st)) as [[a|e'|] s]; try done.
  cbn [fst]. destruct (is_Exception e') eqn:He'; [done|]. by intros [= <-].
Qed.

End Answer.

(** X13. Once a chat model is in [self.llm], handling a query raises no
    [Exception], whatever the embedding model, the search and the chat
    model raise, for search hits whose payload values are strings: every
    [Exception] of theirs is caught and shown or returned as text, and
    only an exception outside [Exception] passes. The chat model is still
    in [self.llm] afterwards, so this holds for every later query too. *)
Theorem answer_query_raises_no_Exception {X : Type} `{App.External X}
    (query : pystr) (st : @App.State X) :
  AppInv.configured st ->
  (forall e, (App.answer_query query st).1 = Raise e -> is_Exception e = false)
  /\ AppInv.configured (App.answer_query query st).2.
Proof.
  revert st. change (AppInv.safe AppInv.configured (App.answer_query query)).
  unfold App.answer_query.
  apply safe_mbind; [apply (safe_show (X:=X))|]. intros _.
  apply safe_mbind; [apply safe_retrieve_context|]. intros contexts.
  destruct contexts as [|ctx contexts]; [apply (safe_show (X:=X))|].
  apply safe_mbind; [apply (safe_show (X:=X))|]. intros _.
  apply safe_mbind.
  { apply safe_for_each. intros [i c].
    repeat (apply safe_mbind; [apply (safe_show (X:=X))|]; intros _).
    apply (safe_show (X:=X)). }
  intros _. apply safe_mbind; [apply (safe_show (X:=X))|]. intros _.
  apply safe_mbind; [apply safe_generate_response|]. intros response.
  repeat (apply safe_mbind; [apply (safe_show (X:=X))|]; intros _).
  apply safe_for_each. intros [i s]. apply (safe_show (X:=X)).
Qed.

Lemma answer_query_raises_no_Exception_witness :
  (forall e,
     (App.answer_query AppSim.question (AppDown.app AppDown.no_llm)).1
     = Raise e -> is_Exception e = false)
  /\ AppInv.configured
       (App.answer_query AppSim.question (AppDown.app AppDown.no_llm)).2.
Proof.
  apply (answer_query_raises_no_Exception AppSim.question
           (AppDown.app AppDown.no_llm)).
  vm_compute. reflexivity.
Defined.

(** X14. If loading the embedding model raises an [Exception], building
    the application still succeeds: the error is shown, the Qdrant client and
    the chat model are never built, and the embedding model and the Qdrant
    client stay [None]. Every query is then answered with a retrieval
    error and the warning that nothing relevant was found, without calling
    any service. *)
Theorem failed_model_load_degrades {X : Type} `{App.External X}
    (env : gmap string pystr) (query : pystr) (st : @App.State X)
    (e0 : exn) (s1 : X) :
  App.SentenceTransformer App.EMBEDDING_MODEL st.(App.services)
    = (Raise e0, s1) ->
  is_Exception e0 = true ->
  let st1 := (App.DisasterRAGApp_init env st).2 in
  (App.DisasterRAGApp_init env st).1 = Ok tt
  /\ st1.(App.services) = s1
  /\ st1.(App.ui)
     = st.(App.ui)
       ++ [App.st_spinner (lit "Loading embedding model...");
           App.st_error (lit "Error initializing clients: " ++ str_of_exn e0)]
  /\ st1.(App.attrs) !! "embedding_model"%string = Some App.PyNone
  /\ st1.(App.attrs) !! "qdrant_client"%string = Some App.PyNone
  /\ st1.(App.attrs) !! "llm"%string = st.(App.attrs) !! "llm"%string
  /\ exists e,
       App.answer_query query st1
       = (Ok tt,
          AppInv.shown
            [App.st_spinner (lit "Searching for relevant information...");
             App.st_error (lit "Error retrieving context: " ++ str_of_exn e);
             App.st_warning App.no_information] st1).
Proof.
  intros Hload He0 st1.
  assert (Hinit : App.DisasterRAGApp_init env st
    = (Ok tt,
       {| App.attrs :=
            <["groq_client"%string := App.PyNone]>
              (<["qdrant_client"%string := App.PyNone]>
                 (<["embedding_model"%string := App.PyNone]> st.(App.attrs)));
          App.ui :=
            (st.(App.ui)
             ++ [App.st_spinner (lit "Loading embedding model...")])
            ++ [App.st_error (lit "Error initializing clients: "
                                ++ str_of_exn e0)];
          App.services := s1 |})).
  { unfold App.DisasterRAGApp_init, App.setup_clients, mbind, M_bind, bind,
      try_except, App.setattr, App.show, App.call, modify.
    cbn [fst snd App.services App.attrs App.ui]. rewrite Hload.
    cbn beta iota. rewrite He0. reflexivity. }
  subst st1. rewrite Hinit. cbn [fst snd App.services App.ui App.attrs].
  split; [done|]. split; [done|]. split; [by rewrite <- app_assoc|].
  split. { rewrite !lookup_insert_ne by done. apply lookup_insert_eq. }
  split. { rewrite lookup_insert_ne by done. apply lookup_insert_eq. }
  split. { by rewrite !lookup_insert_ne by done. }
  eexists. unfold App.answer_query, App.retrieve_context,
    App.retrieve_context_try, App.getattr, mbind, M_bind, bind, try_except,
    App.show, modify, get, AppInv.shown.
  cbn [fst snd App.services App.attrs App.ui].
  rewrite lookup_insert_ne by done. rewrite lookup_insert_ne by done.
  rewrite lookup_insert_eq. cbn [ret App.method raise fst snd App.ui
    App.attrs App.services].
  change (is_Exception (Exception "AttributeError" ?msg)) with true.
  cbn [ret fst snd App.ui App.attrs App.services].
  rewrite <- !app_assoc. reflexivity.
Qed.

Lemma failed_model_load_degrades_witness :
  let st1 :=
    (App.DisasterRAGApp_init AppDown.env_with_key
       (AppDown.start AppDown.no_model)).2 in
  (App.DisasterRAGApp_init AppDown.env_with_key
     (AppDown.start AppDown.no_model)).1 = Ok tt
  /\ st1.(App.services) = AppDown.no_model
  /\ st1.(App.ui)
     = (AppDown.start AppDown.no_model).(App.ui)
       ++ [App.st_spinner (lit "Loading embedding model...");
           App.st_error (lit "Error initializing clients: "
                           ++ str_of_exn (Exception "OSError"
                                            (lit "model not found")))]
  /\ st1.(App.attrs) !! "embedding_model"%string = Some App.PyNone
  /\ st1.(App.attrs) !! "qdrant_client"%string = Some App.PyNone
  /\ st1.(App.attrs) !! "llm"%string
     = (AppDown.start AppDown.no_model).(App.attrs) !! "llm"%string
  /\ exists e,
       App.answer_query AppSim.question st1
       = (Ok tt,
          AppInv.shown
            [App.st_spinner (lit "Searching for relevant information...");
             App.st_error (lit "Error retrieving context: " ++ str_of_exn e);
             App.st_warning App.no_information] st1).
Proof.
  apply (failed_model_load_degrades AppDown.env_with_key AppSim.question
           (AppDown.start AppDown.no_model)
           (Exception "OSError" (lit "model not found")) AppDown.no_model).
  - reflexivity.
  - reflexivity.
Defined.

(** X15. When the embedding model and the Qdrant client are set, the
    query is embedded and the search returns [hits], [retrieve_context]
    returns one context per hit, in the order of the hits and with the
    hit's score; a payload key that is missing becomes the empty text.
    Nothing is shown and no attribute changes. *)
Theorem retrieve_context_maps_hits {X : Type} `{App.External X}
    (query : pystr) (k : Z) (st : @App.State X) (v : list float)
    (vs : list (list float)) (hits : list App.ScoredPoint) (s1 s2 : X) :
  st.(App.attrs) !! "embedding_model"%string = Some App.SentenceTransformerObj ->
  st.(App.attrs) !! "qdrant_client"%string = Some App.QdrantClientObj ->
  App.model_encode [query] st.(App.services) = (Ok (v :: vs), s1) ->
  App.client_search App.QDRANT_COLLECTION v k s1 = (Ok hits, s2) ->
  exists contexts,
    App.retrieve_context query k st = (Ok contexts, AppInv.with_services s2 st)
    /\ length contexts = length hits
    /\ (forall (i : nat) hit, hits !! i = Some hit ->
          exists ctx,
            contexts !! i = Some ctx
            /\ ctx.(App.score) = hit.(App.sp_score)
            /\ ctx.(App.content)
               = default [] (hit.(App.sp_payload) !! "content"%string)
            /\ ctx.(App.source)
               = default [] (hit.(App.sp_payload) !! "source"%string)
            /\ ctx.(App.title)
               = default [] (hit.(App.sp_payload) !! "title"%string)
            /\ ctx.(App.url)
               = default [] (hit.(App.sp_payload) !! "url"%string)).
Proof.
  intros Hmodel Hclient Hencode Hsearch. eexists. split; [|split].
  - unfold App.retrieve_context, App.retrieve_context_try, App.getattr,
      mbind, M_bind, bind, try_except, get, App.call.
    cbn [fst snd]. rewrite Hmodel. cbn [ret App.method fst snd App.services].
    rewrite Hencode. cbn [ret fst snd App.attrs App.services].
    rewrite Hclient. cbn [ret App.method fst snd App.services].
    rewrite Hsearch. reflexivity.
  - apply length_map.
  - intros i hit Hi. eexists. split.
    + rewrite list_lookup_fmap, Hi. reflexivity.
    + by repeat split.
Qed.

Lemma retrieve_context_maps_hits_witness :
  exists contexts,
    App.retrieve_context AppSim.question 5 (AppDown.app AppDown.no_llm)
    = (Ok contexts,
       AppInv.with_services AppDown.no_llm (AppDown.app AppDown.no_llm))
    /\ length contexts = length [AppDown.bare_hit]
    /\ (forall (i : nat) hit, [AppDown.bare_hit] !! i = Some hit ->
          exists ctx,
            contexts !! i = Some ctx
            /\ ctx.(App.score) = hit.(App.sp_score)
            /\ ctx.(App.content)
               = default [] (hit.(App.sp_payload) !! "content"%string)
            /\ ctx.(App.source)
               = default [] (hit.(App.sp_payload) !! "source"%string)
            /\ ctx.(App.title)
               = default [] (hit.(App.sp_payload) !! "title"%string)
            /\ ctx.(App.url)
               = default [] (hit.(App.sp_payload) !! "url"%string)).
Proof.
  apply (retrieve_context_maps_hits AppSim.question 5
           (AppDown.app AppDown.no_llm)
           [float_of_int (len AppSim.question)] [] [AppDown.bare_hit]
           AppDown.no_llm AppDown.no_llm).
  - vm_compute. reflexivity.
  - vm_compute. reflexivity.
  - reflexivity.
  - reflexivity.
Defined.

(** ** The text the scraper stores *)

Section CleanUp.

Import Scraper ScraperInv.

Lemma join_cons2 (sep x y : pystr) (l : list pystr) :
  App.join sep (x :: y :: l) = x ++ sep ++ App.join sep (y :: l).
Proof. reflexivity. Qed.

Lemma split_from_words (s w : pystr) :
  Forall (fun c => isspace c = false) w -> Forall word (split_from s w).
Proof.
  revert w. induction s as [|c s IH]; intros w Hw; simpl.
  - destruct w; simpl; [done|]. constructor; [by split|constructor].
  - destruct (isspace c) eqn:Hc.
    + destruct w as [|a w]; simpl; [by apply IH|].
      constructor; [by split|by apply IH].
    + apply IH. apply Forall_app. split; [done|by constructor].
Qed.

Lemma split_from_word_app (u s w : pystr) :
  Forall (fun c => isspace c = false) u ->
  split_from (u ++ s) w = split_from s (w ++ u).
Proof.
  revert w. induction u as [|a u IH]; intros w Hu; simpl.
  - by rewrite app_nil_r.
  - inversion Hu as [|? ? Ha Hu']; subst. rewrite Ha, IH by done.
    by rewrite <- app_assoc.
Qed.

(** Splitting the joined words gives the words back. *)
Lemma split_join (ws : list pystr) :
  Forall word ws -> split (App.join [32] ws) = ws.
Proof.
  unfold split. induction ws as [|w ws IH]; intros Hws; [done|].
  inversion Hws as [|? ? [Hne Hw] Hws']; subst.
  destruct ws as [|w' ws].
  - simpl. rewrite <- (app_nil_r w) at 1.
    rewrite split_from_word_app by done. simpl. by destruct w.
  - rewrite join_cons2, split_from_word_app by done.
    cbn [app split_from]. change (isspace 32) with true. cbn iota.
    destruct w as [|a w]; [done|]. cbn [app Ingest.is_empty]. by rewrite IH.
Qed.

Lemma spaced_word_app (w t : pystr) :
  Forall (fun c => isspace c = false) w -> spaced (w ++ t) = spaced t.
Proof.
  induction w as [|a w IH]; intros Hw; [done|].
  inversion Hw as [|? ? Ha Hw']; subst. cbn [app spaced].
  rewrite Ha. cbn [andb negb]. rewrite IH by done.
  destruct (w ++ t) eqn:Hwt; [|done].
  apply app_eq_nil in Hwt as [_ ->]. done.
Qed.

(** Words joined by single spaces: the text starts and ends with a
    character of a word, and whitespace never repeats. *)
Lemma join_words_shape (ws : list pystr) :
  Forall word ws ->
  let t := App.join [32] ws in
  spaced t = true
  /\ (forall c, head t = Some c -> isspace c = false)
  /\ (forall c, last t = Some c -> isspace c = false)
  /\ (forall c, In c t -> isspace c = true -> c = 32).
Proof.
  induction ws as [|w ws IH]; intros Hws; [by repeat split|].
  inversion Hws as [|? ? [Hne Hw] Hws']; subst.
  destruct ws as [|w' ws].
  - cbn [App.join]. split; [|split; [|split]].
    + rewrite <- (app_nil_r w). by rewrite spaced_word_app.
    + intros c Hc. destruct w as [|a w]; [done|].
      inversion Hw; subst. by injection Hc as <-.
    + intros c Hc. apply last_Some in Hc as [l' ->].
      apply Forall_app in Hw as [_ Hc]. by inversion Hc.
    + intros c Hc Hsp. rewrite Forall_forall in Hw.
      rewrite (Hw c) in Hsp; [done|]. by apply list_elem_of_In.
  - destruct (IH Hws') as (Hsp & Hhd & Hlast & Hin). intros t. subst t.
    rewrite join_cons2. split; [|split; [|split]].
    + rewrite spaced_word_app by done. cbn [app spaced].
      destruct (App.join [32] (w' :: ws)) as [|b t'] eqn:Hj; [done|].
      rewrite (Hhd b) by done. by rewrite andb_false_r.
    + intros c Hc. destruct w as [|a w]; [done|].
      inversion Hw; subst. by injection Hc as <-.
    + intros c Hc. rewrite app_assoc, last_app in Hc.
      destruct (last (App.join [32] (w' :: ws))) as [d|] eqn:Hl.
      * injection Hc as <-. by apply Hlast.
      * apply last_None in Hl. inversion Hws' as [|? ? [Hne' _] _]; subst.
        destruct w', ws; done.
    + intros c Hc Hspace. apply in_app_or in Hc as [Hc|Hc].
      * rewrite Forall_forall in Hw. rewrite (Hw c) in Hspace; [done|].
        by apply list_elem_of_In.
      * destruct Hc as [<-|Hc]; [done|]. by apply Hin.
Qed.

Lemma lstrip_head_fixed (t : pystr) :
  (forall c, head t = Some c -> isspace c = false) -> lstrip t = t.
Proof. destruct t as [|a t]; [done|]. intros Hhd. simpl. by rewrite Hhd. Qed.

Lemma head_rev_last (t : pystr) : head (rev t) = last t.
Proof.
  induction t as [|x t _] using rev_ind; [done|].
  by rewrite rev_app_distr, last_snoc.
Qed.

(** A text whose first and last characters are not whitespace is left
    alone by [strip]. *)
Lemma strip_fixed (t : pystr) :
  (forall c, head t = Some c -> isspace c = false) ->
  (forall c, last t = Some c -> isspace c = false) ->
  strip t = t.
Proof.
  intros Hhd Hlast. unfold strip, rstrip. rewrite (lstrip_head_fixed t Hhd).
  rewrite lstrip_head_fixed; [apply rev_involutive|].
  intros c Hc. apply Hlast. by rewrite <- head_rev_last.
Qed.

Lemma spaced_lookup (t : pystr) (i : nat) (a b : Z) :
  spaced t = true -> t !! i = Some a -> t !! S i = Some b ->
  isspace a = true -> isspace b = false.
Proof.
  revert i. induction t as [|x t IH]; intros i Hsp Ha Hb Hspace; [done|].
  destruct t as [|y t]; [done|]. cbn [spaced] in Hsp.
  apply andb_prop in Hsp as [Hxy Hsp]. destruct i as [|i].
  - injection Ha as ->. injection Hb as ->. rewrite Hspace in Hxy.
    by destruct (isspace b).
  - by apply (IH i).
Qed.

Lemma len_join_split_from (s w : pystr) :
  len (App.join [32] (split_from s w)) <= len w + len s.
Proof.
  revert w. induction s as [|c s IH]; intros w; simpl.
  - destruct w; simpl; unfold len; simpl; lia.
  - rewrite len_cons. destruct (isspace c).
    + destruct w as [|a w]; cbn [Ingest.is_empty].
      * specialize (IH []). change (len []) with 0 in *. lia.
      * specialize (IH []). change (len (@nil Z)) with 0 in IH.
        destruct (split_from s []) as [|w' ws].
        -- cbn [App.join]. pose proof (len_nonneg s). lia.
        -- rewrite join_cons2, !len_app. change (len [32]) with 1. lia.
    + specialize (IH (w ++ [c])). rewrite len_app in IH.
      change (len [c]) with 1 in IH. lia.
Qed.

Lemma letters_app (s t : pystr) : letters (s ++ t) = letters s ++ letters t.
Proof. apply List.filter_app. Qed.

Lemma letters_word (w : pystr) :
  Forall (fun c => isspace c = false) w -> letters w = w.
Proof.
  induction w as [|a w IH]; intros Hw; [done|].
  inversion Hw as [|? ? Ha Hw']; subst. unfold letters in *. simpl.
  rewrite Ha. simpl. by rewrite IH.
Qed.

Lemma letters_join_split_from (s w : pystr) :
  Forall (fun c => isspace c = false) w ->
  letters (App.join [32] (split_from s w)) = w ++ letters s.
Proof.
  revert w. induction s as [|c s IH]; intros w Hw; simpl.
  - rewrite app_nil_r. destruct w as [|a w]; [done|].
    cbn [Ingest.is_empty App.join]. by apply letters_word.
  - unfold letters at 2. simpl. fold (letters s).
    destruct (isspace c) eqn:Hc; simpl.
    + destruct w as [|a w]; cbn [Ingest.is_empty]; [by apply IH|].
      specialize (IH [] ltac:(done)). simpl in IH.
      destruct (split_from s []) as [|w' ws].
      * cbn [App.join] in *. rewrite <- IH, app_nil_r. by apply letters_word.
      * rewrite join_cons2, !letters_app, IH, letters_word by done. done.
    + rewrite IH by (apply Forall_app; split; [done|by constructor]).
      by rewrite <- app_assoc.
Qed.

(** A cleaned text starts with a character of a word and never repeats
    whitespace. *)
Lemma clean_up_shape (s : pystr) :
  (forall c, head (clean_up s) = Some c -> isspace c = false)
  /\ (forall (i : nat) a b, clean_up s !! i = Some a ->
        clean_up s !! S i = Some b -> isspace a = true -> isspace b = false).
Proof.
  unfold clean_up, split.
  pose proof (split_from_words s [] ltac:(done)) as Hws.
  destruct (join_words_shape _ Hws) as (Hsp & Hhd & _ & _).
  split; [done|]. intros i a b. by apply spaced_lookup.
Qed.

Lemma clean_up_idem (s : pystr) : clean_up (clean_up s) = clean_up s.
Proof.
  unfold clean_up at 1 2. rewrite split_join; [done|].
  apply split_from_words. done.
Qed.

End CleanUp.

(** X16. The content the scraper stores is the page text with its
    whitespace normalised: [' '.join(content.split())] keeps the
    characters that are not whitespace, in order, and joins the words by
    single spaces. The result has no leading or trailing whitespace, its
    only whitespace character is the space, no two spaces are adjacent, it
    is never longer than the text, and cleaning it again changes nothing. *)
Theorem clean_up_normalises (s : pystr) :
  let t := Scraper.clean_up s in
  ScraperInv.letters t = ScraperInv.letters s
  /\ strip t = t
  /\ (forall c, In c t -> isspace c = true -> c = 32)
  /\ (forall (i : nat) a b, t !! i = Some a -> t !! S i = Some b ->
        isspace a = true -> isspace b = false)
  /\ len t <= len s
  /\ Scraper.clean_up t = t.
Proof.
  intros t. subst t. unfold Scraper.clean_up, Scraper.split.
  pose proof (split_from_words s [] ltac:(done)) as Hws.
  destruct (join_words_shape _ Hws) as (Hsp & Hhd & Hlast & Hin).
  split; [by rewrite letters_join_split_from|].
  split; [by apply strip_fixed|]. split; [done|].
  split; [intros i a b; by apply spaced_lookup|].
  split; [apply (len_join_split_from s [])|].
  apply clean_up_idem.
Qed.

(** ** What the scraper collects *)

Section Collecting.

Import Scraper ScraperInv.

Context {W Tag : Type} `{External W Tag}.

Lemma collects_refl (st : @State W) : collects [] st st.
Proof. unfold collects. by rewrite app_nil_r. Qed.

Lemma collects_trans (new new' : list Ingest.Document) (st st' st'' : @State W) :
  collects new st st' -> collects new' st' st'' ->
  collects (new ++ new') st st''.
Proof.
  intros (Hh & Ho & Hd) (Hh' & Ho' & Hd'). unfold collects.
  rewrite Hh', Ho', Hd', Hd, Hh, Ho, app_assoc. done.
Qed.

Lemma collects_call {A} (f : W -> outcome A * W) (st : @State W) :
  collects [] st (call f st).2.
Proof.
  unfold call, collects. destruct (f _). simpl. by rewrite app_nil_r.
Qed.

(** The loop over the selectors only asks the parser. *)
Lemma select_content_pure (selectors : list pystr) (soup : Tag)
    (st : @State W) :
  (select_content selectors soup st).2 = st.
Proof.
  induction selectors as [|selector selectors IH]; [done|].
  cbn [select_content]. unfold mbind, M_bind, bind, lift.
  destruct (select_one selector soup) as [[elem|]|e|]; try done.
Qed.

(** A [try] whose handler returns a constant: it raises no [Exception]. *)
Lemma catches_try_ret {S A} (Q : A -> S -> S -> Prop) (F : S -> S -> Prop)
    (a0 : A) (m : M S A) :
  spec Q (fun _ => F) m -> (forall st st', F st st' -> Q a0 st st') ->
  catches Q F (try_except m (fun _ => ret a0)).
Proof.
  intros Hm Hq st. unfold try_except. specialize (Hm st).
  destruct (m st) as [[a|e|] st']; [done| |done].
  destruct (is_Exception e) eqn:He; simpl; [by apply Hq|by split].
Qed.

(** What passes [catches] is covered by any frame of the raise. *)
Lemma catches_spec {S A} (Q : A -> S -> S -> Prop) (F : S -> S -> Prop)
    (m : M S A) :
  catches Q F m -> spec Q (fun _ => F) m.
Proof.
  intros Hm st. specialize (Hm st).
  destruct (m st) as [[a|e|] st']; [done|by destruct Hm|done].
Qed.

Lemma parse_html_spec (html url source_name : pystr) :
  catches (page_spec url source_name) (collects [])
    (parse_html html url source_name).
Proof.
  unfold parse_html. apply catches_try_ret; [|by intros].
  intros st. unfold mbind, M_bind, bind, lift.
  destruct (BeautifulSoup html) as [soup|e|]; [|apply collects_refl|done].
  destruct (decompose_all removed_tags soup) as [soup'|e|];
    [|apply collects_refl|done].
  destruct (find (lit "title") soup') as [title|e|];
    [|apply collects_refl|done].
  set (title_text := match title with Some t => _ | None => _ end).
  assert (Htitle : (title_text st).2 = st).
  { subst title_text. destruct title as [t|]; [|done].
    by destruct (get_text t). }
  destruct (title_text st) as [[text|e|] st1]; simpl in Htitle; subst st1;
    [|apply collects_refl|done].
  pose proof (select_content_pure content_selectors soup' st) as Hsel.
  destruct (select_content content_selectors soup' st) as [[content|e|] st1];
    simpl in Hsel; subst st1; [|apply collects_refl|done].
  set (content' := if Ingest.is_empty content then _ else _).
  assert (Hcontent : (content' st).2 = st).
  { subst content'. destruct (Ingest.is_empty content); [|done].
    by destruct (get_text_sep_strip soup'). }
  destruct (content' st) as [[content2|e|] st1]; simpl in Hcontent; subst st1;
    [|apply collects_refl|done].
  destruct (Z.ltb_spec 200 (len (clean_up content2))) as [Hlong|Hshort];
    [|apply collects_refl].
  pose proof (collects_call datetime_now_isoformat st) as Hnow.
  destruct (call datetime_now_isoformat st) as [[now|e|] st1];
    simpl in Hnow; [|done..].
  unfold append, modify, ret. cbn [fst snd]. split.
  - destruct Hnow as (Hh & Ho & Hd). unfold collects. simpl.
    rewrite app_nil_r in Hd. by rewrite Hd.
  - unfold page_of. simpl. repeat split; try done.
    pose proof (clean_up_idem content2). done.
Qed.

Lemma scrape_url_selenium_spec (url source_name : pystr) :
  catches (page_spec url source_name) (collects [])
    (scrape_url_selenium url source_name).
Proof.
  unfold scrape_url_selenium. apply catches_try_ret; [|by intros].
  intros st. unfold mbind, M_bind, bind.
  pose proof (collects_call (driver_get url) st) as H1.
  destruct (call (driver_get url) st) as [[[]|e|] st1]; simpl in H1;
    [|done..].
  pose proof (collects_call (wait_until_body 10) st1) as H2.
  destruct (call (wait_until_body 10) st1) as [[[]|e|] st2]; simpl in H2;
    [|by apply (collects_trans [] [] st st1 st2)|done].
  pose proof (collects_call driver_page_source st2) as H3.
  destruct (call driver_page_source st2) as [[html|e|] st3]; simpl in H3;
    [|by apply (collects_trans [] [] st st1 st3);
        [|apply (collects_trans [] [] st1 st2 st3)]|done].
  assert (H03 : collects [] st st3).
  { apply (collects_trans [] [] st st1 st3); [done|].
    by apply (collects_trans [] [] st1 st2 st3). }
  pose proof (parse_html_spec html url source_name st3) as Hp.
  destruct (parse_html html url source_name st3) as [[[doc|]|e|] st4];
    simpl in *; [| | |done].
  - destruct Hp as [Hc Hpage]. split; [|done].
    by apply (collects_trans [] [doc] st st3 st4).
  - by apply (collects_trans [] [] st st3 st4).
  - destruct Hp as [_ Hc]. by apply (collects_trans [] [] st st3 st4).
Qed.

Lemma scrape_url_requests_spec (url source_name : pystr) :
  catches (page_spec url source_name) (collects [])
    (scrape_url_requests url source_name).
Proof.
  unfold scrape_url_requests. apply catches_try_ret; [|by intros].
  intros st. unfold mbind, M_bind, bind, lift.
  pose proof (collects_call (requests_get url) st) as H1.
  destruct (call (requests_get url) st) as [[response|e|] st1]; simpl in H1;
    [|done..].
  destruct (raise_for_status response) as [[]|e|]; [|done..].
  pose proof (parse_html_spec (text response) url source_name st1) as Hp.
  destruct (parse_html (text response) url source_name st1)
    as [[[doc|]|e|] st2]; simpl in *; [| | |done].
  - destruct Hp as [Hc Hpage]. split; [|done].
    by apply (collects_trans [] [doc] st st1 st2).
  - by apply (collects_trans [] [] st st1 st2).
  - destruct Hp as [_ Hc]. by apply (collects_trans [] [] st st1 st2).
Qed.

Lemma scrape_url_spec (url source_name : pystr) :
  catches (page_spec url source_name) (collects [])
    (scrape_url url source_name).
Proof.
  intros st. unfold scrape_url, mbind, M_bind, bind, get.
  destruct (driver st);
    [apply scrape_url_selenium_spec|apply scrape_url_requests_spec].
Qed.

Lemma scrape_target_spec (base source_name : pystr)
    (source_data : list Ingest.Document) (target_path : pystr) :
  let pages new :=
    Forall (fun doc =>
              exists full_url,
                urljoin base target_path = Ok full_url
                /\ page_of full_url source_name doc) new in
  catches (fun source_data' st st' =>
             exists new,
               source_data' = source_data ++ new
               /\ collects new st st' /\ pages new)
    (fun st st' => exists new, collects new st st' /\ pages new)
    (scrape_target base source_name source_data target_path).
Proof.
  intros pages st. unfold scrape_target, try_except, mbind, M_bind, bind, lift.
  assert (Hnil : pages []) by constructor.
  destruct (urljoin base target_path) as [full_url|e|] eqn:Hjoin; [| |done].
  2: { destruct (is_Exception e) eqn:He; simpl.
       - exists []. rewrite app_nil_r. repeat split; try done.
         apply collects_refl.
       - split; [done|]. exists []. split; [apply collects_refl|done]. }
  pose proof (scrape_url_spec full_url source_name st) as Hs.
  destruct (scrape_url full_url source_name st) as [[document|e|] st1];
    simpl in Hs; [| |done].
  2: { destruct Hs as [He Hc]. rewrite He. split; [done|]. by exists []. }
  pose proof (collects_call (time_sleep 2) st1) as Hsleep.
  assert (Hnew : exists new,
    match document with Some d => source_data ++ [d] | None => source_data end
    = source_data ++ new
    /\ collects new st (call (time_sleep 2) st1).2 /\ pages new).
  { destruct document as [d|].
    - destruct Hs as [Hc Hpage]. exists [d]. split; [done|]. split.
      + by apply (collects_trans [d] [] st st1) in Hsleep;
          [rewrite app_nil_r in Hsleep|].
      + constructor; [by exists full_url|constructor].
    - exists []. split; [by rewrite app_nil_r|]. split; [|done].
      by apply (collects_trans [] [] st st1). }
  destruct (call (time_sleep 2) st1) as [[[]|e|] st2]; simpl in *;
    [done| |done].
  destruct Hnew as (new & Hacc & Hc & Hp).
  destruct (is_Exception e) eqn:He; simpl; [by exists new|].
  rewrite He. split; [done|]. by exists new.
Qed.

Lemma for_fold_targets (base source_name : pystr) (targets : list pystr)
    (source_data : list Ingest.Document) :
  let pages new :=
    Forall (fun doc =>
              exists target_path full_url,
                In target_path targets
                /\ urljoin base target_path = Ok full_url
                /\ page_of full_url source_name doc) new in
  catches (fun source_data' st st' =>
             exists new,
               source_data' = source_data ++ new
               /\ collects new st st' /\ pages new)
    (fun st st' => exists new, collects new st st' /\ pages new)
    (for_fold targets source_data (scrape_target base source_name)).
Proof.
  revert source_data.
  induction targets as [|target_path targets IH]; intros source_data pages st.
  - simpl. exists []. rewrite app_nil_r. repeat split; try done.
    + apply collects_refl.
    + constructor.
  - cbn [for_fold]. unfold bind.
    pose proof (scrape_target_spec base source_name source_data target_path st)
      as Hone. cbv zeta in Hone.
    assert (Hfirst : forall new,
      Forall (fun doc =>
                exists full_url,
                  urljoin base target_path = Ok full_url
                  /\ page_of full_url source_name doc) new -> pages new).
    { intros new Hall. eapply Forall_impl; [exact Hall|].
      intros doc (u & Hu & Hp). exists target_path, u.
      split; [by left|]. by split. }
    assert (Hrest : forall new,
      Forall (fun doc =>
                exists t full_url,
                  In t targets /\ urljoin base t = Ok full_url
                  /\ page_of full_url source_name doc) new -> pages new).
    { intros new Hall. eapply Forall_impl; [exact Hall|].
      intros doc (t & u & Ht & Hu & Hp). exists t, u.
      split; [by right|]. by split. }
    destruct (scrape_target base source_name source_data target_path st)
      as [[acc|e|] st1]; simpl in Hone; [| |done].
    2: { destruct Hone as (He & new & Hc & Hall). split; [done|].
         exists new. split; [done|by apply Hfirst]. }
    destruct Hone as (new1 & -> & Hc1 & Hall1).
    specialize (IH (source_data ++ new1) st1). cbv zeta in IH.
    destruct (for_fold targets (source_data ++ new1)
                (scrape_target base source_name) st1)
      as [[acc|e|] st2]; [| |done].
    + destruct IH as (new2 & -> & Hc2 & Hall2).
      exists (new1 ++ new2). split; [by rewrite app_assoc|].
      split; [by apply (collects_trans new1 new2 st st1 st2)|].
      apply Forall_app. split; [by apply Hfirst|by apply Hrest].
    + destruct IH as (He & new2 & Hc2 & Hall2). split; [done|].
      exists (new1 ++ new2).
      split; [by apply (collects_trans new1 new2 st st1 st2)|].
      apply Forall_app. split; [by apply Hfirst|by apply Hrest].
Qed.

Lemma scrape_source_spec (source_name : pystr) :
  catches (fun result st st' =>
             collects result st st'
             /\ Forall (from_source source_name) result)
    (fun st st' =>
       exists new, collects new st st'
                   /\ Forall (from_source source_name) new)
    (scrape_source source_name).
Proof.
  intros st. unfold scrape_source.
  destruct (dict_get sources source_name) as [source_config|] eqn:Hsrc.
  - pose proof (for_fold_targets source_config.(base_url) source_name
                  source_config.(targets) [] st) as Hf. cbv zeta in Hf.
    assert (Hfrom : forall new,
      Forall (fun doc =>
                exists t full_url,
                  In t source_config.(targets)
                  /\ urljoin source_config.(base_url) t = Ok full_url
                  /\ page_of full_url source_name doc) new ->
      Forall (from_source source_name) new).
    { intros new Hall. eapply Forall_impl; [exact Hall|].
      intros doc (t & u & Ht & Hu & Hp). by exists source_config, t, u. }
    destruct (for_fold _ _ _ st) as [[result|e|] st1]; [| |done].
    + destruct Hf as (new & -> & Hc & Hall). split; [done|by apply Hfrom].
    + destruct Hf as (He & new & Hc & Hall). split; [done|].
      exists new. split; [done|by apply Hfrom].
  - simpl. split; [apply collects_refl|constructor].
Qed.

Lemma gathers_refl (st : @State W) : gathers st st.
Proof. exists []. split; [apply collects_refl|constructor]. Qed.

Lemma gathers_trans (st st' st'' : @State W) :
  gathers st st' -> gathers st' st'' -> gathers st st''.
Proof.
  intros (new & Hc & Hs) (new' & Hc' & Hs'). exists (new ++ new').
  split; [by apply (collects_trans new new' st st' st'')|].
  by apply Forall_app.
Qed.

#[local] Instance gathers_preorder : PreOrder (gathers (W:=W)).
Proof.
  split; [intros st; apply gathers_refl|].
  intros a b c. apply gathers_trans.
Qed.

Lemma gathers_call {A} (f : W -> outcome A * W) (st : @State W) :
  gathers st (call f st).2.
Proof. exists []. split; [apply collects_call|constructor]. Qed.

Lemma gathers_set_driver (d : bool) (st : @State W) :
  gathers st (set_driver d st).2.
Proof. exists []. split; [|constructor]. unfold collects. simpl.
  by rewrite app_nil_r. Qed.

(** [setup_driver] only changes the browser and [self.driver]. *)
Lemma setup_driver_gathers : Inv.respects gathers setup_driver.
Proof.
  unfold setup_driver.
  apply respects_try_except; [apply _| |intros e st; apply gathers_set_driver].
  apply respects_mbind; [apply _|apply respects_get; apply _|]. intros st0.
  apply respects_mbind; [apply _| |intros _].
  { apply respects_try_except_all; [apply _| |]; intros st;
      apply gathers_call. }
  apply respects_mbind; [apply _|intros st; apply gathers_call|intros _].
  apply respects_mbind; [apply _|intros st; apply gathers_set_driver|intros _].
  intros st. apply gathers_call.
Qed.

(** [setup_driver] catches every [Exception] of the browser. *)
Lemma setup_driver_spec :
  catches (fun _ st st' => gathers st st') gathers setup_driver.
Proof.
  intros st. pose proof (setup_driver_gathers st) as Hg.
  unfold setup_driver, try_except in *.
  match goal with
  | |- context [match ?body st with _ => _ end] =>
      destruct (body st) as [[[]|e|] st1]
  end; [done| |done].
  destruct (is_Exception e) eqn:He; simpl in *; [done|by split].
Qed.

(** The loop over the sources of [scrape_all_sources]. *)
Lemma sources_loop_spec (names : list pystr) :
  spec (fun _ st st' => gathers st st') (fun _ st st' => gathers st st')
    (for_each names (fun source_name =>
       scrape_source source_name ;; call (time_sleep 3))).
Proof.
  induction names as [|name names IH]; intros st; [apply gathers_refl|].
  cbn [for_each]. unfold mbind, M_bind, bind.
  pose proof (scrape_source_spec name st) as Hs.
  assert (Hfrom : forall new,
    Forall (from_source name) new -> Forall stored new).
  { intros new Hall. eapply Forall_impl; [exact Hall|].
    intros doc Hdoc. by exists name. }
  destruct (scrape_source name st) as [[result|e|] st1]; [| |done].
  2: { destruct Hs as (_ & new & Hc & Hall). exists new.
       split; [done|by apply Hfrom]. }
  destruct Hs as [Hc Hall].
  assert (H01 : gathers st st1).
  { exists result. split; [done|by apply Hfrom]. }
  pose proof (gathers_call (time_sleep 3) st1) as Hsleep.
  destruct (call (time_sleep 3) st1) as [[[]|e|] st2]; simpl in Hsleep;
    [|by eapply gathers_trans|done].
  specialize (IH st2). unfold mbind, M_bind, bind in IH.
  destruct (for_each names _ st2) as [[[]|e|] st3]; [| |done].
  - eapply gathers_trans; [|exact IH]. by eapply gathers_trans.
  - eapply gathers_trans; [|exact IH]. by eapply gathers_trans.
Qed.

Lemma scrape_all_sources_spec (st : @State W) :
  match scrape_all_sources st with
  | (Ok _, st') => gathers st st'
  | (Raise e, st') =>
      gathers st st'
      /\ (is_Exception e = false \/ exists w, (driver_quit w).1 = Raise e)
  | (Diverge, _) => True
  end.
Proof.
  unfold scrape_all_sources, try_finally.
  set (body := try_except _ _).
  assert (Hbody : catches (fun _ st st' => gathers st st') gathers body).
  { subst body. intros st0. unfold try_except, mbind, M_bind, bind.
    pose proof (setup_driver_spec st0) as H1.
    destruct (setup_driver st0) as [[[]|e|] st1]; [| |done].
    2: { destruct H1 as [He Hg]. by rewrite He. }
    pose proof (sources_loop_spec (map fst sources) st1) as H2.
    unfold mbind, M_bind, bind in H2.
    destruct (for_each (map fst sources) _ st1) as [[[]|e|] st2]; [| |done].
    - by eapply gathers_trans.
    - destruct (is_Exception e) eqn:He; simpl;
        [|split; [done|]]; by eapply gathers_trans. }
  specialize (Hbody st). unfold mbind, M_bind, bind, get.
  destruct (body st) as [[[]|e|] st2]; [| |done].
  - destruct (driver st2) eqn:Hd; [|done].
    pose proof (gathers_call driver_quit st2) as H3.
    unfold call in *. destruct (driver_quit (world st2)) as [[[]|e|] w] eqn:Hq;
      simpl in *; [by eapply gathers_trans| |done].
    split; [by eapply gathers_trans|]. right.
    exists (world st2). by rewrite Hq.
  - destruct Hbody as [He Hg]. cbn [ret]. destruct (driver st2) eqn:Hd;
      [|split; [done|by left]].
    pose proof (gathers_call driver_quit st2) as H3.
    unfold call in *. destruct (driver_quit (world st2)) as [[[]|e'|] w] eqn:Hq;
      simpl in *; [| |done].
    + split; [by eapply gathers_trans|by left].
    + split; [by eapply gathers_trans|]. right.
      exists (world st2). by rewrite Hq.
Qed.



End Collecting.


(** X18. [scrape_source] raises no [Exception], and the list it returns
    is exactly what it appended to [scraped_data], in order; each of these
    documents is the page of one of the targets of that source, at the URL
    [urljoin] gave. Only an exception outside [Exception] passes, and then
    too what was appended are pages of that source. For a name that is not
    configured it returns the empty list and does nothing. *)
Theorem scrape_source_returns_what_it_stores {W Tag : Type}
    `{Scraper.External W Tag} (source_name : pystr) (st : @Scraper.State W) :
  let r := Scraper.scrape_source source_name st in
  (forall e, r.1 = Raise e ->
     is_Exception e = false
     /\ exists new,
          r.2.(Scraper.scraped_data) = st.(Scraper.scraped_data) ++ new
          /\ Forall (ScraperInv.from_source source_name) new)
  /\ (forall result, r.1 = Ok result ->
        r.2.(Scraper.scraped_data) = st.(Scraper.scraped_data) ++ result
        /\ Forall (ScraperInv.from_source source_name) result)
  /\ (Scraper.dict_get Scraper.sources source_name = None -> r = (Ok [], st)).
Proof.
  intros r. subst r. pose proof (scrape_source_spec source_name st) as Hs.
  split; [|split].
  - intros e He. destruct (Scraper.scrape_source source_name st) as [[] st1];
      simpl in *; try done.
    injection He as ->. destruct Hs as (Hex & new & (_ & _ & Hd) & Hall).
    split; [done|]. by exists new.
  - intros result Hr.
    destruct (Scraper.scrape_source source_name st) as [[] st1];
      simpl in *; try done.
    injection Hr as ->. destruct Hs as [(_ & _ & Hd) Hall]. done.
  - intros Hnone. unfold Scraper.scrape_source. by rewrite Hnone.
Qed.

(** X19. An [Exception] can leave [scrape_all_sources] only if
    [driver.quit()] raised it in the [finally] clause: every [Exception]
    of the browser setup and of the loop over the sources is caught. What
    else leaves it is outside [Exception]. Unless a service hangs,
    [scraped_data] has only grown, by pages of targets of the configured
    sources, and nothing was printed. *)
Theorem scrape_all_sources_only_quit_escapes {W Tag : Type}
    `{Scraper.External W Tag} (st : @Scraper.State W) :
  let r := Scraper.scrape_all_sources st in
  (forall e, r.1 = Raise e ->
     is_Exception e = false
     \/ exists w, (Scraper.driver_quit w).1 = Raise e)
  /\ (r.1 <> Diverge ->
        exists new,
          r.2.(Scraper.scraped_data) = st.(Scraper.scraped_data) ++ new
          /\ Forall ScraperInv.stored new
          /\ r.2.(Scraper.stdout) = st.(Scraper.stdout)).
Proof.
  intros r. subst r. pose proof (scrape_all_sources_spec st) as Hs.
  destruct (Scraper.scrape_all_sources st) as [[[]|e|] st1]; simpl.
  - split; [done|]. intros _. destruct Hs as (new & (_ & Ho & Hd) & Hall).
    by exists new.
  - destruct Hs as [(new & (_ & Ho & Hd) & Hall) Hq]. split.
    + intros e' [= <-]. done.
    + intros _. by exists new.
  - done.
Qed.

(** ** The scraper's report *)

Section Report.

Import Scraper ScraperInv.

Context {W Tag : Type} `{External W Tag}.


End Report.


(** ** The summary by source *)

Section Summary.

Import Scraper ScraperInv.

Lemma dict_get_bump (d : list (pystr * Z)) (key name : pystr) :
  dict_get (dict_bump d key) name
  = if decide (key = name) then Some (default 0 (dict_get d key) + 1)
    else dict_get d name.
Proof.
  induction d as [|[k n] d IH]; simpl.
  - destruct (decide (key = name)); done.
  - destruct (decide (k = key)) as [->|Hk]; simpl.
    + destruct (decide (key = name)); done.
    + rewrite IH. destruct (decide (key = name)) as [->|Hn].
      * by destruct (decide (k = name)).
      * done.
Qed.

Lemma dict_bump_keys (d : list (pystr * Z)) (key name : pystr) :
  In name (map fst (dict_bump d key)) -> name = key \/ In name (map fst d).
Proof.
  induction d as [|[k n] d IH]; simpl.
  - intros [<-|[]]. by left.
  - destruct (decide (k = key)) as [->|Hk]; simpl.
    + intros [<-|Hin]; [by left|by right; right].
    + intros [<-|Hin]; [by right; left|].
      destruct (IH Hin); [by left|by right; right].
Qed.

Lemma dict_bump_NoDup (d : list (pystr * Z)) (key : pystr) :
  List.NoDup (map fst d) -> List.NoDup (map fst (dict_bump d key)).
Proof.
  induction d as [|[k n] d IH]; simpl; intros Hnd.
  - constructor; [by intros []|constructor].
  - inversion Hnd as [|? ? Hk Hnd']; subst.
    destruct (decide (k = key)) as [->|Hne]; simpl; [by constructor|].
    constructor; [|by apply IH].
    intros Hin. apply dict_bump_keys in Hin as [->|Hin]; done.
Qed.

Lemma dict_bump_sum (d : list (pystr * Z)) (key : pystr) :
  fold_right Z.add 0 (map snd (dict_bump d key))
  = fold_right Z.add 0 (map snd d) + 1.
Proof.
  induction d as [|[k n] d IH]; simpl; [done|].
  destruct (decide (k = key)); simpl; lia.
Qed.

Lemma dict_get_In (d : list (pystr * Z)) (name : pystr) (n : Z) :
  List.NoDup (map fst d) -> In (name, n) d <-> dict_get d name = Some n.
Proof.
  induction d as [|[k m] d IH]; simpl; intros Hnd; [by split|].
  inversion Hnd as [|? ? Hk Hnd']; subst.
  destruct (decide (k = name)) as [->|Hne].
  - split.
    + intros [[= ->]|Hin]; [done|]. destruct Hk.
      apply in_map_iff. by exists (name, n).
    + intros [= ->]. by left.
  - rewrite <- IH by done. split; [|by right].
    intros [[= -> ->]|Hin]; done.
Qed.

Lemma count_source_cons (name : pystr) (doc : Ingest.Document)
    (docs : list Ingest.Document) :
  count_source name (doc :: docs)
  = (if decide (doc.(Ingest.source) = name) then 1 else 0)
    + count_source name docs.
Proof.
  unfold count_source. simpl.
  destruct (decide (Ingest.source doc = name)) as [Heq|Hne].
  - rewrite bool_decide_true by done. rewrite len_cons. done.
  - rewrite bool_decide_false by done. lia.
Qed.

Lemma count_source_nonneg (name : pystr) (docs : list Ingest.Document) :
  0 <= count_source name docs.
Proof. apply len_nonneg. Qed.

(** The loop of [main] over the documents, from any dictionary. *)
Lemma summary_fold (docs : list Ingest.Document) (d : list (pystr * Z)) :
  let summary :=
    fold_left (fun summary doc => dict_bump summary doc.(Ingest.source))
      docs d in
  (List.NoDup (map fst d) -> List.NoDup (map fst summary))
  /\ (forall name,
        dict_get summary name
        = if count_source name docs =? 0 then dict_get d name
          else Some (default 0 (dict_get d name) + count_source name docs))
  /\ fold_right Z.add 0 (map snd summary)
     = fold_right Z.add 0 (map snd d) + len docs.
Proof.
  revert d. induction docs as [|doc docs IH]; intros d; simpl.
  - split; [done|]. split; [done|]. change (len []) with 0. lia.
  - destruct (IH (dict_bump d doc.(Ingest.source))) as (Hnd & Hget & Hsum).
    split; [|split].
    + intros Hd. by apply Hnd, dict_bump_NoDup.
    + intros name. rewrite Hget, dict_get_bump, count_source_cons.
      pose proof (count_source_nonneg name docs).
      destruct (decide (Ingest.source doc = name)) as [->|Hne].
      * destruct (Z.eqb_spec (count_source name docs) 0) as [->|Hz];
          destruct (Z.eqb_spec (1 + count_source name docs) 0);
          try lia; simpl; f_equal; lia.
      * done.
    + rewrite Hsum, dict_bump_sum, len_cons. lia.
Qed.

End Summary.

(** X21. The summary [main] prints has one entry per source that occurs
    in the scraped documents, none twice; the count of an entry is the
    number of documents of that source, and the counts add up to the
    number of documents. *)
Theorem sources_summary_counts (docs : list Ingest.Document) :
  let summary := Scraper.sources_summary docs in
  List.NoDup (map fst summary)
  /\ (forall name n,
        In (name, n) summary
        <-> n = ScraperInv.count_source name docs /\ 0 < n)
  /\ fold_right Z.add 0 (map snd summary) = len docs.
Proof.
  intros summary. subst summary. unfold Scraper.sources_summary.
  destruct (summary_fold docs []) as (Hnd & Hget & Hsum).
  specialize (Hnd ltac:(constructor)). split; [done|]. split; [|done].
  intros name n. rewrite dict_get_In by done. rewrite Hget. simpl.
  pose proof (count_source_nonneg name docs).
  destruct (Z.eqb_spec (ScraperInv.count_source name docs) 0) as [Hz|Hz].
  - split; [done|]. intros [-> Hpos]. lia.
  - split; [intros [= <-]; lia|]. intros [-> _]. done.
Qed.

(** ** From the scraper to the chunker *)

Section Handover.

Import Scraper ScraperInv Chunker Windows.

(** [lstrip] removes at most one character when the second character is
    not whitespace whenever the first is. *)
Lemma length_lstrip_one (u : pystr) :
  (forall b a u', u = b :: a :: u' -> isspace b = true -> isspace a = false) ->
  (length u <= S (length (lstrip u)))%nat.
Proof.
  intros Hadj. destruct u as [|b [|a u']]; simpl.
  - lia.
  - destruct (isspace b); simpl; lia.
  - destruct (isspace b) eqn:Hb; [|simpl; lia].
    rewrite (Hadj b a u' eq_refl Hb). simpl. lia.
Qed.

(** [strip] removes at most one character from a text that starts with a
    character of a word and never repeats whitespace. *)
Lemma len_strip_spaced (t : pystr) :
  (forall c, head t = Some c -> isspace c = false) ->
  (forall (i : nat) a b, t !! i = Some a -> t !! S i = Some b ->
     isspace a = true -> isspace b = false) ->
  len t - 1 <= len (strip t).
Proof.
  intros Hhd Hadj. unfold strip, rstrip. rewrite (lstrip_head_fixed t Hhd).
  unfold len. rewrite length_rev.
  pose proof (length_lstrip_one (rev t)) as Hone.
  rewrite length_rev in Hone. enough (length t <= S (length (lstrip (rev t))))%nat
    by lia.
  apply Hone. intros b a u' Hrev Hb.
  assert (Ht : t = rev u' ++ [a; b]).
  { rewrite <- (rev_involutive t), Hrev. simpl. by rewrite <- app_assoc. }
  destruct (isspace a) eqn:Ha; [|done].
  rewrite <- (Hadj (length (rev u')) a b); [done| | |done].
  - rewrite Ht, lookup_app_r by lia. by rewrite Nat.sub_diag.
  - rewrite Ht, lookup_app_r by lia.
    by replace (S (length (rev u')) - length (rev u'))%nat with 1%nat by lia.
Qed.

(** The first window of a text of more than 200 characters gives more
    than 200 characters before [strip]. *)
Lemma first_raw_chunk_long (text : pystr) :
  200 < len text -> 200 < len (raw_chunk text 500 0).
Proof.
  intros Hlong. unfold raw_chunk.
  assert (Hwin : len (slice text 0 (0 + 500)) = Z.min 500 (len text)).
  { rewrite len_slice by lia. pose proof (len_nonneg text). lia. }
  destruct (0 + 500 <? len text); [|lia].
  rewrite break_at_sentence_default. cbv zeta.
  set (last_sentence_end := Z.max _ _).
  destruct (Z.ltb_spec 350 last_sentence_end) as [Hcut|Hkeep]; [|lia].
  rewrite len_slice by lia.
  assert (last_sentence_end < len (slice text 0 (0 + 500))).
  { subst last_sentence_end.
    destruct (rfind_spec (slice text 0 (0 + 500)) period) as [[-> _]|[? _]],
      (rfind_spec (slice text 0 (0 + 500)) exclaim) as [[-> _]|[? _]],
      (rfind_spec (slice text 0 (0 + 500)) question) as [[-> _]|[? _]]; lia. }
  lia.
Qed.

End Handover.

(** X22. No document the scraper stores is dropped by the ingestion run:
    for a content as [parse_html] stores it (cleaned, more than 200
    characters), [chunk_text] with the default sizes returns at least one
    chunk, and its first chunk starts the content and has at least 200
    characters. *)
Theorem scraped_content_gives_a_chunk (content : pystr) (fuel : nat) :
  Scraper.clean_up content = content ->
  200 < len content ->
  (length content < fuel)%nat ->
  exists first rest,
    Chunker.chunk_text Chunker.DocumentProcessor_init fuel content None None
    = Some (first :: rest)
    /\ first `prefix_of` content
    /\ 200 <= len first.
Proof.
  intros Hclean Hlong Hfuel.
  destruct (clean_up_shape content) as [Hhd0 Hadj].
  rewrite Hclean in Hhd0, Hadj.
  unfold Chunker.chunk_text. cbn [default Chunker.chunk_size Chunker.overlap
    Chunker.DocumentProcessor_init].
  rewrite (chunk_loop_windows content 500 50) by (unfold len; lia).
  destruct fuel as [|fuel]; [lia|]. cbn [Windows.window_starts].
  destruct (Z.ltb_spec 0 (len content)) as [_|]; [|lia].
  cbn [app map fmap option_fmap option_map].
  set (raw := Chunker.raw_chunk content 500 0).
  assert (Hprefix : raw `prefix_of` content).
  { etrans; [apply raw_chunk_prefix|]. apply slice_0_prefix. }
  pose proof (first_raw_chunk_long content Hlong) as Hraw. fold raw in Hraw.
  clearbody raw.
  assert (Hhd : forall c, head raw = Some c -> isspace c = false).
  { intros c Hc. apply Hhd0. destruct Hprefix as [post ->].
    by destruct raw. }
  assert (Hadj' : forall (i : nat) a b, raw !! i = Some a ->
    raw !! S i = Some b -> isspace a = true -> isspace b = false).
  { intros i a b Ha Hb. apply (Hadj i).
    - by eapply prefix_lookup_Some.
    - by eapply prefix_lookup_Some. }
  pose proof (len_strip_spaced raw Hhd Hadj') as Hkept.
  pose proof (len_strip_le raw) as Hle.
  exists (strip raw). eexists. split; [|split].
  - unfold Chunker.keep_long. cbn [List.filter].
    unfold Chunker.long_enough at 1. rewrite strip_idem.
    destruct (Z.ltb_spec 50 (len (strip raw))); [reflexivity|lia].
  - etrans; [|exact Hprefix]. unfold strip, rstrip.
    rewrite (lstrip_head_fixed raw Hhd).
    destruct (lstrip_suffix (rev raw)) as [p Hp].
    exists (rev p). rewrite <- (rev_involutive raw) at 1.
    rewrite Hp at 1. by rewrite rev_app_distr.
  - lia.
Qed.

Lemma scraped_content_gives_a_chunk_witness :
  exists first rest,
    Chunker.chunk_text Chunker.DocumentProcessor_init 300
      (Scraper.clean_up (repeat 97 250)) None None
    = Some (first :: rest)
    /\ first `prefix_of` Scraper.clean_up (repeat 97 250)
    /\ 200 <= len first.
Proof.
  apply (scraped_content_gives_a_chunk (Scraper.clean_up (repeat 97 250)) 300).
  - vm_compute. reflexivity.
  - vm_compute. reflexivity.
  - vm_compute. lia.
Defined.

(** ** The setup menu *)

Section SetupFacts.

Import Setup SetupInv.

Context {W : Type} `{External W}.

Lemma ran_refl (st : @State W) : ran [] st st.
Proof. unfold ran. by rewrite app_nil_r. Qed.

Lemma ran_trans (l l' : list (pystr * bool)) (st st' st'' : @State W) :
  ran l st st' -> ran l' st' st'' -> ran (l ++ l') st st''.
Proof. unfold ran. intros -> ->. by rewrite app_assoc. Qed.

Lemma ran_call {A} (f : W -> outcome A * W) (st : @State W) :
  ran [] st (call f st).2.
Proof. unfold call, ran. destruct (f _). simpl. by rewrite app_nil_r. Qed.

Lemma ran_print (line : pystr) (st : @State W) : ran [] st (print line st).2.
Proof. unfold ran. simpl. by rewrite app_nil_r. Qed.

(** [run_command] runs its command once; it gives [None] or raises only
    when the command did not return normally. *)
Lemma run_command_spec (command description : pystr) (st : @State W) :
  match run_command command description st with
  | (Ok (Some _), st') => ran [(command, true)] st st'
  | (_, st') => ran [(command, false)] st st'
  end.
Proof.
  unfold run_command, try_except_class, mbind, M_bind, bind, shell, print,
    modify, ran. cbn [fst snd world stdout commands].
  destruct (subprocess_run command true (world st)) as [[out|e|] w]; simpl;
    [done| |done].
  destruct (decide (cls_of e = "CalledProcessError"%string)); done.
Qed.

#[local] Instance ran_nil_preorder : PreOrder (ran (W:=W) []).
Proof.
  split; [intros st; apply ran_refl|].
  intros a b c Hab Hbc. apply (ran_trans [] [] a b c Hab Hbc).
Qed.

Lemma quiet_call {A} (f : W -> outcome A * W) :
  Inv.respects (ran []) (call f).
Proof. intros st. apply ran_call. Qed.

Lemma quiet_print (line : pystr) : Inv.respects (ran (W:=W) []) (print line).
Proof. intros st. apply ran_print. Qed.

(** Steps through a computation that runs no command. *)
Ltac quiet :=
  repeat first
    [ apply quiet_print
    | apply quiet_call
    | apply respects_ret; apply _
    | apply respects_raise; apply _
    | apply respects_mbind; [apply _| |intros ?]
    | apply respects_try_except; [apply _| |intros ?]
    | apply respects_try_except_all; [apply _| |]
    | match goal with
      | |- Inv.respects _ (if ?b then _ else _) => destruct b
      | |- Inv.respects _ (match ?x with _ => _ end) => destruct x
      end ].

Lemma check_requirements_quiet : Inv.respects (ran []) check_requirements.
Proof. unfold check_requirements. quiet. Qed.

Lemma check_requirements_spec (st : @State W) :
  ran [] st (check_requirements st).2.
Proof. apply check_requirements_quiet. Qed.

Lemma logs_quiet {A} (m : M (@State W) A) :
  Inv.respects (ran []) m -> logs (fun _ l => l = []) m.
Proof. intros Hm st. exists []. split; [apply Hm|done]. Qed.

Lemma logs_weaken {A} (Q Q' : option A -> list (pystr * bool) -> Prop)
    (m : M (@State W) A) :
  logs Q m -> (forall r l, Q r l -> Q' r l) -> logs Q' m.
Proof.
  intros Hm HQ st. destruct (Hm st) as (l & Hl & Hq). exists l.
  split; [done|by apply HQ].
Qed.

Lemma logs_bind {A B} (Q1 : option A -> list (pystr * bool) -> Prop)
    (Q2 : A -> option B -> list (pystr * bool) -> Prop)
    (m : M (@State W) A) (k : A -> M (@State W) B) :
  logs Q1 m -> (forall a, logs (Q2 a) (k a)) ->
  logs (fun r l =>
          (r = None /\ Q1 None l)
          \/ exists a l1 l2, l = l1 ++ l2 /\ Q1 (Some a) l1 /\ Q2 a r l2)
    (m ≫= k).
Proof.
  intros Hm Hk st. unfold mbind, M_bind, bind.
  destruct (Hm st) as (l1 & Hl1 & Hq1).
  destruct (m st) as [[a|e|] st1]; simpl in *;
    [|exists l1; split; [done|by left]..].
  destruct (Hk a st1) as (l2 & Hl2 & Hq2). exists (l1 ++ l2).
  split; [by apply (ran_trans l1 l2 st st1)|]. right. by exists a, l1, l2.
Qed.

Lemma logs_if {A} (b : bool)
    (Q1 Q2 : option A -> list (pystr * bool) -> Prop)
    (m1 m2 : M (@State W) A) :
  logs Q1 m1 -> logs Q2 m2 ->
  logs (fun r l => if b then Q1 r l else Q2 r l) (if b then m1 else m2).
Proof. by destruct b. Qed.

Lemma logs_option {A B} (o : option B)
    (Q1 : B -> option A -> list (pystr * bool) -> Prop)
    (Q2 : option A -> list (pystr * bool) -> Prop)
    (m1 : B -> M (@State W) A) (m2 : M (@State W) A) :
  (forall x, logs (Q1 x) (m1 x)) -> logs Q2 m2 ->
  logs (fun r l => match o with Some x => Q1 x r l | None => Q2 r l end)
    (match o with Some x => m1 x | None => m2 end).
Proof. intros H1 H2. by destruct o. Qed.

Lemma logs_decide {A} (P : Prop) `{Decision P}
    (Q1 Q2 : option A -> list (pystr * bool) -> Prop)
    (m1 m2 : M (@State W) A) :
  logs Q1 m1 -> logs Q2 m2 ->
  logs (fun r l => Q1 r l \/ Q2 r l) (if decide P then m1 else m2).
Proof.
  intros H1 H2. destruct (decide P).
  - eapply logs_weaken; [exact H1|]. by left.
  - eapply logs_weaken; [exact H2|]. by right.
Qed.

Lemma logs_ret {A} (a : A) :
  logs (W:=W) (fun r l => r = Some a /\ l = []) (ret a).
Proof. intros st. exists []. split; [apply ran_refl|done]. Qed.

Lemma logs_print (line : pystr) :
  logs (W:=W) (fun r l => r = Some tt /\ l = []) (print line).
Proof. intros st. exists []. split; [apply ran_print|done]. Qed.

Lemma logs_call {A} (f : W -> outcome A * W) :
  logs (fun _ l => l = []) (call f).
Proof. apply logs_quiet, quiet_call. Qed.

(** [run_command] runs its command once; it gives [None] or raises only
    when the command did not return normally. *)
Lemma logs_run_command (command description : pystr) :
  logs (fun r l =>
          l = [(command, match r with Some (Some _) => true | _ => false end)])
    (run_command command description).
Proof.
  intros st. pose proof (run_command_spec command description st) as Hs.
  destruct (run_command command description st) as [[[out|]|e|] st1];
    eexists; (split; [exact Hs|done]).
Qed.

Lemma logs_probe (imported : bool) (timeout : Z) :
  logs (fun r l => l = []) (probe imported timeout).
Proof. apply logs_quiet. unfold probe. quiet. Qed.

Lemma logs_could_not_start :
  logs (W:=W) (fun r l => r = Some false /\ l = []) could_not_start.
Proof.
  intros st. exists []. split; [|done]. unfold ran. simpl.
  by rewrite app_nil_r.
Qed.

(** Builds the commands run by a computation from those of its steps. *)
Ltac logging_with known :=
  repeat first
    [ known
    | apply logs_print
    | apply logs_ret
    | apply logs_call
    | apply logs_probe
    | apply logs_run_command
    | apply logs_could_not_start
    | eapply logs_bind; [|intros ?]
    | apply logs_if
    | apply logs_decide
    | apply logs_option; [intros ?|]
    | apply logs_quiet; solve [quiet] ].

Ltac logging := logging_with fail.

(** Takes apart what [logging] built. *)
Ltac unlog :=
  repeat first
    [ progress simplify_eq/=
    | match goal with
      | H : _ /\ _ |- _ => destruct H
      | H : exists _, _ |- _ => destruct H
      | H : _ \/ _ |- _ => destruct H
      | H : Some true = Some true -> _ |- _ => specialize (H eq_refl)
      | H : context [if negb ?b then _ else _] |- _ => destruct b
      | H : context [if ?b then _ else _] |- _ => destruct b
      | H : context [match ?o with Some _ => _ | None => _ end] |- _ =>
          destruct o
      end ].

Lemma logs_check_qdrant :
  logs (W:=W)
    (fun r l =>
       l = []
       \/ exists b, l = [(docker_run, b)] /\ (r = Some true -> b = true))
    check_qdrant.
Proof.
  unfold check_qdrant. eapply logs_weaken; [logging|].
  intros r l Hl. unlog; try (by left); right; eexists; (split; [done|]);
    try done.
Qed.

Lemma logs_run_scraper :
  logs (W:=W)
    (fun r l =>
       exists b, l = [(python_scraper, b)] /\ (r = Some true -> b = true))
    run_scraper.
Proof.
  unfold run_scraper. cbv zeta. eapply logs_weaken; [logging|].
  intros r l Hl. unlog; eexists; (split; [done|]); done.
Qed.

Lemma logs_run_embedding_processing :
  logs (W:=W)
    (fun r l =>
       exists b,
         l = [(python_process_embeddings, b)] /\ (r = Some true -> b = true))
    run_embedding_processing.
Proof.
  unfold run_embedding_processing. eapply logs_weaken; [logging|].
  intros r l Hl. unlog; eexists; (split; [done|]); done.
Qed.

Lemma logs_start_app :
  logs (W:=W) (fun r l => exists b, l = [(streamlit_run, b)]) start_app.
Proof.
  intros st.
  unfold start_app, try_except_class_then, mbind, M_bind, bind, shell.
  cbn [print modify fst snd world stdout commands].
  destruct (subprocess_run streamlit_run false (world st)) as [[out|e|] w];
    [| |].
  - exists [(streamlit_run, true)]. split; [done|by eexists].
  - exists [(streamlit_run, false)]. split; [|by eexists].
    destruct (decide (cls_of e = "KeyboardInterrupt"%string)); [done|].
    by destruct (is_Exception e).
  - exists [(streamlit_run, false)]. split; [done|by eexists].
Qed.

Lemma logs_check_requirements :
  logs (W:=W) (fun r l => l = []) check_requirements.
Proof. apply logs_quiet, check_requirements_quiet. Qed.

Lemma command_names_differ :
  pip_install <> streamlit_run /\ docker_run <> streamlit_run
  /\ python_scraper <> streamlit_run
  /\ python_process_embeddings <> streamlit_run.
Proof. repeat split; by vm_compute. Qed.

(** Decides [gated] on a list of commands written out. *)
Ltac solve_gated :=
  split; [|split];
  [ simpl;
    repeat first [apply sublist_nil_l | apply sublist_skip | apply sublist_cons]
  | first [ by left
          | right; eexists _, _; split; [reflexivity|by intros] ]
  | let b := fresh "b" in
    let Hin := fresh "Hin" in
    intros b Hin; simpl in Hin;
    destruct command_names_differ as (? & ? & ? & ?);
    repeat (destruct Hin as [Hin|Hin]; [try (by simplify_eq)|]);
    try done; simplify_eq;
    match goal with
    | |- exists before, ?l = _ /\ _ =>
        exists (removelast l); cbn [removelast];
        split; [reflexivity|by repeat constructor]
    end ].

(** X23. Whatever the shell, the network, the file system and the user
    do, [main] of the setup script runs its shell commands in the fixed
    order [pip install], [docker run], [python scraper.py],
    [python process_embeddings.py], [streamlit run app.py], each at most
    once. [pip install] is the first command run, and nothing follows it
    when it fails. The application is started last, and only when every
    command run before it returned normally. *)
Theorem setup_runs_commands_in_order (st : @State W) :
  exists new,
    (main st).2.(commands) = st.(commands) ++ new
    /\ map fst new `sublist_of` pipeline
    /\ (new = []
        \/ exists b rest,
             new = (pip_install, b) :: rest /\ (b = false -> rest = []))
    /\ (forall b, In (streamlit_run, b) new ->
          exists before,
            new = before ++ [(streamlit_run, b)]
            /\ Forall (fun c => c.2 = true) before).
Proof.
  enough (Hlogs : logs (fun _ l => gated l) main).
  { destruct (Hlogs st) as (new & Hran & Hgated). by exists new. }
  unfold main, install_dependencies.
  eapply logs_weaken;
    [logging_with ltac:(first
       [ apply logs_check_requirements
       | apply logs_check_qdrant
       | apply logs_run_scraper
       | apply logs_run_embedding_processing
       | apply logs_start_app ])|].
  intros r l Hl. unlog.
  all: solve_gated.
Qed.

(** [check_requirements] gives [True] only on a recent Python, with a
    [.env] file and a key in the environment. *)
Lemma check_requirements_true (st : @State W) :
  (check_requirements st).1 = Ok true ->
  tuple_lt version_info (3, 8) = false
  /\ (exists w w', os_path_exists (lit ".env") w = (Ok true, w'))
  /\ (exists w w' key,
        os_getenv (lit "GROQ_API_KEY") w = (Ok (Some key), w') /\ key <> []).
Proof.
  unfold check_requirements, mbind, M_bind, bind, call.
  cbn [print modify fst snd world].
  destruct (tuple_lt version_info (3, 8)); [done|].
  destruct (Scraper.split sys_version) as [|v vs]; [done|].
  cbn [ret print modify fst snd world].
  destruct (os_path_exists (lit ".env") (world st)) as [[[]|e|] w1] eqn:Hexists;
    try done.
  cbn [negb world]. destruct (load_dotenv w1) as [[[]|e|] w2]; try done.
  cbn [world].
  destruct (os_getenv (lit "GROQ_API_KEY") w2) as [[[[|c key]|]|e|] w3] eqn:Hkey;
    try done.
  intros _. split; [done|]. split; [by eexists _, _|].
  by exists w2, w3, (c :: key).
Qed.

End SetupFacts.

(** X24. The setup script runs no shell command unless the requirements
    hold: if [main] ran any command, the interpreter is at least Python
    3.8, the [.env] file was found and [GROQ_API_KEY] was read from the
    environment with a value that is not empty. *)
Theorem setup_runs_nothing_without_requirements {W : Type}
    `{Setup.External W} (st : @Setup.State W) :
  (Setup.main st).2.(Setup.commands) <> st.(Setup.commands) ->
  Setup.tuple_lt Setup.version_info (3, 8) = false
  /\ (exists w w', Setup.os_path_exists (lit ".env") w = (Ok true, w'))
  /\ (exists w w' key,
        Setup.os_getenv (lit "GROQ_API_KEY") w = (Ok (Some key), w')
        /\ key <> []).
Proof.
  intros Hran. unfold Setup.main, mbind, M_bind, bind in Hran.
  cbn [Setup.print modify fst snd] in Hran.
  match type of Hran with
  | context [Setup.check_requirements ?s] =>
      pose proof (check_requirements_spec s) as Hquiet;
      pose proof (check_requirements_true s) as Htrue;
      destruct (Setup.check_requirements s) as [[[]|e|] st1]
  end; simpl in *; unfold SetupInv.ran in Hquiet; simpl in Hquiet;
    rewrite app_nil_r in Hquiet; try done.
  by apply Htrue.
Qed.

Lemma setup_runs_nothing_without_requirements_witness :
  Setup.tuple_lt Setup.version_info (3, 8) = false
  /\ (exists w w', Setup.os_path_exists (lit ".env") w = (Ok true, w'))
  /\ (exists w w' key,
        Setup.os_getenv (lit "GROQ_API_KEY") w = (Ok (Some key), w')
        /\ key <> []).
Proof.
  apply (setup_runs_nothing_without_requirements SetupSim.start).
  vm_compute. discriminate.
Defined.
